(** * The crash collector's core-dump writer

    A shallow embedding of [crash_collector/coredump_writer.cc] and the
    properties of its segment filter, its NT_FILE decoder, its forward-only
    reader, its [maps] writer and of the run as a whole.

    Conventions.
    - Machine integers are [Z]; every C++ operation that can leave the range
      of its type is followed by the conversion to that type ([to_size_t],
      [to_long], ...), so wrap-around is explicit.
    - Byte buffers ([std::vector<char>], [std::string], file contents) are
      [list byte]; file names are [string].
    - The file system and the log of file creations and removals form the
      [World], which is threaded through the functions that touch it. *)

From Stdlib Require Import ZArith List Lia Bool.
From Stdlib Require Import Strings.String Strings.Ascii Strings.Byte.
From stdpp Require Import base gmap strings list.

Local Open Scope Z_scope.

(** ** Platform *)

(** [google_breakpad::ElfCoreDump::kClass]: the ELF class of the build, which
    fixes the width of [long], [size_t], [off_t] and of the [ElfW] types. *)
Inductive ElfClass := ELFCLASS32 | ELFCLASS64.

(** Constants of <elf.h>. *)
Definition PT_LOAD : Z := 1.
Definition PT_NOTE : Z := 4.
Definition PF_X : Z := 1.
Definition PF_W : Z := 2.
Definition PF_R : Z := 4.
Definition NT_AUXV : Z := 6.
Definition NT_FILE : Z := 0x46494c45.
Definition EI_CLASS : Z := 4.
Definition EV_CURRENT : Z := 1.
Definition ET_CORE : Z := 4.
(** ELFMAG, the four bytes 0x7f 'E' 'L' 'F'. *)
Definition ELFMAG : list byte := [x7f; x45; x4c; x46].
Definition SELFMAG : Z := 4.

Definition class_code (c : ElfClass) : Z :=
  match c with ELFCLASS32 => 1 | ELFCLASS64 => 2 end.

(** [const size_t kMaxCoredumpSize = 256 * 1024 * 1024;] *)
Definition kMaxCoredumpSize : Z := 256 * 1024 * 1024.

(** [ElfW(Phdr)].  The record is the same for both classes; the two memory
    layouts are [encode_Phdr] and [decode_Phdr] below. *)
Record Phdr := mkPhdr {
  p_type : Z;
  p_flags : Z;
  p_offset : Z;
  p_vaddr : Z;
  p_paddr : Z;
  p_filesz : Z;
  p_memsz : Z;
  p_align : Z
}.

Definition set_p_filesz (v : Z) (ph : Phdr) : Phdr :=
  mkPhdr (p_type ph) (p_flags ph) (p_offset ph) (p_vaddr ph) (p_paddr ph)
         v (p_memsz ph) (p_align ph).

Definition set_p_offset (v : Z) (ph : Phdr) : Phdr :=
  mkPhdr (p_type ph) (p_flags ph) v (p_vaddr ph) (p_paddr ph)
         (p_filesz ph) (p_memsz ph) (p_align ph).

(** [struct FileInfo { long offset; std::string path; }]. *)
Module FileInfo.
Record t := mk { offset : Z; path : list byte }.
(** A value-initialised [FileInfo], as [std::map::operator[]] inserts. *)
Definition empty : t := mk 0 [].
End FileInfo.

(** [using FileRange = std::pair<long, long>] and
    [using FileMappings = std::map<FileRange, FileInfo>]. *)
Abbreviation FileRange := (Z * Z)%type (only parsing).
Abbreviation FileMappings := (gmap (Z * Z) FileInfo.t) (only parsing).

(** [file_mappings.count(range)] as a truth value. *)
Definition count (fm : FileMappings) (range : FileRange) : bool :=
  match fm !! range with Some _ => true | None => false end.

(** Little-endian value of a byte sequence (the targets are little-endian). *)
Fixpoint le_decode (bs : list byte) : Z :=
  match bs with
  | [] => 0
  | b :: bs' => Z.of_N (Byte.to_N b) + 256 * le_decode bs'
  end.

Definition byte_of_Z (z : Z) : byte :=
  match Byte.of_N (Z.to_N (z mod 256)) with Some b => b | None => x00 end.

(** The [n] low-order bytes of [z], least significant first. *)
Fixpoint le_encode (n : nat) (z : Z) : list byte :=
  match n with
  | O => []
  | S n' => byte_of_Z z :: le_encode n' (z / 256)
  end.

(** The scalar types [T] at which [GetValueFromNote<T>] is instantiated:
    their size and how a value is loaded from its bytes. *)
Record CType (T : Type) := mkCType {
  sizeof : Z;
  load : list byte -> T
}.
Arguments sizeof {T} _.
Arguments load {T} _ _.

(** The outcome of a call during which the process can be terminated: the
    call returns a value, or the process ends within it. *)
Inductive Call (A : Type) :=
| Returns (a : A)
| Aborts.
Arguments Returns {A} a.
Arguments Aborts {A}.

Section Platform.

Variable kClass : ElfClass.

(** [sizeof(long)], which is also [sizeof(size_t)] and the size of the
    address, offset and size fields of [ElfW(Phdr)]. *)
Definition wordbytes : Z :=
  match kClass with ELFCLASS32 => 4 | ELFCLASS64 => 8 end.

Definition wmod : Z := 2 ^ (8 * wordbytes).

(** Conversion to an unsigned word ([size_t], [ElfW(Addr)], [ElfW(Off)]). *)
Definition to_size_t (z : Z) : Z := z mod wmod.

(** Conversion to a signed word ([long], [ssize_t], [off_t]). *)
Definition to_long (z : Z) : Z := (z + wmod / 2) mod wmod - wmod / 2.

(** ** FilterSegments *)

(** [const FileRange range(p_vaddr, p_vaddr + p_memsz)]: the sum is taken in
    the unsigned address type, both members are then converted to [long]. *)
Definition segment_range (ph : Phdr) : FileRange :=
  (to_long (p_vaddr ph), to_long (to_size_t (p_vaddr ph + p_memsz ph))).

(** The body of the loop of [FilterSegments] for one index [i >= 1]:
    [prev] is element [i - 1] of [program_headers_filtered], [ph] is
    element [i] of [program_headers]. *)
Definition filter_entry (fm : FileMappings) (prev ph : Phdr) : Phdr :=
  let out := ph in
  let range := segment_range out in
  let out :=
    if (p_type out =? PT_LOAD) && count fm range
    then set_p_filesz 0 out else out in
  let out := set_p_offset (to_size_t (p_offset prev + p_filesz prev)) out in
  if negb (p_align out =? 0) && negb (p_offset out mod p_align out =? 0)
  then set_p_offset
         (to_size_t (p_offset out + (p_align out - p_offset out mod p_align out)))
         out
  else out.

(** The loop [for (i = 1; i < size; ++i)], carrying the previous filtered
    entry. *)
Fixpoint filter_from (fm : FileMappings) (prev : Phdr) (phs : list Phdr)
  : list Phdr :=
  match phs with
  | [] => []
  | ph :: rest =>
      let out := filter_entry fm prev ph in
      out :: filter_from fm out rest
  end.

(** [CoredumpWriter::FilterSegments].  The source indexes element 0 of both
    vectors unconditionally, which is undefined for an empty vector: [None]. *)
Definition FilterSegments (program_headers : list Phdr) (fm : FileMappings)
  : option (list Phdr) :=
  match program_headers with
  | [] => None
  | first :: rest => Some (first :: filter_from fm first rest)
  end.

(** ** Notes

    [google_breakpad::MemoryRange] and [google_breakpad::ElfCoreDump::Note]
    belong to an external library.  A range is the list of its bytes; a note
    is the range that starts at its header. *)

(** Modelled from the spec: the bounds test of [MemoryRange] that decides
    whether a field access is "out of range (offsets beyond the buffer)":
    the access starts inside the buffer and ends no later than its end. *)
Definition Covers (range : list byte) (sub_offset sub_length : Z) : bool :=
  (0 <=? sub_offset) && (sub_offset <? Z.of_nat (length range))
  && (sub_offset + sub_length <=? Z.of_nat (length range)).

(** Modelled from the spec: [MemoryRange::GetData(sub_offset, sub_length)],
    the bytes of the access, or [None] (a null pointer) when it is out of
    range. *)
Definition GetData (range : list byte) (sub_offset sub_length : Z)
  : option (list byte) :=
  if Covers range sub_offset sub_length
  then Some (take (Z.to_nat sub_length) (drop (Z.to_nat sub_offset) range))
  else None.

(** Modelled from the spec: [MemoryRange::Subrange], empty when out of
    range. *)
Definition Subrange (range : list byte) (sub_offset sub_length : Z)
  : list byte :=
  match GetData range sub_offset sub_length with
  | Some bs => bs
  | None => []
  end.

Definition long_t : CType Z := mkCType Z wordbytes (fun bs => to_long (le_decode bs)).
Definition char_t : CType byte := mkCType byte 1 (fun bs => hd x00 bs).
(** [ElfW(Word)], 32 bits in both classes. *)
Definition Word_t : CType Z := mkCType Z 4 le_decode.

(** [sizeof(Nhdr)]: the three words [n_namesz], [n_descsz], [n_type]. *)
Definition sizeof_Nhdr : Z := 12.

(** Modelled from the spec: "each note's self-described header + description
    length (padded per the standard ELF note encoding)": sizes are rounded up
    to a multiple of [sizeof(Word)]. *)
Definition AlignedSize (size : Z) : Z := Z.land (size + 3) (Z.lnot 3).

Definition Nhdr_field (note : list byte) (k : Z) : Z :=
  match GetData note (4 * k) 4 with
  | Some bs => load Word_t bs
  | None => 0
  end.

(** Modelled from the spec: [Note::IsValid], the header lies in the range. *)
Definition IsValid (note : list byte) : bool := Covers note 0 sizeof_Nhdr.

Definition n_namesz (note : list byte) : Z := Nhdr_field note 0.
Definition n_descsz (note : list byte) : Z := Nhdr_field note 1.

(** Modelled from the spec: [Note::GetType], 0 for an invalid note. *)
Definition GetType (note : list byte) : Z :=
  if IsValid note then Nhdr_field note 2 else 0.

(** Modelled from the spec: [Note::GetDescription], the "opaque description
    bytes" that follow the padded name; empty when they do not fit. *)
Definition GetDescription (note : list byte) : list byte :=
  if IsValid note
  then Subrange note (AlignedSize (sizeof_Nhdr + n_namesz note)) (n_descsz note)
  else [].

(** Modelled from the spec: [Note::GetNextNote], the rest of the range after
    the padded description; "iteration stops at buffer end or on the first
    structurally invalid record". *)
Definition GetNextNote (note : list byte) : list byte :=
  if IsValid note
  then
    let next_offset :=
      AlignedSize (AlignedSize (sizeof_Nhdr + n_namesz note) + n_descsz note) in
    Subrange note next_offset (Z.of_nat (length note) - next_offset)
  else [].

(** [while (note.IsValid() && note.GetType() != type) note = note.GetNextNote();]
    Every round drops at least the header of the current note, so the length
    of the range bounds the number of rounds ([find_note_stops]). *)
Fixpoint find_note (fuel : nat) (type : Z) (note : list byte) : list byte :=
  match fuel with
  | O => note
  | S fuel' =>
      if IsValid note && negb (GetType note =? type)
      then find_note fuel' type (GetNextNote note)
      else note
  end.

Definition FindNote (type : Z) (note_buf : list byte) : list byte :=
  find_note (length note_buf) type note_buf.

(** [template<typename T> T GetValueFromNote(note, offset, default_value)]. *)
Definition GetValueFromNote {T} (ty : CType T) (note : list byte) (offset : Z)
    (default_value : T) : T :=
  match GetData (GetDescription note) offset (sizeof ty) with
  | Some bs => load ty bs
  | None => default_value
  end.

(** ** GetFileMappings *)

(** [const long kInvalidValue = -1;] *)
Definition kInvalidValue : Z := -1.

(** The loop that reads one file name:
    [while (true) { c = GetValueFromNote<char>(note, filename_pos++, 0);
                    if (!c) break; info.path.push_back(c); }]
    Returns the new [filename_pos] and the path.  A read past the end yields
    the default 0 and ends the loop, so the length of the description plus
    one bounds the number of rounds ([read_name_fuel]). *)
Fixpoint read_name (fuel : nat) (note : list byte) (filename_pos : Z)
    (path : list byte) : Z * list byte :=
  match fuel with
  | O => (filename_pos, path)
  | S fuel' =>
      let c := GetValueFromNote char_t note filename_pos x00 in
      let filename_pos := to_size_t (filename_pos + 1) in
      if Byte.eqb c x00 then (filename_pos, path)
      else read_name fuel' note filename_pos (path ++ [c])
  end.

(** Offset of the [k]-th [long] of the description, [sizeof(long) * k] in
    [size_t]. *)
Definition long_at (k : Z) : Z := to_size_t (wordbytes * k).

(** The loop [for (long i = 0; i < file_count; ++i)], with [n] rounds left.
    [offset * page_size] is a signed product; it is taken to wrap. *)
Fixpoint read_files (n : nat) (note : list byte) (page_size : Z) (i : Z)
    (filename_pos : Z) (file_mappings : FileMappings) : option FileMappings :=
  match n with
  | O => Some file_mappings
  | S n' =>
      let start := GetValueFromNote long_t note (long_at (2 + 3 * i)) kInvalidValue in
      let end_ := GetValueFromNote long_t note (long_at (2 + 3 * i + 1)) kInvalidValue in
      let offset := GetValueFromNote long_t note (long_at (2 + 3 * i + 2)) kInvalidValue in
      if (start =? kInvalidValue) || (end_ =? kInvalidValue)
         || (offset =? kInvalidValue)
      then None
      else
        (* [info] is the entry of the map at the key, created empty if absent *)
        let info := default FileInfo.empty (file_mappings !! (start, end_)) in
        let info_offset := to_long (offset * page_size) in
        let '(filename_pos, info_path) :=
          read_name (S (length (GetDescription note))) note filename_pos
                    (FileInfo.path info) in
        read_files n' note page_size (i + 1) filename_pos
          (<[(start, end_) := FileInfo.mk info_offset info_path]> file_mappings)
  end.

(** The part of [GetFileMappings] that follows the search for the note. *)
Definition read_file_note (note : list byte) (file_mappings : FileMappings)
  : option FileMappings :=
  let file_count := GetValueFromNote long_t note 0 kInvalidValue in
  let page_size := GetValueFromNote long_t note wordbytes kInvalidValue in
  if (file_count =? kInvalidValue) || (page_size =? kInvalidValue) then None
  else
    let filename_pos := long_at (2 + 3 * file_count) in
    read_files (Z.to_nat file_count) note page_size 0 filename_pos file_mappings.

(** [CoredumpWriter::GetFileMappings]; [None] is the result [false]. *)
Definition GetFileMappings (note_buf : list byte) (file_mappings : FileMappings)
  : option FileMappings :=
  let note := FindNote NT_FILE note_buf in
  if negb (IsValid note) then None
  else read_file_note note file_mappings.

(** ** The input stream and the forward-only reader *)

(** The source descriptor [fd_src_]: the bytes not read yet, and whether a
    read that finds none left reports an error rather than the end of the
    stream. *)
Record Source := mkSource { pending : list byte; broken : bool }.

(** [TEMP_FAILURE_RETRY(read(fd, buf, count))] for [count > 0]: the value
    returned, the bytes stored in [buf], and the descriptor afterwards. *)
Definition read (src : Source) (count : Z) : Z * list byte * Source :=
  match pending src with
  | [] => (if broken src then -1 else 0, [], src)
  | _ =>
      let bs := take (Z.to_nat count) (pending src) in
      (Z.of_nat (length bs), bs,
       mkSource (drop (Z.to_nat count) (pending src)) (broken src))
  end.

(** [android::base::ReadFully]: exactly [num_bytes] bytes, or failure when the
    stream ends or breaks first (what was read until then is lost). *)
Definition ReadFully (src : Source) (num_bytes : Z)
  : option (list byte) * Source :=
  if num_bytes <=? Z.of_nat (length (pending src))
  then (Some (take (Z.to_nat num_bytes) (pending src)),
        mkSource (drop (Z.to_nat num_bytes) (pending src)) (broken src))
  else (None, mkSource [] (broken src)).

(** ** The file system *)

Inductive Event :=
| Created (path : string)
| Unlinked (path : string).

(** What the run cannot decide by itself: the answer of [statvfs] for a path
    ([f_bavail], [f_frsize]), whether a file may be created at a path,
    whether a write of some bytes at some position of a file goes through,
    whether the file system of a file takes an offset that is not negative
    as a position of the file, and whether an allocation of some bytes of
    memory succeeds. *)
Record Env := mkEnv {
  statvfs_of : string -> option (Z * Z);
  may_create : string -> bool;
  may_write : string -> Z -> list byte -> bool;
  may_seek : string -> Z -> bool;
  may_allocate : Z -> bool
}.

Record World := mkWorld {
  env : Env;
  files : gmap string (list byte);
  events : list Event
}.

(** An open output descriptor: the file it names and its position.  No file
    is removed while a descriptor on it is open. *)
Record OutFd := mkOutFd { out_path : string; out_pos : Z }.

(** [open(path, O_WRONLY | O_CREAT | O_EXCL, ...)]: fails when the file
    exists. *)
Definition open_excl (w : World) (path : string) : option (World * OutFd) :=
  match files w !! path with
  | Some _ => None
  | None =>
      if may_create (env w) path
      then Some (mkWorld (env w) (<[path := []]> (files w))
                         (events w ++ [Created path]),
                 mkOutFd path 0)
      else None
  end.

(** [unlink(path)]. *)
Definition unlink (w : World) (path : string) : World :=
  match files w !! path with
  | Some _ => mkWorld (env w) (delete path (files w)) (events w ++ [Unlinked path])
  | None => w
  end.

(** The content of a file after [data] is written at position [pos]; a
    position past the end leaves a hole of zero bytes. *)
Definition write_at (content : list byte) (pos : Z) (data : list byte)
  : list byte :=
  take (Z.to_nat pos) content
  ++ replicate (Z.to_nat pos - length content) x00
  ++ data
  ++ drop (Z.to_nat pos + length data) content.

(** [android::base::WriteFully(fd, data, len)]: with nothing to write no
    system call is made. *)
Definition WriteFully (w : World) (fd : OutFd) (data : list byte)
  : option (World * OutFd) :=
  match data with
  | [] => Some (w, fd)
  | _ =>
      match files w !! out_path fd with
      | Some content =>
          if may_write (env w) (out_path fd) (out_pos fd) data
          then Some (mkWorld (env w)
                             (<[out_path fd := write_at content (out_pos fd) data]>
                                (files w))
                             (events w),
                     mkOutFd (out_path fd) (out_pos fd + Z.of_nat (length data)))
          else None
      | None => None
      end
  end.

(** [lseek(fd, offset, SEEK_SET)]: a negative offset is refused with -1, and
    so is an offset that the file system of the file does not take, such as
    one above its largest file size; the descriptor then stays where it
    is. *)
Definition lseek (e : Env) (fd : OutFd) (offset : Z) : Z * OutFd :=
  if (0 <=? offset) && may_seek e (out_path fd) offset
  then (offset, mkOutFd (out_path fd) offset) else (-1, fd).

(** [bool Seek(int fd, off_t offset)]; the argument is converted to [off_t]. *)
Definition Seek (e : Env) (fd : OutFd) (offset : Z) : bool * OutFd :=
  let offset := to_long offset in
  let '(rv, fd) := lseek e fd offset in
  (rv =? offset, fd).

Definition to_int64 (z : Z) : Z := (z + 2 ^ 63) mod 2 ^ 64 - 2 ^ 63.

(** [int64_t GetFreeDiskSpace(path)]; [statvfs] needs the path to exist. *)
Definition GetFreeDiskSpace (w : World) (path : string) : Z :=
  match files w !! path, statvfs_of (env w) path with
  | Some _, Some (f_bavail, f_frsize) => to_int64 (f_bavail * f_frsize)
  | _, _ => -1
  end.

(** ** class CoredumpWriter::FdReader *)

Record FdReader := mkFdReader { fd_ : Source; bytes_read_ : Z }.

(** [bool Read(void* buf, size_t num_bytes)]: the bytes read, if any. *)
Definition FdReader_Read (r : FdReader) (num_bytes : Z)
  : option (list byte) * FdReader :=
  match ReadFully (fd_ r) num_bytes with
  | (Some buf, src) =>
      (Some buf, mkFdReader src (to_size_t (bytes_read_ r + num_bytes)))
  | (None, src) => (None, mkFdReader src (bytes_read_ r))
  end.

Definition kBufSize : Z := 32768.

(** The loop of [CopyTo].  [dest] is the destination with the world it lives
    in, [None] for [fd_dest == -1].  Every round that goes on has read at
    least one byte, so the number of pending bytes plus one bounds the number
    of rounds ([CopyTo_spec]). *)
Fixpoint CopyTo_loop (fuel : nat) (r : FdReader) (dest : option (World * OutFd))
    (num_bytes : Z) : bool * FdReader * option (World * OutFd) :=
  match fuel with
  | O => (num_bytes =? 0, r, dest)
  | S fuel' =>
      if 0 <? num_bytes then
        let '(rv, buf, src) := read (fd_ r) (Z.min kBufSize num_bytes) in
        let r := mkFdReader src (bytes_read_ r) in
        if rv =? 0 then (num_bytes =? 0, r, dest)
        else if rv =? -1 then (false, r, dest)
        else
          let written :=
            match dest with
            | None => Some None
            | Some (w, fd) =>
                match WriteFully w fd buf with
                | Some d => Some (Some d)
                | None => None
                end
            end in
          match written with
          | None => (false, r, dest)
          | Some dest =>
              CopyTo_loop fuel'
                (mkFdReader (fd_ r) (to_size_t (bytes_read_ r + rv)))
                dest (num_bytes - rv)
          end
      else (num_bytes =? 0, r, dest)
  end.

(** [bool CopyTo(int fd_dest, size_t num_bytes)]. *)
Definition FdReader_CopyTo (r : FdReader) (dest : option (World * OutFd))
    (num_bytes : Z) : bool * FdReader * option (World * OutFd) :=
  CopyTo_loop (S (length (pending (fd_ r)))) r dest num_bytes.

(** [bool Seek(size_t offset)]. *)
Definition FdReader_Seek (r : FdReader) (offset : Z) : bool * FdReader :=
  if offset <? bytes_read_ r then (false, r)
  else
    let '(ok, r, _) := FdReader_CopyTo r None (to_size_t (offset - bytes_read_ r)) in
    (ok, r).

(** ** ELF header and program headers *)

(** [sizeof(Ehdr)] and [sizeof(Phdr)] of <elf.h>. *)
Definition sizeof_Ehdr : Z :=
  match kClass with ELFCLASS32 => 52 | ELFCLASS64 => 64 end.
Definition sizeof_Phdr : Z :=
  match kClass with ELFCLASS32 => 32 | ELFCLASS64 => 56 end.

(** The integer stored in [size] bytes at offset [off] of a structure. *)
Definition field (bs : list byte) (off size : Z) : Z :=
  le_decode (take (Z.to_nat size) (drop (Z.to_nat off) bs)).

(** [ElfW(Ehdr)] is kept as its bytes, which are written back unchanged; the
    fields the code reads are taken at their offsets in the structure. *)
Definition e_ident (eh : list byte) : list byte := take 16 eh.
Definition e_type (eh : list byte) : Z := field eh 16 2.
Definition e_version (eh : list byte) : Z := field eh 20 4.
Definition e_phoff (eh : list byte) : Z :=
  match kClass with ELFCLASS32 => field eh 28 4 | ELFCLASS64 => field eh 32 8 end.
Definition e_ehsize (eh : list byte) : Z :=
  match kClass with ELFCLASS32 => field eh 40 2 | ELFCLASS64 => field eh 52 2 end.
Definition e_phentsize (eh : list byte) : Z :=
  match kClass with ELFCLASS32 => field eh 42 2 | ELFCLASS64 => field eh 54 2 end.
Definition e_phnum (eh : list byte) : Z :=
  match kClass with ELFCLASS32 => field eh 44 2 | ELFCLASS64 => field eh 56 2 end.

(** The two layouts of [ElfW(Phdr)]. *)
Definition decode_Phdr (bs : list byte) : Phdr :=
  match kClass with
  | ELFCLASS32 =>
      {| p_type := field bs 0 4; p_offset := field bs 4 4;
         p_vaddr := field bs 8 4; p_paddr := field bs 12 4;
         p_filesz := field bs 16 4; p_memsz := field bs 20 4;
         p_flags := field bs 24 4; p_align := field bs 28 4 |}
  | ELFCLASS64 =>
      {| p_type := field bs 0 4; p_flags := field bs 4 4;
         p_offset := field bs 8 8; p_vaddr := field bs 16 8;
         p_paddr := field bs 24 8; p_filesz := field bs 32 8;
         p_memsz := field bs 40 8; p_align := field bs 48 8 |}
  end.

Definition encode_Phdr (ph : Phdr) : list byte :=
  match kClass with
  | ELFCLASS32 =>
      le_encode 4 (p_type ph) ++ le_encode 4 (p_offset ph)
      ++ le_encode 4 (p_vaddr ph) ++ le_encode 4 (p_paddr ph)
      ++ le_encode 4 (p_filesz ph) ++ le_encode 4 (p_memsz ph)
      ++ le_encode 4 (p_flags ph) ++ le_encode 4 (p_align ph)
  | ELFCLASS64 =>
      le_encode 4 (p_type ph) ++ le_encode 4 (p_flags ph)
      ++ le_encode 8 (p_offset ph) ++ le_encode 8 (p_vaddr ph)
      ++ le_encode 8 (p_paddr ph) ++ le_encode 8 (p_filesz ph)
      ++ le_encode 8 (p_memsz ph) ++ le_encode 8 (p_align ph)
  end.

(** The [n] records of a program-header table read as one block. *)
Fixpoint decode_Phdrs (n : nat) (bs : list byte) : list Phdr :=
  match n with
  | O => []
  | S n' =>
      decode_Phdr (take (Z.to_nat sizeof_Phdr) bs)
      :: decode_Phdrs n' (drop (Z.to_nat sizeof_Phdr) bs)
  end.

Definition bytes_eqb (a b : list byte) : bool :=
  (length a =? length b)%nat && forallb (fun p => Byte.eqb (fst p) (snd p)) (combine a b).

(** ** ReadUntilNote *)

(** [std::vector<T>::resize(n)] on an empty vector, for [bytes] bytes in
    all: nothing is allocated for no bytes; a size beyond [max_size()], half
    the range of [size_t], is refused; otherwise the allocation succeeds or
    fails.  Nothing in the program handles a refusal or a failure: the
    process is terminated there.  [true] when the call returns.  These are
    the two allocations whose size is read from the input; the others (the
    filtered headers, the entries and paths of the mappings), which are no
    larger than what has been read by then, are taken to succeed. *)
Definition resize (e : Env) (bytes : Z) : bool :=
  (bytes =? 0) || ((bytes <? wmod / 2) && may_allocate e bytes).

(** [CoredumpWriter::ReadUntilNote]: the ELF header, the program headers and
    the bytes of the NOTE segment, or [None] for [false]; or the process is
    terminated in one of the two calls of [resize], whose sizes the input
    chooses. *)
Definition ReadUntilNote (e : Env) (reader : FdReader)
  : Call (option (list byte * list Phdr * list byte) * FdReader) :=
  (* Read ELF header. *)
  match FdReader_Read reader sizeof_Ehdr with
  | (None, reader) => Returns (None, reader)
  | (Some elf_header, reader) =>
      if negb (bytes_eqb (take (Z.to_nat SELFMAG) (e_ident elf_header)) ELFMAG)
         || negb (field (e_ident elf_header) EI_CLASS 1 =? class_code kClass)
         || negb (e_version elf_header =? EV_CURRENT)
         || negb (e_type elf_header =? ET_CORE)
         || negb (e_ehsize elf_header =? sizeof_Ehdr)
         || negb (e_phentsize elf_header =? sizeof_Phdr)
      then Returns (None, reader)
      else
        (* Read program headers. *)
        let phnum := e_phnum elf_header in
        if negb (resize e (sizeof_Phdr * phnum)) then Aborts else
        match FdReader_Seek reader (e_phoff elf_header) with
        | (false, reader) => Returns (None, reader)
        | (true, reader) =>
            match FdReader_Read reader (to_size_t (sizeof_Phdr * phnum)) with
            | (None, reader) => Returns (None, reader)
            | (Some table, reader) =>
                let program_headers := decode_Phdrs (Z.to_nat phnum) table in
                (* The first segment should be NOTE. *)
                match program_headers with
                | [] => Returns (None, reader)
                | note_program_header :: _ =>
                    if negb (p_type note_program_header =? PT_NOTE)
                    then Returns (None, reader)
                    else
                      (* Read NOTE segment. *)
                      if negb (resize e (p_filesz note_program_header))
                      then Aborts else
                      match FdReader_Seek reader (p_offset note_program_header) with
                      | (false, reader) => Returns (None, reader)
                      | (true, reader) =>
                          match FdReader_Read reader (p_filesz note_program_header) with
                          | (None, reader) => Returns (None, reader)
                          | (Some note_buf, reader) =>
                              Returns (Some (elf_header, program_headers, note_buf),
                                       reader)
                          end
                      end
                end
            end
        end
  end.

(** ** WriteAuxv *)

(** [CoredumpWriter::WriteAuxv]. *)
Definition WriteAuxv (w : World) (note_buf : list byte) (output_path : string)
  : bool * World :=
  let note := FindNote NT_AUXV note_buf in
  if negb (IsValid note) then (false, w)
  else
    match open_excl w output_path with
    | None => (false, w)
    | Some (w, fd) =>
        match WriteFully w fd (GetDescription note) with
        | Some (w, _) => (true, w)
        | None => (false, w)
        end
    end.

(** ** WriteMaps *)

Definition hex_digit (d : Z) : byte :=
  nth (Z.to_nat d) (list_byte_of_string "0123456789abcdef") x00.

(** The [n] low-order hexadecimal digits of [v], most significant first. *)
Fixpoint hex_digits (n : nat) (v : Z) (acc : list byte) : list byte :=
  match n with
  | O => acc
  | S n' => hex_digits n' (v / 16) (hex_digit (v mod 16) :: acc)
  end.

(** Drops leading zeros as long as more than [width] digits remain. *)
Fixpoint strip_zeros (width : nat) (ds : list byte) : list byte :=
  match ds with
  | d :: ds' =>
      if Byte.eqb d "0"%byte && (width <? length ds)%nat
      then strip_zeros width ds' else ds
  | [] => []
  end.

(** The conversion [%08lx]: the argument as an [unsigned long], in lower-case
    hexadecimal, padded with zeros to eight digits. *)
Definition fmt_08lx (v : Z) : list byte :=
  strip_zeros 8 (hex_digits (Z.to_nat (2 * wordbytes)) (to_size_t v) []).

Definition flag_char (flags mask : Z) (c : byte) : byte :=
  if negb (Z.land flags mask =? 0) then c else "-"%byte.

(** [std::string::c_str()] as [%s] prints it: the bytes before the first
    zero byte. *)
Fixpoint c_str (s : list byte) : list byte :=
  match s with
  | [] => []
  | c :: s' => if Byte.eqb c x00 then [] else c :: c_str s'
  end.

(** The text produced by the format
    [%08lx-%08lx %c%c%c%c %08lx %02x:%02x %d %s\n] for the arguments of the
    call in [WriteMaps]: device and inode are the constant 0, and the path
    is passed as [path.c_str()]. *)
Definition maps_format (range : FileRange) (flags : Z) (offset : Z)
    (path : list byte) : list byte :=
  fmt_08lx (fst range) ++ list_byte_of_string "-" ++ fmt_08lx (snd range)
  ++ list_byte_of_string " "
  ++ [flag_char flags PF_R "r"%byte; flag_char flags PF_W "w"%byte;
      flag_char flags PF_X "x"%byte; "p"%byte]
  ++ list_byte_of_string " " ++ fmt_08lx offset
  ++ list_byte_of_string " 00:00 0 " ++ c_str path ++ [x0a].

(** [snprintf(buf, size, ...)] for the text [s]: the length [s] has, and the
    content of [buf], which holds as much of [s] as fits before the
    terminating zero. *)
Definition snprintf (size : Z) (s : list byte) : Z * list byte :=
  (Z.of_nat (length s), take (Z.to_nat (size - 1)) s ++ [x00]).

Definition maps_kBufSize : Z := 1024.

(** The loop [for (const auto& program_header : program_headers)] of
    [WriteMaps]. *)
Fixpoint WriteMaps_loop (w : World) (fd : OutFd) (program_headers : list Phdr)
    (file_mappings : FileMappings) : bool * World :=
  match program_headers with
  | [] => (true, w)
  | program_header :: rest =>
      if negb (p_type program_header =? PT_LOAD)
      then WriteMaps_loop w fd rest file_mappings
      else
        let range := segment_range program_header in
        let it := file_mappings !! range in
        let offset := match it with Some info => FileInfo.offset info | None => 0 end in
        let path := match it with Some info => FileInfo.path info | None => [] end in
        let '(len, buf) :=
          snprintf maps_kBufSize
                   (maps_format range (p_flags program_header) offset path) in
        if (len <? 0) || (len >? maps_kBufSize) then (false, w)
        else
          match WriteFully w fd (take (Z.to_nat len) buf) with
          | None => (false, w)
          | Some (w, fd) => WriteMaps_loop w fd rest file_mappings
          end
  end.

(** [CoredumpWriter::WriteMaps]. *)
Definition WriteMaps (w : World) (program_headers : list Phdr)
    (file_mappings : FileMappings) (output_path : string) : bool * World :=
  match open_excl w output_path with
  | None => (false, w)
  | Some (w, fd) => WriteMaps_loop w fd program_headers file_mappings
  end.

(** ** WriteCoredump *)

(** The members of [CoredumpWriter] that are set by the constructor. *)
Record CoredumpWriter := mkCoredumpWriter {
  fd_src_ : Source;
  coredump_filename_ : string;
  proc_files_dir_ : string
}.

(** The places where a run gives up.  Each is a [return -1] of the source;
    the names follow the message logged there. *)
Inductive Failure :=
| FailedToOpen              (* "Failed to open: ..." in WriteCoredump *)
| FailedToReadUntilNote     (* header, program headers or NOTE not read *)
| FailedToGetFileMappings   (* NT_FILE missing or invalid *)
| FailedStatvfs             (* "statvfs() failed" *)
| CoredumpTooLarge          (* "Coredump too large: ..." *)
| FailedToWriteProcFiles    (* WriteAuxv or WriteMaps returned false *)
| FailedToWriteElfHeader    (* "Failed to write ELF header." *)
| FailedToWriteProgramHeader (i : nat) (* "Failed to write program header" *)
| FailedToWriteNote         (* "Failed to write NOTE." *)
| FailedToSeekSegment (i : nat)   (* "Failed to seek segment" *)
| FailedToWriteSegment (i : nat)  (* "Failed to write segment" *)
| UndefinedBehaviour.       (* FilterSegments on an empty vector *)

(** How a run ends: it gives up, it returns the size, or the process is
    terminated during it. *)
Inductive Status :=
| Failed (why : Failure)
| Written (expected_coredump_size : Z)
| Aborted.

(** The [ssize_t] that the source returns, if it returns. *)
Definition ssize_of (st : Status) : option Z :=
  match st with
  | Failed _ => Some (-1)
  | Written expected_coredump_size => Some (to_long expected_coredump_size)
  | Aborted => None
  end.

(** [coredump_size_limit_]:
    [std::min(static_cast<size_t>(free_disk_space / 20), kMaxCoredumpSize)],
    for a free space that is not negative. *)
Definition coredump_size_limit (free_disk_space : Z) : Z :=
  Z.min (to_size_t (free_disk_space / 20)) kMaxCoredumpSize.

(** [expected_coredump_size_]: offset plus file size of
    [program_headers_filtered.back()]. *)
Definition expected_coredump_size (program_headers_filtered : list Phdr) : Z :=
  match last program_headers_filtered with
  | Some back => to_size_t (p_offset back + p_filesz back)
  | None => 0
  end.

(** The loop "Write program headers", from index [i] on. *)
Fixpoint write_program_headers (w : World) (fd_dest : OutFd) (e_phentsize : Z)
    (i : nat) (program_headers_filtered : list Phdr)
  : option Failure * World * OutFd :=
  match program_headers_filtered with
  | [] => (None, w, fd_dest)
  | program_header :: rest =>
      let offset := to_size_t (sizeof_Ehdr + Z.of_nat i * e_phentsize) in
      match Seek (env w) fd_dest offset with
      | (false, fd_dest) => (Some (FailedToWriteProgramHeader i), w, fd_dest)
      | (true, fd_dest) =>
          match WriteFully w fd_dest (encode_Phdr program_header) with
          | None => (Some (FailedToWriteProgramHeader i), w, fd_dest)
          | Some (w, fd_dest) =>
              write_program_headers w fd_dest e_phentsize (S i) rest
          end
      end
  end.

(** The loop "Read all remaining segments and write some of them", from
    index [i] on; [segments] pairs the filtered entry of each index with the
    original one. *)
Fixpoint write_segments (reader : FdReader) (w : World) (fd_dest : OutFd)
    (i : nat) (segments : list (Phdr * Phdr))
  : option Failure * FdReader * World * OutFd :=
  match segments with
  | [] => (None, reader, w, fd_dest)
  | (program_header, program_header_original) :: rest =>
      if p_filesz program_header >? 0 then
        match FdReader_Seek reader (p_offset program_header_original) with
        | (false, reader) => (Some (FailedToSeekSegment i), reader, w, fd_dest)
        | (true, reader) =>
            match Seek (env w) fd_dest (p_offset program_header) with
            | (false, fd_dest) =>
                (Some (FailedToWriteSegment i), reader, w, fd_dest)
            | (true, fd_dest) =>
                match FdReader_CopyTo reader (Some (w, fd_dest))
                                      (p_filesz program_header) with
                | (true, reader, Some (w, fd_dest)) =>
                    write_segments reader w fd_dest (S i) rest
                | (_, reader, Some (w, fd_dest)) =>
                    (Some (FailedToWriteSegment i), reader, w, fd_dest)
                | (_, reader, None) =>
                    (Some (FailedToWriteSegment i), reader, w, fd_dest)
                end
            end
        end
      else write_segments reader w fd_dest (S i) rest
  end.

(** [CoredumpWriter::WriteCoredumpToFD]. *)
Definition WriteCoredumpToFD (cw : CoredumpWriter) (w : World) (fd_dest : OutFd)
  : Status * World :=
  let reader := mkFdReader (fd_src_ cw) 0 in
  match ReadUntilNote (env w) reader with
  | Aborts => (Aborted, w)
  | Returns (None, _) => (Failed FailedToReadUntilNote, w)
  | Returns (Some (elf_header, program_headers, note_buf), reader) =>
  (* Get a set of address ranges occupied by mapped files from NOTE. *)
  match GetFileMappings note_buf ∅ with
  | None => (Failed FailedToGetFileMappings, w)
  | Some file_mappings =>
  (* Filter out segments backed by mapped files. *)
  match FilterSegments program_headers file_mappings with
  | None => (Failed UndefinedBehaviour, w)
  | Some program_headers_filtered =>
  (* Calculate the coredump size limit. *)
  let free_disk_space := GetFreeDiskSpace w (coredump_filename_ cw) in
  if free_disk_space <? 0 then (Failed FailedStatvfs, w)
  else
  let coredump_size_limit_ := coredump_size_limit free_disk_space in
  (* Calculate the output file size. *)
  let expected_coredump_size_ := expected_coredump_size program_headers_filtered in
  if expected_coredump_size_ >? coredump_size_limit_
  then (Failed CoredumpTooLarge, w)
  else
  (* Write proc files. *)
  match WriteAuxv w note_buf (proc_files_dir_ cw +:+ "/auxv") with
  | (false, w) => (Failed FailedToWriteProcFiles, w)
  | (true, w) =>
  match WriteMaps w program_headers file_mappings (proc_files_dir_ cw +:+ "/maps") with
  | (false, w) => (Failed FailedToWriteProcFiles, w)
  | (true, w) =>
  (* Write ELF header. *)
  match WriteFully w fd_dest elf_header with
  | None => (Failed FailedToWriteElfHeader, w)
  | Some (w, fd_dest) =>
  (* Write program headers. *)
  match write_program_headers w fd_dest (e_phentsize elf_header) 0
                              program_headers_filtered with
  | (Some why, w, _) => (Failed why, w)
  | (None, w, fd_dest) =>
  (* Write NOTE segment, at the offset of element 0 of the filtered headers
     (the vector is not empty here). *)
  match Seek (env w) fd_dest
             (p_offset (default (mkPhdr 0 0 0 0 0 0 0 0)
                                (head program_headers_filtered))) with
  | (false, _) => (Failed FailedToWriteNote, w)
  | (true, fd_dest) =>
  match WriteFully w fd_dest note_buf with
  | None => (Failed FailedToWriteNote, w)
  | Some (w, fd_dest) =>
  (* Read all remaining segments and write some of them. *)
  match write_segments reader w fd_dest 1
          (combine (tail program_headers_filtered) (tail program_headers)) with
  | (Some why, _, w, _) => (Failed why, w)
  | (None, _, w, _) => (Written expected_coredump_size_, w)
  end end end end end end end end end end.

(** [CoredumpWriter::WriteCoredump]: the destination is created first, the
    run writes through the descriptor, and a run that returns -1 removes the
    file.  When the process is terminated during the run, nothing follows. *)
Definition WriteCoredump (cw : CoredumpWriter) (w : World) : Status * World :=
  match open_excl w (coredump_filename_ cw) with
  | None => (Failed FailedToOpen, w)
  | Some (w, fd_dest) =>
      let '(result, w) := WriteCoredumpToFD cw w fd_dest in
      match ssize_of result with
      | Some rv =>
          if rv =? -1
          then (result, unlink w (coredump_filename_ cw))
          else (result, w)
      | None => (result, w)
      end
  end.

End Platform.

(** ** Proof automation *)

(** Turns a goal that equates a comparison with a truth value into the
    corresponding order statement. *)
Ltac cmp_to_prop :=
  match goal with
  | |- (_ <=? _) = true => apply Z.leb_le
  | |- (_ <=? _) = false => apply Z.leb_gt
  | |- (_ <? _) = true => apply Z.ltb_lt
  | |- (_ <? _) = false => apply Z.ltb_ge
  | |- (_ =? _) = true => apply Z.eqb_eq
  | |- (_ =? _) = false => apply Z.eqb_neq
  | |- (_ >? _) = _ => rewrite Z.gtb_ltb; cmp_to_prop
  | |- (_ =? _)%nat = true => apply Nat.eqb_eq
  | |- (_ =? _)%nat = false => apply Nat.eqb_neq
  end.

(** [lia], also for such goals, in either orientation. *)
Ltac blia := first [lia | cmp_to_prop; lia | symmetry; cmp_to_prop; lia].

(** Decides a closed arithmetic statement by evaluation. *)
Ltac by_compute := vm_compute; repeat split; first [reflexivity | discriminate].

(** ** Vocabulary of the properties *)

Section Vocabulary.

Variable kClass : ElfClass.

(** The key of a segment in the index of the mapped files,
    AddressRange(vaddr, vaddr + memsz): the start address and the end
    address, start plus memory size.  The sum is taken in the address type,
    and the two members are read as the signed words that the keys of the
    index are. *)
Definition AddressRange (ph : Phdr) : Z * Z :=
  (to_long kClass (p_vaddr ph),
   to_long kClass (to_size_t kClass (p_vaddr ph + p_memsz ph))).

(** Whether the segment of [ph] is to be dropped: its type is LOAD and its
    exact range is a key of the mappings. *)
Definition file_backed (fm : FileMappings) (ph : Phdr) : Prop :=
  p_type ph = PT_LOAD /\ is_Some (fm !! AddressRange ph).

(** The fields of a program header hold values of their unsigned types. *)
Definition Phdr_ok (ph : Phdr) : Prop :=
  0 <= p_type ph < 2 ^ 32 /\ 0 <= p_flags ph < 2 ^ 32
  /\ 0 <= p_offset ph < wmod kClass /\ 0 <= p_vaddr ph < wmod kClass
  /\ 0 <= p_paddr ph < wmod kClass /\ 0 <= p_filesz ph < wmod kClass
  /\ 0 <= p_memsz ph < wmod kClass /\ 0 <= p_align ph < wmod kClass.

(** [off] rounded up to the next multiple of [align], in unbounded
    arithmetic. *)
Definition align_up (off align : Z) : Z :=
  if (align =? 0) || (off mod align =? 0) then off
  else off + (align - off mod align).

(** No offset that [FilterSegments] recomputes leaves the range of the
    offset type: the sum of the previous offset and file size, rounded up to
    the alignment, is below [wmod] at every index. *)
Fixpoint offsets_fit (fm : FileMappings) (prev : Phdr) (phs : list Phdr)
  : bool :=
  match phs with
  | [] => true
  | ph :: rest =>
      (align_up (p_offset prev + p_filesz prev) (p_align ph) <? wmod kClass)
      && offsets_fit fm (filter_entry kClass fm prev ph) rest
  end.

End Vocabulary.

Section NoteVocabulary.

Variable kClass : ElfClass.

(** The [k]-th [long] of the description of [note] as [GetFileMappings]
    reads it. *)
Definition note_long (note : list byte) (k : Z) : Z :=
  GetValueFromNote (long_t kClass) note (long_at kClass k) kInvalidValue.

(** [file_count], the first [long] of the description. *)
Definition note_file_count (note : list byte) : Z := note_long note 0.

(** The access to the [k]-th [long] of the description is out of range. *)
Definition long_out_of_range (note : list byte) (k : Z) : Prop :=
  GetData (GetDescription note) (long_at kClass k) (wordbytes kClass) = None.

(** The [k]-th [long] of the description lies within the buffer and the
    value stored there is -1. *)
Definition long_stored_minus_one (note : list byte) (k : Z) : Prop :=
  exists bs,
    GetData (GetDescription note) (long_at kClass k) (wordbytes kClass) = Some bs
    /\ load (long_t kClass) bs = -1.

(** The words that [GetFileMappings] reads when nothing stops it: the file
    count, the page size, and the three words of every entry. *)
Definition file_note_word (note : list byte) (k : Z) : Prop :=
  k = 0 \/ k = 1 \/ 2 <= k < 2 + 3 * note_file_count note.

End NoteVocabulary.

Section MapsVocabulary.

Variable kClass : ElfClass.

(** The offset field of the [maps] line of [ph]: the byte offset found for
    the range of [ph], 0 when the range is not a key. *)
Definition maps_offset (fm : FileMappings) (ph : Phdr) : Z :=
  match fm !! AddressRange kClass ph with
  | Some info => FileInfo.offset info
  | None => 0
  end.

(** The path field of the [maps] line of [ph]: the path found for the range
    of [ph], empty when the range is not a key. *)
Definition maps_path (fm : FileMappings) (ph : Phdr) : list byte :=
  match fm !! AddressRange kClass ph with
  | Some info => FileInfo.path info
  | None => []
  end.

(** The line that the format of [WriteMaps] produces for a LOAD entry. *)
Definition maps_line (fm : FileMappings) (ph : Phdr) : list byte :=
  maps_format kClass (segment_range kClass ph) (p_flags ph)
              (maps_offset fm ph) (maps_path fm ph).

(** The length that makes [snprintf] fill the buffer of [WriteMaps] to its
    last byte. *)
Definition fills_buffer (line : list byte) : Prop :=
  Z.of_nat (length line) = maps_kBufSize.

(** *** The text of a line, as a reader of the file sees it *)

(** The value of a hexadecimal digit in lower case. *)
Definition hex_digit_value (c : byte) : option Z :=
  match c with
  | "0"%byte => Some 0 | "1"%byte => Some 1 | "2"%byte => Some 2
  | "3"%byte => Some 3 | "4"%byte => Some 4 | "5"%byte => Some 5
  | "6"%byte => Some 6 | "7"%byte => Some 7 | "8"%byte => Some 8
  | "9"%byte => Some 9 | "a"%byte => Some 10 | "b"%byte => Some 11
  | "c"%byte => Some 12 | "d"%byte => Some 13 | "e"%byte => Some 14
  | "f"%byte => Some 15
  | _ => None
  end.

(** The number that a sequence of hexadecimal digits denotes, most
    significant digit first, after the digits that denote [acc]. *)
Fixpoint hex_value_from (acc : Z) (s : list byte) : option Z :=
  match s with
  | [] => Some acc
  | c :: s' =>
      match hex_digit_value c with
      | Some d => hex_value_from (16 * acc + d) s'
      | None => None
      end
  end.

Definition hex_value (s : list byte) : option Z := hex_value_from 0 s.

(** A field that shows the number [v] in hexadecimal, padded with zeros to
    eight digits: its digits denote [v], there are at least eight of them,
    and more than eight only when the first is not a zero. *)
Definition hex_field (s : list byte) (v : Z) : Prop :=
  hex_value s = Some v
  /\ (8 <= length s)%nat
  /\ ((8 < length s)%nat -> hd x00 s <> "0"%byte).

(** The permission characters of a line: [r], [w] and [x] for the bits 2, 1
    and 0 of the flags that are set, [-] for the others, and the constant
    [p]. *)
Definition perm_chars (flags : Z) : list byte :=
  [ if Z.testbit flags 2 then "r"%byte else "-"%byte;
    if Z.testbit flags 1 then "w"%byte else "-"%byte;
    if Z.testbit flags 0 then "x"%byte else "-"%byte;
    "p"%byte ].

(** [shown] is what is printed of the string [s]: the bytes before the
    first zero byte of [s], all of [s] when it holds none. *)
Definition shown_of (s shown : list byte) : Prop :=
  (x00 ∉ shown) /\ (s = shown \/ exists rest, s = shown ++ x00 :: rest).

(** [text] is the text of the line of the LOAD entry [ph], without the
    newline byte that ends it: start and end address and the offset found
    for the range, as unsigned words in hexadecimal fields, the permission
    characters, the device 00:00 and the inode 0, and what is printed of the
    path found for the range. *)
Definition is_maps_line (fm : FileMappings) (ph : Phdr) (text : list byte)
  : Prop :=
  exists start_field end_field offset_field path_field,
    text = start_field ++ list_byte_of_string "-" ++ end_field
           ++ list_byte_of_string " " ++ perm_chars (p_flags ph)
           ++ list_byte_of_string " " ++ offset_field
           ++ list_byte_of_string " 00:00 0 " ++ path_field
    /\ hex_field start_field (to_size_t kClass (p_vaddr ph))
    /\ hex_field end_field (to_size_t kClass (p_vaddr ph + p_memsz ph))
    /\ hex_field offset_field (to_size_t kClass (maps_offset fm ph))
    /\ shown_of (maps_path fm ph) path_field.

(** The file that holds the given texts as its lines, each ended by a
    newline byte. *)
Definition unlines (texts : list (list byte)) : list byte :=
  concat (map (fun text => text ++ [x0a]) texts).

(** The number of newline bytes of a file. *)
Definition newline_count (content : list byte) : nat :=
  count_occ Byte.byte_eq_dec content x0a.

(** The LOAD entries of a list, in the order of the list. *)
Definition load_entries (phs : list Phdr) : list Phdr :=
  filter (fun ph => p_type ph = PT_LOAD) phs.

(** The file, line by line, as the loop of [WriteMaps] produces it: the
    lines of the LOAD entries of the list, in the order of the list. *)
Fixpoint maps_text (fm : FileMappings) (phs : list Phdr) : list byte :=
  match phs with
  | [] => []
  | ph :: rest =>
      if p_type ph =? PT_LOAD then maps_line fm ph ++ maps_text fm rest
      else maps_text fm rest
  end.

End MapsVocabulary.

Section RunVocabulary.

Variable kClass : ElfClass.

(** Where an entry ends in the file: offset plus file size. *)
Definition segment_end (ph : Phdr) : Z := p_offset ph + p_filesz ph.

(** The counter of the reader once [ReadUntilNote] has read the NOTE segment
    described by [first]: the end of that segment. *)
Definition consumed_after_note (first : Phdr) : Z :=
  to_size_t kClass (segment_end first).

(** The segments that are kept (non-zero filtered file size) lie in the input
    in the order of their indices: the original offset of each is not below
    the count of bytes consumed before it, which is [consumed] at first and
    then the end of the original bytes of the segment copied last.
    [segments] pairs each filtered entry with the original one, as
    [write_segments] takes them. *)
Fixpoint forward_order (consumed : Z) (segments : list (Phdr * Phdr)) : bool :=
  match segments with
  | [] => true
  | (ph, original) :: rest =>
      if p_filesz ph >? 0
      then (consumed <=? p_offset original)
           && forward_order (to_size_t kClass (p_offset original + p_filesz ph)) rest
      else forward_order consumed rest
  end.

(** The entries of [phs] are laid out one after the other behind [prev]: each
    starts at or after the end of the one before it, and no file size is
    negative. *)
Fixpoint laid_out (prev : Phdr) (phs : list Phdr) : Prop :=
  match phs with
  | [] => True
  | ph :: rest =>
      segment_end prev <= p_offset ph /\ 0 <= p_filesz ph /\ laid_out ph rest
  end.

(** The recomputed layout stays within the range of the offset type: no
    offset wraps, and neither does the end of the last entry. *)
Definition layout_fits (fm : FileMappings) (first : Phdr) (rest : list Phdr)
  : Prop :=
  offsets_fit kClass fm first rest = true
  /\ segment_end (List.last (filter_from kClass fm first rest) first) < wmod kClass.

(** The input is shorter than the range of [size_t], so that the counter of
    the reader does not wrap. *)
Definition input_fits (cw : CoredumpWriter) : Prop :=
  Z.of_nat (length (pending (fd_src_ cw))) < wmod kClass.

End RunVocabulary.

(** The world [w'] differs from [w] at most in the content of the file
    [path], which still exists if it did: same environment, same log, every
    other file as before. *)
Definition only_writes (path : string) (w w' : World) : Prop :=
  env w' = env w /\ events w' = events w
  /\ (forall p, p <> path -> files w' !! p = files w !! p)
  /\ (is_Some (files w !! path) -> is_Some (files w' !! path)).

(** What a call that creates one file, [WriteAuxv] or [WriteMaps], can have
    done: nothing, or created [path], which did not exist, and written to no
    other file. *)
Definition created_one (path : string) (w w' : World) : Prop :=
  files w !! path = None
  /\ env w' = env w
  /\ events w' = events w ++ [Created path]
  /\ (forall p, p <> path -> files w' !! p = files w !! p)
  /\ is_Some (files w' !! path).

(** Every file of [w] other than [dest] is in [w'] with the same content, and
    [dest] still exists if it did. *)
Definition keeps_files (dest : string) (w w' : World) : Prop :=
  (is_Some (files w !! dest) -> is_Some (files w' !! dest))
  /\ forall p c, p <> dest -> files w !! p = Some c -> files w' !! p = Some c.

Section RunLogVocabulary.

Variable kClass : ElfClass.

(** What [WriteMaps] writes for a LOAD entry: the line, or, for a line of
    exactly as many bytes as the buffer has, its first 1023 bytes and the
    terminating zero that [snprintf] puts in the last byte of the buffer. *)
Definition maps_written_line (fm : FileMappings) (ph : Phdr) : list byte :=
  let line := maps_line kClass fm ph in
  if Z.of_nat (length line) <? maps_kBufSize then line
  else take (Z.to_nat (maps_kBufSize - 1)) line ++ [x00].

Fixpoint maps_written (fm : FileMappings) (phs : list Phdr) : list byte :=
  match phs with
  | [] => []
  | ph :: rest =>
      if p_type ph =? PT_LOAD then maps_written_line fm ph ++ maps_written fm rest
      else maps_written fm rest
  end.



End RunLogVocabulary.

Section NoteSearchVocabulary.

Variable kClass : ElfClass.

(** The note reached from [note] by [k] steps of [GetNextNote]. *)
Fixpoint nth_note (k : nat) (note : list byte) : list byte :=
  match k with
  | O => note
  | S k' => nth_note k' (GetNextNote note)
  end.

(** The range, start and end, that the [i]-th entry of an NT_FILE note
    lists. *)
Definition note_range (note : list byte) (i : Z) : Z * Z :=
  (note_long kClass note (2 + 3 * i), note_long kClass note (2 + 3 * i + 1)).

(** The byte offset that [GetFileMappings] computes for the [i]-th entry:
    the offset in pages that the entry lists, times the page size. *)
Definition note_offset (note : list byte) (i : Z) : Z :=
  to_long kClass (note_long kClass note (2 + 3 * i + 2) * note_long kClass note 1).

End NoteSearchVocabulary.

(** One mapped file as an NT_FILE note lists it: start and end address, the
    offset in pages, and the name. *)
Record FileEntry := mkFileEntry {
  fe_start : Z;
  fe_end : Z;
  fe_pgoff : Z;
  fe_name : list byte
}.

Section FileNoteFormat.

Variable kClass : ElfClass.

(** A [long] in memory. *)
Definition encode_long (z : Z) : list byte :=
  le_encode (Z.to_nat (wordbytes kClass)) z.

Definition encode_entry (e : FileEntry) : list byte :=
  encode_long (fe_start e) ++ encode_long (fe_end e) ++ encode_long (fe_pgoff e).

Definition encode_name (e : FileEntry) : list byte := fe_name e ++ [x00].

(** The description of an NT_FILE note in the format that the comment in
    [GetFileMappings] gives: the number of mapped files, the page size, the
    three words of every file, then the names, each terminated by a zero
    byte. *)
Definition NT_FILE_desc (page_size : Z) (entries : list FileEntry) : list byte :=
  encode_long (Z.of_nat (length entries)) ++ encode_long page_size
  ++ concat (map encode_entry entries) ++ concat (map encode_name entries).

(** A value of the type [long]. *)
Definition is_long (z : Z) : Prop := - (wmod kClass / 2) <= z < wmod kClass / 2.

(** An entry that the decoder takes for what it is: its words are [long]s
    other than -1, and its name holds no zero byte. *)
Definition FileEntry_ok (e : FileEntry) : Prop :=
  (is_long (fe_start e) /\ fe_start e <> -1)
  /\ (is_long (fe_end e) /\ fe_end e <> -1)
  /\ (is_long (fe_pgoff e) /\ fe_pgoff e <> -1)
  /\ Forall (fun c => c <> x00) (fe_name e).

Definition fe_range (e : FileEntry) : Z * Z := (fe_start e, fe_end e).

(** What the map holds for an entry: the offset in bytes and the name. *)
Definition fe_info (page_size : Z) (e : FileEntry) : FileInfo.t :=
  FileInfo.mk (to_long kClass (fe_pgoff e * page_size)) (fe_name e).

(** One round of the loop of [GetFileMappings] on the map: the entry of the
    range, created empty if absent, gets the offset in bytes and has the name
    appended to its path. *)
Definition add_entry (page_size : Z) (m : FileMappings) (e : FileEntry)
  : FileMappings :=
  <[fe_range e :=
      FileInfo.mk (to_long kClass (fe_pgoff e * page_size))
                  (FileInfo.path (default FileInfo.empty (m !! fe_range e))
                   ++ fe_name e)]> m.

(** The names of the entries that list [range], in the order of the
    entries, one after the other. *)
Definition names_of (range : Z * Z) (entries : list FileEntry) : list byte :=
  concat (map fe_name (filter (fun e => fe_range e = range) entries)).

End FileNoteFormat.


(** ** Sample inputs

    Core dumps of the 64-bit class, built byte by byte, on which the
    functions above are evaluated. *)
Module Sample.

(** An [Elf64_Ehdr] of a core file with [phnum] program headers that
    follow the header. *)
Definition Ehdr64 (phnum : Z) : list byte :=
  ELFMAG ++ [x02; x01; x01; x00] ++ replicate 8 x00
  ++ le_encode 2 ET_CORE ++ le_encode 2 183 ++ le_encode 4 EV_CURRENT
  ++ le_encode 8 0 ++ le_encode 8 64 ++ le_encode 8 0 ++ le_encode 4 0
  ++ le_encode 2 64 ++ le_encode 2 56 ++ le_encode 2 phnum
  ++ le_encode 2 0 ++ le_encode 2 0 ++ le_encode 2 0.

Definition pad4 (bs : list byte) : list byte :=
  bs ++ replicate (Z.to_nat ((- Z.of_nat (length bs)) mod 4)) x00.

(** A note named CORE. *)
Definition mk_note (type : Z) (desc : list byte) : list byte :=
  le_encode 4 5 ++ le_encode 4 (Z.of_nat (length desc)) ++ le_encode 4 type
  ++ pad4 (list_byte_of_string "CORE" ++ [x00]) ++ pad4 desc.

(** The description of an NT_FILE note: count, page size, the triples
    (start, end, offset in pages), then the names. *)
Definition file_desc (count page_size : Z) (triples : list (Z * Z * Z))
    (names : list string) : list byte :=
  le_encode 8 count ++ le_encode 8 page_size
  ++ concat (map (fun t => le_encode 8 (t.1.1) ++ le_encode 8 (t.1.2)
                           ++ le_encode 8 (t.2)) triples)
  ++ concat (map (fun s => list_byte_of_string s ++ [x00]) names).

Definition auxv_note : list byte := mk_note NT_AUXV (replicate 16 x01).

(** A core file: header, program headers, NOTE segment, the other
    segments. *)
Definition core (phs : list Phdr) (notes segments : list byte) : list byte :=
  Ehdr64 (Z.of_nat (length phs)) ++ concat (map (encode_Phdr ELFCLASS64) phs)
  ++ notes ++ segments.

(** An environment with [f_bavail] free blocks of 4096 bytes, in which
    files can be created, written and positioned, and memory is there. *)
Definition env_free (f_bavail : Z) : Env :=
  mkEnv (fun _ => Some (f_bavail, 4096)) (fun _ => true) (fun _ _ _ => true)
        (fun _ _ => true) (fun _ => true).

Definition world (f_bavail : Z) : World := mkWorld (env_free f_bavail) ∅ [].



(** An environment whose file system accepts the offsets below [limit]. *)
Definition env_max_offset (limit : Z) : Env :=
  mkEnv (fun _ => Some (1000000, 4096)) (fun _ => true) (fun _ _ _ => true)
        (fun _ offset => offset <? limit) (fun _ => true).

(** The world once [WriteCoredump] has created the destination, and the
    descriptor it passes on. *)
Definition opened (f_bavail : Z) : World :=
  mkWorld (env_free f_bavail) {["/data/core"%string := []]}
          [Created "/data/core"].

Definition fd_dest : OutFd := mkOutFd "/data/core" 0.

Definition writer (input : list byte) : CoredumpWriter :=
  mkCoredumpWriter (mkSource input false) "/data/core" "/data/proc".

(** One mapped file, [/bin/x] at 0x400000-0x401000, file offset 0. *)
Definition notes : list byte :=
  auxv_note
  ++ mk_note NT_FILE (file_desc 1 4096 [(0x400000, 0x401000, 0)] ["/bin/x"%string]).

(** NOTE, a LOAD backed by [/bin/x], an anonymous LOAD. *)
Definition headers : list Phdr :=
  [ mkPhdr PT_NOTE 0 232 0 0 104 0 0;
    mkPhdr PT_LOAD 5 336 0x400000 0 16 0x1000 16;
    mkPhdr PT_LOAD 6 352 0x7000000 0 32 0x1000 16 ].

Definition input : list byte :=
  core headers notes (replicate 16 x02 ++ replicate 32 x03).

(** The same file mapped twice at the same range, under the names [a] and
    [b], at page offsets 1 and 2. *)
Definition duplicate_notes : list byte :=
  auxv_note
  ++ mk_note NT_FILE (file_desc 2 4096 [(0x1000, 0x2000, 1); (0x1000, 0x2000, 2)]
                                ["a"%string; "b"%string]).

(** An NT_FILE note that ends after the triples: the names are missing. *)
Definition nameless_notes : list byte :=
  auxv_note ++ mk_note NT_FILE (file_desc 1 4096 [(0x400000, 0x401000, 3)] []).

(** An NT_FILE note that announces two files and holds one triple. *)
Definition short_notes : list byte :=
  auxv_note ++ mk_note NT_FILE (file_desc 2 4096 [(0x400000, 0x401000, 3)] []).

(** An NT_FILE note whose page-size word stores -1. *)
Definition minus_one_notes : list byte :=
  auxv_note
  ++ mk_note NT_FILE (file_desc 1 (-1) [(0x400000, 0x401000, 0)] ["/bin/x"%string]).

Definition minus_one_input : list byte :=
  core headers minus_one_notes (replicate 16 x02 ++ replicate 32 x03).

(** NOTE followed by a single LOAD, backed by [/bin/x] and aligned to a
    page. *)
Definition backed_headers : list Phdr :=
  [ mkPhdr PT_NOTE 0 176 0 0 104 0 0;
    mkPhdr PT_LOAD 5 4096 0x400000 0 16 0x1000 4096 ].

Definition backed_input : list byte :=
  core backed_headers notes (replicate 3816 x00 ++ replicate 16 x02).

(** Two anonymous LOADs whose contents are stored in the reverse order of
    their headers. *)
Definition backward_headers : list Phdr :=
  [ mkPhdr PT_NOTE 0 232 0 0 104 0 0;
    mkPhdr PT_LOAD 6 368 0x7000000 0 16 0x1000 16;
    mkPhdr PT_LOAD 6 336 0x8000000 0 32 0x1000 16 ].

Definition backward_input : list byte :=
  core backward_headers notes (replicate 32 x03 ++ replicate 16 x02).

(** The mappings that [notes] describes. *)
Definition mappings : FileMappings :=
  {[ (0x400000, 0x401000) := FileInfo.mk 0 (list_byte_of_string "/bin/x") ]}.

(** A header list whose second offset wraps around, and a NOTE entry whose
    offset is not a multiple of its alignment. *)
Definition wrapping_headers : list Phdr :=
  [ mkPhdr PT_NOTE 0 (2 ^ 64 - 16) 0 0 32 0 0;
    mkPhdr PT_LOAD 6 0 0x7000000 0 0 0x1000 0 ].

Definition misaligned_note : list Phdr :=
  [ mkPhdr PT_NOTE 0 234 0 0 104 0 4 ].

(** NOTE, a LOAD backed by [/bin/x] whose alignment sends it to three
    quarters of the offset range, and an anonymous LOAD whose alignment sends
    it from there to the end of the range: its offset wraps around to 0. *)
Definition wrapping_layout : list Phdr :=
  [ mkPhdr PT_NOTE 0 232 0 0 104 0 0;
    mkPhdr PT_LOAD 5 336 0x400000 0 16 0x1000 (3 * 2 ^ 62);
    mkPhdr PT_LOAD 6 336 0x7000000 0 16 0x1000 (2 ^ 63) ].

Definition wrapping_input : list byte :=
  core wrapping_layout notes (replicate 16 x02).



End Sample.

(** ** A sample note with two mapped files *)
Module SampleFiles.

(** [/bin/x] at 0x400000-0x401000 from the start of the file, and [/lib/y]
    at 0x7000-0x9000 from page 3. *)
Definition entries : list FileEntry :=
  [ mkFileEntry 0x400000 0x401000 0 (list_byte_of_string "/bin/x");
    mkFileEntry 0x7000 0x9000 3 (list_byte_of_string "/lib/y") ].

Definition notes : list byte :=
  Sample.auxv_note
  ++ Sample.mk_note NT_FILE (NT_FILE_desc ELFCLASS64 4096 entries).

(** A file whose name holds a newline byte, at 0x400000-0x401000. *)
Definition newline_name : list byte :=
  list_byte_of_string "/a" ++ [x0a] ++ list_byte_of_string "b".

Definition newline_notes : list byte :=
  Sample.auxv_note
  ++ Sample.mk_note NT_FILE
       (NT_FILE_desc ELFCLASS64 4096 [mkFileEntry 0x400000 0x401000 0 newline_name]).

Definition newline_mappings : FileMappings :=
  {[ (0x400000, 0x401000) := FileInfo.mk 0 newline_name ]}.

(** A file whose name has 983 bytes, which gives a line of 1024 bytes. *)
Definition long_name : list byte := replicate 983 "a"%byte.

Definition long_notes : list byte :=
  Sample.auxv_note
  ++ Sample.mk_note NT_FILE
       (NT_FILE_desc ELFCLASS64 4096 [mkFileEntry 0x400000 0x401000 0 long_name]).

Definition long_mappings : FileMappings :=
  {[ (0x400000, 0x401000) := FileInfo.mk 0 long_name ]}.

(** Mappings whose path holds a zero byte. *)
Definition zero_byte_mappings : FileMappings :=
  {[ (0x400000, 0x401000)
     := FileInfo.mk 0 (list_byte_of_string "/a" ++ [x00] ++ list_byte_of_string "b") ]}.

End SampleFiles.

(** * Properties *)

(** ** Words, bytes and records *)

Section BasicFacts.

Variable kClass : ElfClass.

Lemma wmod_pos : 0 < wmod kClass.
Proof. unfold wmod, wordbytes. destruct kClass; lia. Qed.

Lemma wmod_half :
  kMaxCoredumpSize < wmod kClass / 2 /\ 2 * (wmod kClass / 2) = wmod kClass.
Proof. unfold wmod, wordbytes. destruct kClass; split; vm_compute; reflexivity. Qed.

Lemma kMaxCoredumpSize_value : kMaxCoredumpSize = 268435456.
Proof. reflexivity. Qed.

Lemma wordbytes_small : 0 < wordbytes kClass < wmod kClass.
Proof. unfold wmod, wordbytes. destruct kClass; lia. Qed.

Lemma to_size_t_range z : 0 <= to_size_t kClass z < wmod kClass.
Proof. unfold to_size_t. apply Z.mod_pos_bound, wmod_pos. Qed.

Lemma to_size_t_small z : 0 <= z < wmod kClass -> to_size_t kClass z = z.
Proof. intros H. unfold to_size_t. by apply Z.mod_small. Qed.

Lemma to_size_t_le z : 0 <= z -> to_size_t kClass z <= z.
Proof. intros H. unfold to_size_t. apply Z.mod_le; [done | apply wmod_pos]. Qed.

Lemma to_size_t_add_l a b :
  to_size_t kClass (to_size_t kClass a + b) = to_size_t kClass (a + b).
Proof. unfold to_size_t. apply Z.add_mod_idemp_l. pose proof wmod_pos. lia. Qed.

(** A value below half the modulus is its own signed reading. *)
Lemma to_long_small z : 0 <= z < wmod kClass / 2 -> to_long kClass z = z.
Proof.
  intros H. unfold to_long. pose proof wmod_half.
  rewrite Z.mod_small by lia. lia.
Qed.

Lemma le_decode_range bs : 0 <= le_decode bs < 256 ^ Z.of_nat (length bs).
Proof.
  induction bs as [|b bs IH]; cbn [le_decode length]; [lia|].
  rewrite Nat2Z.inj_succ, Z.pow_succ_r by lia.
  pose proof (Byte.to_N_bounded b). lia.
Qed.

Lemma field_range bs off size :
  0 <= size -> 0 <= field bs off size < 2 ^ (8 * size).
Proof.
  intros Hs. unfold field.
  pose proof (le_decode_range (take (Z.to_nat size) (drop (Z.to_nat off) bs))) as H.
  rewrite length_take in H.
  assert (256 ^ Z.of_nat (Z.to_nat size `min` length (drop (Z.to_nat off) bs))
          <= 2 ^ (8 * size)).
  { rewrite Z.pow_mul_r by lia. change (2 ^ 8) with 256.
    apply Z.pow_le_mono_r; lia. }
  lia.
Qed.

Lemma decode_Phdr_ok bs : Phdr_ok kClass (decode_Phdr kClass bs).
Proof.
  unfold Phdr_ok, decode_Phdr, wmod, wordbytes.
  destruct kClass; cbn [p_type p_flags p_offset p_vaddr p_paddr p_filesz p_memsz p_align];
    repeat split;
    match goal with
    | |- 0 <= field _ _ ?s => apply (field_range _ _ s); lia
    | |- field _ _ ?s < _ => apply (field_range _ _ s); lia
    end.
Qed.

Lemma decode_Phdrs_ok n bs : Forall (Phdr_ok kClass) (decode_Phdrs kClass n bs).
Proof.
  revert bs. induction n as [|n IH]; intros bs; cbn [decode_Phdrs];
    constructor; [apply decode_Phdr_ok | apply IH].
Qed.

Lemma length_decode_Phdrs n bs : length (decode_Phdrs kClass n bs) = n.
Proof.
  revert bs. induction n as [|n IH]; intros bs; cbn [decode_Phdrs length];
    [done | by rewrite IH].
Qed.

Lemma length_le_encode n z : length (le_encode n z) = n.
Proof. revert z. induction n as [|n IH]; intros z; cbn; [done | by rewrite IH]. Qed.

Lemma length_encode_Phdr ph :
  Z.of_nat (length (encode_Phdr kClass ph)) = sizeof_Phdr kClass.
Proof.
  unfold encode_Phdr, sizeof_Phdr.
  destruct kClass; rewrite !length_app, !length_le_encode; reflexivity.
Qed.

Lemma drop_min {A} (l : list A) m :
  drop (Z.to_nat m) l = drop (Z.to_nat (Z.min m (Z.of_nat (length l)))) l.
Proof.
  destruct (Z.le_gt_cases m (Z.of_nat (length l))).
  - by rewrite Z.min_l.
  - rewrite Z.min_r by lia. rewrite !drop_ge; [done | lia | lia].
Qed.

Lemma take_min {A} (l : list A) m :
  take (Z.to_nat m) l = take (Z.to_nat (Z.min m (Z.of_nat (length l)))) l.
Proof.
  destruct (Z.le_gt_cases m (Z.of_nat (length l))).
  - by rewrite Z.min_l.
  - rewrite Z.min_r by lia. rewrite !take_ge; [done | lia | lia].
Qed.

(** *** Writing into a file *)

Lemma write_at_end (content data : list byte) :
  write_at content (Z.of_nat (length content)) data = content ++ data.
Proof.
  unfold write_at. rewrite Nat2Z.id, firstn_all, Nat.sub_diag.
  rewrite drop_ge by lia. cbn [replicate]. by rewrite app_nil_r.
Qed.

Lemma length_write_at (content data : list byte) pos :
  0 <= pos ->
  Z.of_nat (length (write_at content pos data))
  = Z.max (Z.of_nat (length content)) (pos + Z.of_nat (length data)).
Proof.
  intros Hpos. unfold write_at.
  rewrite !length_app, length_take, length_replicate, length_drop. lia.
Qed.

(** Two writes, the second where the first ended, are one write of the two
    blocks. *)
Lemma write_at_app (content a b : list byte) pos :
  0 <= pos ->
  write_at (write_at content pos a) (pos + Z.of_nat (length a)) b
  = write_at content pos (a ++ b).
Proof.
  intros Hpos. unfold write_at at 1 3.
  set (mid := write_at content pos a).
  assert (Hlen : (Z.to_nat pos + length a <= length mid)%nat).
  { pose proof (length_write_at content a pos Hpos). subst mid. lia. }
  replace (Z.to_nat (pos + Z.of_nat (length a))) with (Z.to_nat pos + length a)%nat by lia.
  replace (Z.to_nat pos + length a - length mid)%nat with 0%nat by lia.
  cbn [replicate app].
  assert (Hpre : take (Z.to_nat pos + length a) mid
                 = take (Z.to_nat pos) content
                   ++ replicate (Z.to_nat pos - length content) x00 ++ a).
  { subst mid. unfold write_at. rewrite !app_assoc.
    apply take_app_length'. rewrite !length_app, length_take, length_replicate. lia. }
  assert (Hpost : drop (Z.to_nat pos + length a + length b) mid
                  = drop (Z.to_nat pos + length (a ++ b)) content).
  { subst mid. unfold write_at. rewrite !app_assoc.
    rewrite drop_app_ge; rewrite !length_app, length_take, length_replicate; [|lia].
    rewrite drop_drop. f_equal. lia. }
  rewrite Hpre, Hpost, <- !app_assoc. reflexivity.
Qed.

End BasicFacts.

(** ** FilterSegments *)

Section FilterSegmentsFacts.

Variable kClass : ElfClass.
Implicit Types (fm : gmap (Z * Z) FileInfo.t) (ph prev first : Phdr)
  (phs rest : list Phdr).

(** The range that the code builds for an entry is its [AddressRange]. *)
Lemma segment_range_AddressRange ph :
  segment_range kClass ph = AddressRange kClass ph.
Proof. reflexivity. Qed.

(** Where neither the addresses nor their sum leave the positive half of the
    address type, the key is the pair of the start address and of the sum of
    start address and memory size. *)
Lemma AddressRange_plain ph :
  0 <= p_vaddr ph -> 0 <= p_memsz ph ->
  p_vaddr ph + p_memsz ph < wmod kClass / 2 ->
  AddressRange kClass ph = (p_vaddr ph, p_vaddr ph + p_memsz ph).
Proof.
  intros Hv Hm Hs. unfold AddressRange.
  pose proof (wmod_half kClass) as Hw.
  rewrite (to_size_t_small kClass (p_vaddr ph + p_memsz ph)) by lia.
  by rewrite !to_long_small by lia.
Qed.

Lemma file_backed_count fm ph :
  (p_type ph =? PT_LOAD) && count fm (segment_range kClass ph) = true
  <-> file_backed kClass fm ph.
Proof.
  unfold file_backed, count.
  change (AddressRange kClass ph) with (segment_range kClass ph).
  rewrite andb_true_iff, Z.eqb_eq.
  destruct (fm !! segment_range kClass ph) as [info|].
  - split; intros [? _]; split; eauto.
  - split; intros [? H]; [discriminate | destruct H; discriminate].
Qed.

Lemma filter_entry_copies fm prev ph :
  let out := filter_entry kClass fm prev ph in
  p_type out = p_type ph /\ p_flags out = p_flags ph
  /\ p_vaddr out = p_vaddr ph /\ p_paddr out = p_paddr ph
  /\ p_memsz out = p_memsz ph /\ p_align out = p_align ph.
Proof.
  unfold filter_entry.
  destruct ((p_type ph =? PT_LOAD) && count fm (segment_range kClass ph));
    cbn [set_p_filesz set_p_offset p_align p_offset];
    match goal with |- context [if ?c then _ else _] => destruct c end;
    cbn; tauto.
Qed.

Lemma filter_entry_filesz fm prev ph :
  p_filesz (filter_entry kClass fm prev ph)
  = if (p_type ph =? PT_LOAD) && count fm (segment_range kClass ph)
    then 0 else p_filesz ph.
Proof.
  unfold filter_entry.
  destruct ((p_type ph =? PT_LOAD) && count fm (segment_range kClass ph));
    cbn [set_p_filesz set_p_offset p_align p_offset];
    match goal with |- context [if ?c then _ else _] => destruct c end;
    reflexivity.
Qed.

Lemma length_filter_from fm prev phs :
  length (filter_from kClass fm prev phs) = length phs.
Proof.
  revert prev. induction phs as [|ph phs IH]; intros prev; cbn; [done|].
  by rewrite IH.
Qed.

(** Every entry of the loop's output is [filter_entry] applied to the
    original entry of the same index, for some previous entry. *)
Lemma filter_from_lookup fm prev phs (i : nat) ph :
  phs !! i = Some ph ->
  exists prev', filter_from kClass fm prev phs !! i
                = Some (filter_entry kClass fm prev' ph).
Proof.
  revert prev i. induction phs as [|ph0 phs IH]; intros prev i Hi; [done|].
  destruct i as [|i]; cbn in *.
  - injection Hi as ->. by exists prev.
  - by apply IH.
Qed.

(** C1. For a program-header list with a first entry (the NOTE) and any
    file mappings, [FilterSegments] yields a list of the same length whose
    entry 0 is the input's entry 0; at every index [i >= 1] type, flags,
    virtual address, memory size and alignment are those of the input entry
    of that index, and the file size is 0 when the entry is a LOAD whose
    exact range is a key of the mappings, and the original file size
    otherwise.  The range is the pair of the start address and of the sum of
    start address and memory size, taken in the address type and read as
    signed words: for addresses whose sum stays in the positive half of the
    address type, the file size is 0 exactly when the type is LOAD and the
    pair [(vaddr, vaddr + memsz)] itself is a key. *)
Theorem FilterSegments_same_entries fm first rest :
  exists out,
    FilterSegments kClass (first :: rest) fm = Some out
    /\ length out = length (first :: rest)
    /\ out !! 0%nat = Some first
    /\ forall (i : nat) ph,
         (1 <= i)%nat -> (first :: rest) !! i = Some ph ->
         exists o,
           out !! i = Some o
           /\ p_type o = p_type ph /\ p_flags o = p_flags ph
           /\ p_vaddr o = p_vaddr ph /\ p_memsz o = p_memsz ph
           /\ p_align o = p_align ph
           /\ (p_type ph = PT_LOAD ->
               is_Some (fm !! (to_long kClass (p_vaddr ph),
                               to_long kClass
                                 (to_size_t kClass (p_vaddr ph + p_memsz ph)))) ->
               p_filesz o = 0)
           /\ (~ (p_type ph = PT_LOAD
                  /\ is_Some (fm !! (to_long kClass (p_vaddr ph),
                                     to_long kClass
                                       (to_size_t kClass
                                          (p_vaddr ph + p_memsz ph))))) ->
               p_filesz o = p_filesz ph)
           /\ (0 <= p_vaddr ph -> 0 <= p_memsz ph ->
               p_vaddr ph + p_memsz ph < wmod kClass / 2 ->
               p_filesz o
               = if bool_decide
                      (p_type ph = PT_LOAD
                       /\ is_Some (fm !! (p_vaddr ph, p_vaddr ph + p_memsz ph)))
                 then 0 else p_filesz ph).
Proof.
  eexists. split; [reflexivity|]. split.
  { cbn. by rewrite length_filter_from. }
  split; [reflexivity|].
  intros [|i] ph Hi Hph; [lia|]. rewrite lookup_cons in Hph |- *.
  destruct (filter_from_lookup fm first rest i ph Hph) as [prev' ->].
  eexists. split; [reflexivity|].
  pose proof (filter_entry_copies fm prev' ph) as (? & ? & ? & _ & ? & ?).
  rewrite filter_entry_filesz.
  repeat (split; [assumption|]).
  change (to_long kClass (p_vaddr ph),
          to_long kClass (to_size_t kClass (p_vaddr ph + p_memsz ph)))
    with (AddressRange kClass ph).
  change (p_type ph = PT_LOAD /\ is_Some (fm !! AddressRange kClass ph))
    with (file_backed kClass fm ph).
  destruct ((p_type ph =? PT_LOAD) && count fm (segment_range kClass ph)) eqn:E.
  - apply file_backed_count in E.
    split; [done|]. split; [done|].
    intros Hv Hm Hs. rewrite bool_decide_eq_true_2; [done|].
    rewrite <- AddressRange_plain by done. exact E.
  - assert (Hn : ~ file_backed kClass fm ph).
    { intros Hb. apply file_backed_count in Hb. congruence. }
    split; [intros Ht Hk; destruct Hn; by split|]. split; [done|].
    intros Hv Hm Hs. rewrite bool_decide_eq_false_2; [done|].
    rewrite <- AddressRange_plain by done. exact Hn.
Qed.

Lemma align_up_ge off align : 0 <= align -> off <= align_up off align.
Proof.
  intros Ha. unfold align_up.
  destruct ((align =? 0) || (off mod align =? 0)) eqn:E; [lia|].
  apply orb_false_iff in E as [E1 E2]. apply Z.eqb_neq in E1.
  pose proof (Z.mod_pos_bound off align). lia.
Qed.

Lemma align_up_multiple off align :
  align <> 0 -> align_up off align mod align = 0.
Proof.
  intros Ha. unfold align_up.
  destruct ((align =? 0) || (off mod align =? 0)) eqn:E.
  - apply orb_true_iff in E as [E|E]; [apply Z.eqb_eq in E; lia|].
    by apply Z.eqb_eq in E.
  - replace (off + (align - off mod align))
      with ((off / align + 1) * align)
      by (pose proof (Z.div_mod off align Ha); lia).
    apply Z.mod_mul; lia.
Qed.

(** Without wrap-around the offset that the loop body assigns is the round-up
    of the end of the previous entry. *)
Lemma filter_entry_offset fm prev ph :
  0 <= p_offset prev -> 0 <= p_filesz prev -> 0 <= p_align ph ->
  align_up (p_offset prev + p_filesz prev) (p_align ph) < wmod kClass ->
  p_offset (filter_entry kClass fm prev ph)
  = align_up (p_offset prev + p_filesz prev) (p_align ph).
Proof.
  intros Ho Hf Ha Hfit.
  pose proof (align_up_ge (p_offset prev + p_filesz prev) _ Ha) as Hge.
  assert (Hbase : to_size_t kClass (p_offset prev + p_filesz prev)
                  = p_offset prev + p_filesz prev)
    by (apply to_size_t_small; lia).
  unfold filter_entry.
  destruct ((p_type ph =? PT_LOAD) && count fm (segment_range kClass ph));
    cbn [set_p_filesz set_p_offset p_align p_offset];
    rewrite Hbase; unfold align_up in *;
    destruct (p_align ph =? 0); cbn [negb andb orb] in *; try reflexivity;
    destruct ((p_offset prev + p_filesz prev) mod p_align ph =? 0);
    cbn [negb p_offset]; try reflexivity;
    apply to_size_t_small; lia.
Qed.

Lemma filter_entry_filesz_nonneg fm prev ph :
  0 <= p_filesz ph -> 0 <= p_filesz (filter_entry kClass fm prev ph).
Proof.
  intros H. unfold filter_entry.
  destruct ((p_type ph =? PT_LOAD) && count fm (segment_range kClass ph));
    cbn [set_p_filesz set_p_offset p_align p_offset];
    match goal with |- context [if ?c then _ else _] => destruct c end;
    cbn; lia.
Qed.

Lemma filter_entry_align fm prev ph :
  p_align (filter_entry kClass fm prev ph) = p_align ph.
Proof.
  unfold filter_entry.
  destruct ((p_type ph =? PT_LOAD) && count fm (segment_range kClass ph));
    cbn [set_p_filesz set_p_offset p_align p_offset];
    match goal with |- context [if ?c then _ else _] => destruct c end;
    reflexivity.
Qed.

(** The invariant of the loop of [FilterSegments] when no offset wraps:
    seen from the previous entry, the offsets never decrease and every new
    offset honours the alignment of its entry. *)
Lemma filter_from_offsets fm prev phs :
  0 <= p_offset prev -> 0 <= p_filesz prev ->
  Forall (Phdr_ok kClass) phs ->
  offsets_fit kClass fm prev phs = true ->
  (forall (i : nat) a b,
      (prev :: filter_from kClass fm prev phs) !! i = Some a ->
      (prev :: filter_from kClass fm prev phs) !! S i = Some b ->
      p_offset a + p_filesz a <= p_offset b /\ 0 <= p_filesz a)
  /\ (forall (i : nat) o,
         filter_from kClass fm prev phs !! i = Some o ->
         p_align o <> 0 -> p_offset o mod p_align o = 0).
Proof.
  revert prev. induction phs as [|ph phs IH]; intros prev Ho Hf Hok Hfit.
  { split; intros i ? ? H; [destruct i|]; done. }
  apply Forall_cons in Hok as [Hph Hok].
  cbn [offsets_fit] in Hfit. apply andb_true_iff in Hfit as [Hfit1 Hfit].
  apply Z.ltb_lt in Hfit1.
  destruct Hph as (_ & _ & _ & _ & _ & Hfs & _ & Hal).
  pose proof (filter_entry_offset fm prev ph Ho Hf (proj1 Hal) Hfit1) as Hoff.
  pose proof (align_up_ge (p_offset prev + p_filesz prev) (p_align ph) (proj1 Hal)).
  pose proof (filter_entry_filesz_nonneg fm prev ph (proj1 Hfs)).
  destruct (IH (filter_entry kClass fm prev ph)) as [IH1 IH2];
    [lia | lia | done | done |].
  cbn [filter_from]. split.
  - intros [|i] a b Ha Hb.
    + cbn in Ha, Hb. injection Ha as <-. injection Hb as <-. lia.
    + rewrite lookup_cons in Ha. rewrite lookup_cons in Hb. eauto.
  - intros [|i] o Hi Hnz.
    + cbn in Hi. injection Hi as <-.
      rewrite filter_entry_align in Hnz |- *. rewrite Hoff.
      by apply align_up_multiple.
    + rewrite lookup_cons in Hi. eauto.
Qed.

(** Without wrap-around the filtered entries are laid out one after the
    other. *)
Lemma filter_from_laid_out fm prev phs :
  0 <= p_offset prev -> 0 <= p_filesz prev ->
  Forall (Phdr_ok kClass) phs ->
  offsets_fit kClass fm prev phs = true ->
  laid_out prev (filter_from kClass fm prev phs).
Proof.
  revert prev. induction phs as [|ph phs IH]; intros prev Ho Hf Hok Hfit; [done|].
  apply Forall_cons in Hok as [Hph Hok].
  cbn [offsets_fit] in Hfit. apply andb_true_iff in Hfit as [Hfit1 Hfit].
  apply Z.ltb_lt in Hfit1.
  destruct Hph as (_ & _ & _ & _ & _ & Hfs & _ & Hal).
  pose proof (filter_entry_offset fm prev ph Ho Hf (proj1 Hal) Hfit1) as Hoff.
  pose proof (align_up_ge (p_offset prev + p_filesz prev) (p_align ph) (proj1 Hal)).
  pose proof (filter_entry_filesz_nonneg fm prev ph (proj1 Hfs)).
  cbn [filter_from laid_out]. unfold segment_end.
  split; [lia|]. split; [done|]. apply IH; [lia | done | done | done].
Qed.

Lemma List_last_cons {A} (x d : A) (l : list A) :
  List.last (x :: l) d = List.last l x.
Proof.
  revert x d. induction l as [|a l IH]; intros x d; [done|].
  change (List.last (x :: a :: l) d) with (List.last (a :: l) d).
  by rewrite (IH a d), (IH a x).
Qed.

(** [back()] of a non-empty vector. *)
Lemma last_List_last {A} (x : A) (l : list A) :
  last (x :: l) = Some (List.last l x).
Proof.
  revert x. induction l as [|a l IH]; intros x; [done|].
  by rewrite last_cons_cons, IH, List_last_cons.
Qed.

Lemma laid_out_last prev phs :
  0 <= p_filesz prev -> laid_out prev phs ->
  segment_end prev <= segment_end (List.last phs prev)
  /\ 0 <= p_filesz (List.last phs prev).
Proof.
  revert prev. induction phs as [|ph phs IH]; intros prev Hf Hl; [cbn; lia|].
  destruct Hl as (H1 & H2 & H3).
  destruct (IH ph H2 H3) as [IH1 IH2].
  rewrite List_last_cons.
  unfold segment_end in *. lia.
Qed.

(** C5 (amended). For a list of well-typed program headers on which no
    recomputed offset wraps around, the file offsets of the list produced by
    [FilterSegments] never decrease, and at every index [i >= 1] whose
    alignment is non-zero the file offset is a multiple of that alignment;
    entry 0 is the input's entry 0, so it keeps its offset. *)
Theorem FilterSegments_offsets fm first rest out :
  Forall (Phdr_ok kClass) (first :: rest) ->
  offsets_fit kClass fm first rest = true ->
  FilterSegments kClass (first :: rest) fm = Some out ->
  (forall (i : nat) a b,
      out !! i = Some a -> out !! S i = Some b -> p_offset a <= p_offset b)
  /\ (forall (i : nat) o,
         (1 <= i)%nat -> out !! i = Some o -> p_align o <> 0 ->
         p_offset o mod p_align o = 0)
  /\ out !! 0%nat = Some first.
Proof.
  intros Hok Hfit Hout. injection Hout as <-.
  apply Forall_cons in Hok as [Hfirst Hok].
  destruct Hfirst as (_ & _ & Ho & _ & _ & Hf & _).
  destruct (filter_from_offsets fm first rest) as [H1 H2]; [lia | lia | done | done |].
  split; [|split; [|reflexivity]].
  - intros i a b Ha Hb. destruct (H1 i a b Ha Hb). lia.
  - intros [|i] o Hi Ho' Hnz; [lia|]. rewrite lookup_cons in Ho'. eauto.
Qed.

End FilterSegmentsFacts.

(** ** Notes and GetFileMappings *)

Section NoteFacts.

Variable kClass : ElfClass.
Implicit Types (fm : gmap (Z * Z) FileInfo.t) (note desc : list byte).

Lemma le_decode_nonneg bs : 0 <= le_decode bs.
Proof. induction bs as [|b bs IH]; cbn [le_decode]; lia. Qed.

Lemma AlignedSize_ge size : size <= AlignedSize size.
Proof.
  unfold AlignedSize. rewrite <- Z.ldiff_land.
  change 3 with (Z.ones 2) at 2. rewrite Z.ldiff_ones_r by lia.
  rewrite Z.shiftr_div_pow2, Z.shiftl_mul_pow2 by lia.
  change (2 ^ 2) with 4.
  pose proof (Z.div_mod (size + 3) 4). pose proof (Z.mod_pos_bound (size + 3) 4).
  lia.
Qed.

Lemma Nhdr_field_nonneg note k : 0 <= Nhdr_field note k.
Proof.
  unfold Nhdr_field. destruct (GetData note (4 * k) 4); [|lia].
  apply le_decode_nonneg.
Qed.

Lemma IsValid_length note :
  IsValid note = true <-> 12 <= Z.of_nat (length note).
Proof.
  unfold IsValid, Covers, sizeof_Nhdr.
  rewrite !andb_true_iff, Z.leb_le, Z.ltb_lt, Z.leb_le. lia.
Qed.

Lemma GetNextNote_shorter note :
  IsValid note = true ->
  (length (GetNextNote note) < length note)%nat.
Proof.
  intros Hv. unfold GetNextNote. rewrite Hv. apply IsValid_length in Hv.
  unfold Subrange, GetData.
  set (next := AlignedSize (AlignedSize (sizeof_Nhdr + n_namesz note) + n_descsz note)).
  assert (12 <= next).
  { subst next. unfold sizeof_Nhdr, n_namesz, n_descsz.
    pose proof (Nhdr_field_nonneg note 0). pose proof (Nhdr_field_nonneg note 1).
    pose proof (AlignedSize_ge (12 + Nhdr_field note 0)).
    pose proof (AlignedSize_ge (AlignedSize (12 + Nhdr_field note 0) + Nhdr_field note 1)).
    lia. }
  destruct (Covers note next _); cbn [length]; [|lia].
  rewrite length_take, length_drop. lia.
Qed.

(** The search for a note ends within the rounds granted: what [FindNote]
    returns falsifies the condition of the loop. *)
Lemma find_note_stops type fuel note :
  (length note <= fuel)%nat ->
  let found := find_note fuel type note in
  IsValid found && negb (GetType found =? type) = false.
Proof.
  revert note. induction fuel as [|fuel IH]; intros note Hlen; cbn [find_note].
  - destruct note; [reflexivity | cbn in Hlen; lia].
  - destruct (IsValid note && negb (GetType note =? type)) eqn:E; [|exact E].
    apply IH. apply andb_true_iff in E as [Hv _].
    pose proof (GetNextNote_shorter note Hv). lia.
Qed.

(** The rounds granted to the loop that reads a file name are enough: for a
    description that fits in the address space, more rounds give the same
    result. *)
Lemma read_name_fuel note fuel1 fuel2 pos path :
  Z.of_nat (length (GetDescription note)) < wmod kClass ->
  (Z.to_nat (Z.of_nat (length (GetDescription note)) - pos) < fuel1)%nat ->
  (Z.to_nat (Z.of_nat (length (GetDescription note)) - pos) < fuel2)%nat ->
  read_name kClass fuel1 note pos path = read_name kClass fuel2 note pos path.
Proof.
  intros Hfit. revert fuel2 pos path.
  induction fuel1 as [|fuel1 IH]; intros fuel2 pos path H1 H2; [lia|].
  destruct fuel2 as [|fuel2]; [lia|]. cbn [read_name].
  destruct (Byte.eqb (GetValueFromNote char_t note pos x00) x00) eqn:E;
    [reflexivity|].
  assert (Hin : 0 <= pos < Z.of_nat (length (GetDescription note))).
  { unfold GetValueFromNote, GetData, Covers in E. cbn [sizeof char_t] in E.
    destruct (0 <=? pos) eqn:E1; cbn [andb] in E; [|discriminate].
    destruct (pos <? Z.of_nat (length (GetDescription note))) eqn:E2;
      cbn [andb] in E; [|discriminate].
    apply Z.leb_le in E1. apply Z.ltb_lt in E2. lia. }
  assert (Hnext : to_size_t kClass (pos + 1) = pos + 1)
    by (unfold to_size_t; apply Z.mod_small; lia).
  rewrite Hnext. apply IH; lia.
Qed.


Lemma long_at_0 : long_at kClass 0 = 0.
Proof. unfold long_at, to_size_t. rewrite Z.mul_0_r. apply Z.mod_0_l. pose proof (wmod_pos kClass). lia. Qed.

Lemma long_at_1 : long_at kClass 1 = wordbytes kClass.
Proof.
  unfold long_at, to_size_t. rewrite Z.mul_1_r. apply Z.mod_small.
  pose proof (wordbytes_small kClass). lia.
Qed.

(** A word reads as [kInvalidValue] either because the access is out of
    range or because -1 is what is stored there. *)
Lemma note_long_invalid note k :
  note_long kClass note k = kInvalidValue
  <-> long_out_of_range kClass note k \/ long_stored_minus_one kClass note k.
Proof.
  unfold note_long, long_out_of_range, long_stored_minus_one, GetValueFromNote.
  cbn [sizeof long_t].
  destruct (GetData (GetDescription note) (long_at kClass k) (wordbytes kClass))
    as [bs|]; split.
  - intros H. right. by exists bs.
  - intros [H | (bs' & Hbs & H)]; [discriminate|]. by injection Hbs as ->.
  - by left.
  - done.
Qed.

(** The loop over the entries fails exactly when one of the words of the
    entries still to be read reads as [kInvalidValue]. *)
Lemma read_files_None n note page_size i filename_pos fm :
  read_files kClass n note page_size i filename_pos fm = None
  <-> exists k, 2 + 3 * i <= k < 2 + 3 * (i + Z.of_nat n)
                /\ note_long kClass note k = kInvalidValue.
Proof.
  revert i filename_pos fm.
  induction n as [|n IH]; intros i filename_pos fm; cbn [read_files].
  { split; [done|]. intros (k & ? & _). lia. }
  fold (note_long kClass note (2 + 3 * i)).
  fold (note_long kClass note (2 + 3 * i + 1)).
  fold (note_long kClass note (2 + 3 * i + 2)).
  destruct (note_long kClass note (2 + 3 * i) =? kInvalidValue) eqn:E0;
    [apply Z.eqb_eq in E0; split; [intros _; exists (2 + 3 * i); split; [lia|done] | done]|].
  destruct (note_long kClass note (2 + 3 * i + 1) =? kInvalidValue) eqn:E1;
    [apply Z.eqb_eq in E1; split; [intros _; exists (2 + 3 * i + 1); split; [lia|done] | done]|].
  destruct (note_long kClass note (2 + 3 * i + 2) =? kInvalidValue) eqn:E2;
    [apply Z.eqb_eq in E2; split; [intros _; exists (2 + 3 * i + 2); split; [lia|done] | done]|].
  cbn [orb]. apply Z.eqb_neq in E0, E1, E2.
  destruct (read_name _ _ _ _ _) as [pos' path']. rewrite IH. split.
  - intros (k & Hk & Hinv). exists k. split; [lia|done].
  - intros (k & Hk & Hinv). exists k. split; [|done].
    destruct (Z.eq_dec k (2 + 3 * i)) as [->|]; [done|].
    destruct (Z.eq_dec k (2 + 3 * i + 1)) as [->|]; [done|].
    destruct (Z.eq_dec k (2 + 3 * i + 2)) as [->|]; [done|].
    lia.
Qed.

(** Decoding the NT_FILE note fails exactly when the file count, the page
    size or a word of an entry reads as [kInvalidValue]. *)
Lemma read_file_note_None note fm :
  read_file_note kClass note fm = None
  <-> exists k, file_note_word kClass note k
                /\ note_long kClass note k = kInvalidValue.
Proof.
  unfold read_file_note, file_note_word, note_file_count.
  assert (H0 : GetValueFromNote (long_t kClass) note 0 kInvalidValue
               = note_long kClass note 0)
    by (unfold note_long; by rewrite long_at_0).
  assert (H1 : GetValueFromNote (long_t kClass) note (wordbytes kClass) kInvalidValue
               = note_long kClass note 1)
    by (unfold note_long; by rewrite long_at_1).
  rewrite H0, H1. clear H0 H1.
  destruct (note_long kClass note 0 =? kInvalidValue) eqn:E0;
    [apply Z.eqb_eq in E0; split; [intros _; exists 0; split; [by left|done] | done]|].
  destruct (note_long kClass note 1 =? kInvalidValue) eqn:E1;
    [apply Z.eqb_eq in E1; split; [intros _; exists 1; split; [by right; left|done] | done]|].
  cbn [orb]. apply Z.eqb_neq in E0, E1. rewrite read_files_None. split.
  - intros (k & Hk & Hinv). exists k. split; [right; right; lia | done].
  - intros (k & [-> | [-> | Hk]] & Hinv); [done | done |].
    exists k. split; [lia|done].
Qed.

(** C4 (amended). An access to the file-count word, the page-size word or a
    word of an entry that is out of range makes [GetFileMappings] fail.  The
    bytes of the paths are not part of this: when the NT_FILE note is found
    and each of those words is in range and not -1, [GetFileMappings]
    succeeds, wherever the paths end. *)
Theorem GetFileMappings_word_out_of_range note_buf fm :
  let note := FindNote NT_FILE note_buf in
  ((exists k, file_note_word kClass note k /\ long_out_of_range kClass note k) ->
   GetFileMappings kClass note_buf fm = None)
  /\ (IsValid note = true ->
      (forall k, file_note_word kClass note k ->
                 note_long kClass note k <> kInvalidValue) ->
      is_Some (GetFileMappings kClass note_buf fm)).
Proof.
  intros note. unfold GetFileMappings. fold note. split.
  - intros (k & Hk & Hout). destruct (negb (IsValid note)); [done|].
    apply read_file_note_None. exists k. split; [done|].
    apply note_long_invalid. by left.
  - intros -> Hall. cbn [negb].
    destruct (read_file_note kClass note fm) eqn:E; [by eexists|].
    apply read_file_note_None in E as (k & Hk & Hinv). by destruct (Hall k Hk).
Qed.

(** C9. When the NOTE segment that [ReadUntilNote] delivers holds an NT_FILE
    note in which the file-count word, the page-size word or a word of an
    entry lies within the buffer and stores -1, [GetFileMappings] rejects the
    note and the run fails: [WriteCoredumpToFD] gives up at that point and
    [WriteCoredump] returns -1. *)
Theorem GetFileMappings_stored_minus_one cw w fd_dest elf_header
    program_headers note_buf reader k :
  ReadUntilNote kClass (env w) (mkFdReader (fd_src_ cw) 0)
  = Returns (Some (elf_header, program_headers, note_buf), reader) ->
  file_note_word kClass (FindNote NT_FILE note_buf) k ->
  long_stored_minus_one kClass (FindNote NT_FILE note_buf) k ->
  GetFileMappings kClass note_buf ∅ = None
  /\ fst (WriteCoredumpToFD kClass cw w fd_dest) = Failed FailedToGetFileMappings
  /\ ssize_of kClass (fst (WriteCoredump kClass cw w)) = Some (-1).
Proof.
  intros Hread Hk Hstored.
  assert (Hnone : GetFileMappings kClass note_buf ∅ = None).
  { unfold GetFileMappings. destruct (negb (IsValid _)); [done|].
    apply read_file_note_None. exists k. split; [done|].
    apply note_long_invalid. by right. }
  assert (Hfd : forall w' fd, env w' = env w ->
                              WriteCoredumpToFD kClass cw w' fd
                              = (Failed FailedToGetFileMappings, w')).
  { intros w' fd He. unfold WriteCoredumpToFD. by rewrite He, Hread, Hnone. }
  split; [done|]. split; [by rewrite Hfd|].
  unfold WriteCoredump, open_excl.
  destruct (files w !! coredump_filename_ cw); [reflexivity|].
  destruct (may_create (env w) (coredump_filename_ cw)); [|reflexivity].
  rewrite Hfd by reflexivity. reflexivity.
Qed.

End NoteFacts.

(** ** The forward-only reader *)

Section ReaderFacts.

Variable kClass : ElfClass.
Implicit Types (r : FdReader) (src : Source).

(** [read] on a stream with bytes pending returns the first
    [min count pending] of them. *)
Lemma read_some src count :
  0 < count -> pending src <> [] ->
  read src count
  = (Z.min count (Z.of_nat (length (pending src))),
     take (Z.to_nat count) (pending src),
     mkSource (drop (Z.to_nat count) (pending src)) (broken src)).
Proof.
  intros Hc Hne. unfold read. destruct (pending src) as [|b bs] eqn:E; [done|].
  rewrite length_take. repeat f_equal. lia.
Qed.

(** [CopyTo] without a destination, in closed form: when [num_bytes] bytes
    are pending they are consumed and counted; otherwise the stream is
    drained and the call fails. *)
Lemma CopyTo_loop_discard fuel r num_bytes :
  (length (pending (fd_ r)) < fuel)%nat -> 0 <= num_bytes ->
  CopyTo_loop kClass fuel r None num_bytes
  = if num_bytes <=? Z.of_nat (length (pending (fd_ r)))
    then (true,
          mkFdReader (mkSource (drop (Z.to_nat num_bytes) (pending (fd_ r)))
                               (broken (fd_ r)))
                     (if num_bytes =? 0 then bytes_read_ r
                      else to_size_t kClass (bytes_read_ r + num_bytes)),
          None)
    else (false,
          mkFdReader (mkSource [] (broken (fd_ r)))
                     (if length (pending (fd_ r)) =? 0 then bytes_read_ r
                      else to_size_t kClass (bytes_read_ r
                                             + Z.of_nat (length (pending (fd_ r)))))%nat,
          None).
Proof.
  revert r num_bytes. induction fuel as [|fuel IH]; intros [[pend brk] count] n Hfuel Hn;
    cbn [fd_ pending broken bytes_read_] in *; [lia|].
  cbn [CopyTo_loop fd_ bytes_read_].
  destruct (0 <? n) eqn:Epos.
  2:{ apply Z.ltb_ge in Epos. assert (n = 0) as -> by lia.
      replace (0 <=? Z.of_nat (length pend)) with true by blia.
      cbn [Z.to_nat Z.eqb]. reflexivity. }
  apply Z.ltb_lt in Epos.
  destruct pend as [|b pend].
  { cbn [read pending broken length]. replace (n <=? Z.of_nat 0) with false by blia.
    replace (n =? 0) with false by blia.
    destruct brk; reflexivity. }
  rewrite read_some by (cbn [pending]; unfold kBufSize; (lia || done)).
  cbn [pending broken].
  set (chunk := Z.min (Z.min kBufSize n) (Z.of_nat (length (b :: pend)))).
  assert (Hchunk : 0 < chunk) by (subst chunk; unfold kBufSize; cbn [length]; lia).
  replace (chunk =? 0) with false by blia.
  replace (chunk =? -1) with false by blia.
  cbn [fd_ bytes_read_].
  rewrite (drop_min (b :: pend)). fold chunk.
  rewrite IH; cbn [fd_ pending broken bytes_read_]; rewrite ?length_drop;
    [| cbn [length] in *; lia | subst chunk; lia].
  rewrite drop_drop.
  replace (n =? 0) with false by blia.
  destruct (n <=? Z.of_nat (length (b :: pend))) eqn:En.
  - apply Z.leb_le in En.
    replace (n - chunk <=? _) with true by blia.
    f_equal. f_equal. f_equal.
    + f_equal. f_equal. lia.
    + destruct (n - chunk =? 0) eqn:E0.
      * apply Z.eqb_eq in E0. f_equal. lia.
      * rewrite to_size_t_add_l. f_equal. lia.
  - apply Z.leb_gt in En.
    replace (n - chunk <=? _) with false by blia.
    replace (length (b :: pend) =? 0)%nat with false by done.
    do 3 f_equal.
    destruct (_ =? 0)%nat eqn:E0.
    + apply Nat.eqb_eq in E0. f_equal. lia.
    + rewrite to_size_t_add_l. f_equal. lia.
Qed.


(** The rounds granted to the loop of [CopyTo] are enough: any number of
    rounds above the number of pending bytes gives the same result. *)
Lemma CopyTo_loop_fuel fuel1 fuel2 r dest num_bytes :
  (length (pending (fd_ r)) < fuel1)%nat ->
  (length (pending (fd_ r)) < fuel2)%nat ->
  CopyTo_loop kClass fuel1 r dest num_bytes
  = CopyTo_loop kClass fuel2 r dest num_bytes.
Proof.
  revert fuel2 r dest num_bytes.
  induction fuel1 as [|fuel1 IH]; intros fuel2 [[pend brk] count] dest n H1 H2;
    cbn [fd_ pending broken bytes_read_] in *; [lia|].
  destruct fuel2 as [|fuel2]; [lia|].
  cbn [CopyTo_loop fd_ bytes_read_].
  destruct (0 <? n) eqn:Epos; [|reflexivity]. apply Z.ltb_lt in Epos.
  destruct pend as [|b pend].
  { cbn [read pending broken]. destruct brk; reflexivity. }
  rewrite read_some by (cbn [pending]; unfold kBufSize; (lia || done)).
  cbn [pending broken].
  set (l := b :: pend) in *.
  set (chunk := Z.min (Z.min kBufSize n) (Z.of_nat (length l))).
  assert (Hchunk : 0 < chunk) by (subst chunk l; unfold kBufSize; cbn [length]; lia).
  replace (chunk =? 0) with false by blia.
  replace (chunk =? -1) with false by blia.
  rewrite (drop_min l). fold chunk. cbn [fd_ bytes_read_].
  match goal with
  | |- context [match ?written with Some _ => _ | None => _ end] =>
      destruct written as [dest1|]; [|reflexivity]
  end.
  apply IH; cbn [fd_ pending]; rewrite length_drop; subst l; cbn [length] in *; lia.
Qed.

(** [CopyTo], whatever the destination, when it succeeds: [num_bytes] bytes
    were pending, and they are consumed and counted. *)
Lemma CopyTo_loop_reader fuel r dest num_bytes r' dest' :
  0 < num_bytes ->
  CopyTo_loop kClass fuel r dest num_bytes = (true, r', dest') ->
  num_bytes <= Z.of_nat (length (pending (fd_ r)))
  /\ r' = mkFdReader (mkSource (drop (Z.to_nat num_bytes) (pending (fd_ r)))
                               (broken (fd_ r)))
                     (to_size_t kClass (bytes_read_ r + num_bytes)).
Proof.
  revert r dest num_bytes.
  induction fuel as [|fuel IH]; intros [[pend brk] count] dest n Hn;
    cbn [fd_ pending broken bytes_read_] in *.
  { cbn [CopyTo_loop]. intros [= E _ _]. apply Z.eqb_eq in E. lia. }
  cbn [CopyTo_loop fd_ bytes_read_].
  replace (0 <? n) with true by blia.
  destruct pend as [|b pend].
  { cbn [read pending broken]. destruct brk; cbn; [done|].
    intros [= E _ _]. apply Z.eqb_eq in E. lia. }
  rewrite read_some by (cbn [pending]; unfold kBufSize; (lia || done)).
  cbn [pending broken].
  set (l := b :: pend) in *.
  set (chunk := Z.min (Z.min kBufSize n) (Z.of_nat (length l))).
  assert (Hchunk : 0 < chunk <= n) by (subst chunk l; unfold kBufSize; cbn [length]; lia).
  replace (chunk =? 0) with false by blia.
  replace (chunk =? -1) with false by blia.
  rewrite (drop_min l). fold chunk. cbn [fd_ bytes_read_].
  match goal with
  | |- context [match ?written with Some _ => _ | None => _ end] =>
      destruct written as [dest1|]; [|done]
  end.
  destruct (Z.eq_dec n chunk) as [Heq|Hne].
  - replace (n - chunk) with 0 by lia.
    replace (CopyTo_loop kClass fuel _ dest1 0) with
      (true, mkFdReader (mkSource (drop (Z.to_nat chunk) l) brk)
                        (to_size_t kClass (count + chunk)), dest1)
      by (destruct fuel; reflexivity).
    intros [= <- _]. split; [subst chunk; lia|]. by rewrite Heq.
  - intros Hrun. eapply IH in Hrun; [|lia].
    cbn [fd_ pending broken bytes_read_] in Hrun.
    destruct Hrun as (Hle & ->). rewrite length_drop in Hle.
    split; [lia|].
    f_equal; [|rewrite to_size_t_add_l; f_equal; lia].
    f_equal. rewrite drop_drop. f_equal. lia.
Qed.

(** [CopyTo] into a file, when it succeeds: [num_bytes] bytes were pending,
    they are consumed and counted, and the file holds them from the position
    of the descriptor on. *)
Lemma CopyTo_loop_write fuel r w fd num_bytes content r' dest' :
  0 < num_bytes -> 0 <= out_pos fd ->
  files w !! out_path fd = Some content ->
  CopyTo_loop kClass fuel r (Some (w, fd)) num_bytes = (true, r', dest') ->
  num_bytes <= Z.of_nat (length (pending (fd_ r)))
  /\ r' = mkFdReader (mkSource (drop (Z.to_nat num_bytes) (pending (fd_ r)))
                               (broken (fd_ r)))
                     (to_size_t kClass (bytes_read_ r + num_bytes))
  /\ dest' = Some (mkWorld (env w)
                     (<[out_path fd :=
                          write_at content (out_pos fd)
                                   (take (Z.to_nat num_bytes) (pending (fd_ r)))]>
                        (files w))
                     (events w),
                   mkOutFd (out_path fd) (out_pos fd + num_bytes)).
Proof.
  revert r w fd num_bytes content.
  induction fuel as [|fuel IH]; intros [[pend brk] count] w [path pos] n content Hn Hpos Hc;
    cbn [fd_ pending broken bytes_read_ out_path out_pos] in *.
  { cbn [CopyTo_loop]. intros [= E _ _]. apply Z.eqb_eq in E. lia. }
  cbn [CopyTo_loop fd_ bytes_read_].
  replace (0 <? n) with true by blia.
  destruct pend as [|b pend].
  { cbn [read pending broken]. destruct brk; cbn; [done|].
    intros [= E _ _]. apply Z.eqb_eq in E. lia. }
  rewrite read_some by (cbn [pending]; unfold kBufSize; (lia || done)).
  cbn [pending broken].
  set (l := b :: pend) in *.
  set (chunk := Z.min (Z.min kBufSize n) (Z.of_nat (length l))).
  assert (Hchunk : 0 < chunk <= n) by (subst chunk l; unfold kBufSize; cbn [length]; lia).
  replace (chunk =? 0) with false by blia.
  replace (chunk =? -1) with false by blia.
  rewrite (take_min l), (drop_min l). fold chunk.
  assert (Hlen : Z.of_nat (length (take (Z.to_nat chunk) l)) = chunk)
    by (rewrite length_take; subst chunk; lia).
  unfold WriteFully. cbn [out_path out_pos files env events].
  destruct (take (Z.to_nat chunk) l) as [|c0 cs] eqn:Etake; [cbn in Hlen; lia|].
  rewrite Hc. destruct (may_write (env w) path pos (c0 :: cs)); [|done].
  rewrite <- Etake in *. rewrite Hlen. cbn [fd_ bytes_read_].
  destruct (Z.eq_dec n chunk) as [Heq|Hne].
  - (* the last block *)
    replace (n - chunk) with 0 by lia.
    replace (CopyTo_loop kClass fuel _ _ 0) with
      (true, mkFdReader (mkSource (drop (Z.to_nat chunk) l) brk)
                        (to_size_t kClass (count + chunk)),
       Some (mkWorld (env w)
               (<[path := write_at content pos (take (Z.to_nat chunk) l)]> (files w))
               (events w),
             mkOutFd path (pos + chunk)))
      by (destruct fuel; reflexivity).
    intros [= <- <-]. split; [subst chunk; lia|]. by rewrite Heq.
  - intros Hrun.
    eapply IH in Hrun; cbn [files out_path out_pos fd_ pending broken bytes_read_ env events];
      [| lia | lia | apply lookup_insert_eq].
    cbn [fd_ pending broken bytes_read_ files out_path out_pos env events] in Hrun.
    destruct Hrun as (Hle & -> & ->). rewrite length_drop in Hle.
    split; [lia|]. split.
    + f_equal; [|rewrite to_size_t_add_l; f_equal; lia].
      f_equal. rewrite drop_drop. f_equal. lia.
    + do 2 f_equal; [|f_equal; lia]. f_equal.
      rewrite insert_insert_eq. f_equal.
      replace (pos + chunk) with (pos + Z.of_nat (length (take (Z.to_nat chunk) l)))
        by lia.
      rewrite write_at_app by done. f_equal.
      rewrite take_take_drop. f_equal. lia.
Qed.

(** [Read], when it succeeds. *)
Lemma FdReader_Read_ok r num_bytes buf r' :
  0 <= num_bytes ->
  FdReader_Read kClass r num_bytes = (Some buf, r') ->
  num_bytes <= Z.of_nat (length (pending (fd_ r)))
  /\ Z.of_nat (length buf) = num_bytes
  /\ pending (fd_ r') = drop (Z.to_nat num_bytes) (pending (fd_ r))
  /\ bytes_read_ r' = to_size_t kClass (bytes_read_ r + num_bytes).
Proof.
  intros Hn. unfold FdReader_Read, ReadFully.
  destruct (num_bytes <=? Z.of_nat (length (pending (fd_ r)))) eqn:E; [|done].
  apply Z.leb_le in E. intros [= <- <-]. cbn.
  rewrite length_take. repeat split; lia.
Qed.

(** [Seek] of the reader, when it succeeds: the target is not behind, the
    bytes up to it are consumed, and the counter is the target. *)
Lemma FdReader_Seek_ok r offset r' :
  0 <= bytes_read_ r < wmod kClass -> 0 <= offset < wmod kClass ->
  FdReader_Seek kClass r offset = (true, r') ->
  bytes_read_ r <= offset
  /\ offset - bytes_read_ r <= Z.of_nat (length (pending (fd_ r)))
  /\ pending (fd_ r') = drop (Z.to_nat (offset - bytes_read_ r)) (pending (fd_ r))
  /\ bytes_read_ r' = offset.
Proof.
  intros Hr Ho. unfold FdReader_Seek.
  destruct (offset <? bytes_read_ r) eqn:E; [done|]. apply Z.ltb_ge in E.
  unfold FdReader_CopyTo.
  rewrite (to_size_t_small kClass (offset - bytes_read_ r)) by lia.
  rewrite CopyTo_loop_discard by lia.
  destruct (offset - bytes_read_ r <=? _) eqn:El; [|done].
  apply Z.leb_le in El. intros [= <-]. cbn.
  repeat split; try lia.
  destruct (offset - bytes_read_ r =? 0) eqn:E0; [lia|].
  replace (bytes_read_ r + (offset - bytes_read_ r)) with offset by lia.
  by apply to_size_t_small.
Qed.

End ReaderFacts.

(** ** WriteMaps *)

Section MapsFacts.

Variable kClass : ElfClass.
Implicit Types (fm : gmap (Z * Z) FileInfo.t) (w : World) (fd : OutFd).

Lemma maps_format_length range flags offset path :
  (0 < length (maps_format kClass range flags offset path))%nat.
Proof. unfold maps_format. rewrite !length_app. cbn [length]. lia. Qed.

(** A successful write of a non-empty block at the end of a file appends
    it. *)
Lemma WriteFully_append w fd data content w' fd' :
  files w !! out_path fd = Some content ->
  out_pos fd = Z.of_nat (length content) ->
  (0 < length data)%nat ->
  WriteFully w fd data = Some (w', fd') ->
  files w' = <[out_path fd := content ++ data]> (files w)
  /\ env w' = env w /\ events w' = events w
  /\ out_path fd' = out_path fd
  /\ out_pos fd' = Z.of_nat (length (content ++ data)).
Proof.
  intros Hc Hpos Hlen. unfold WriteFully.
  destruct data as [|b data]; [cbn in Hlen; lia|]. rewrite Hc.
  destruct (may_write _ _ _ _); [|done].
  intros [= <- <-]. cbn. rewrite Hpos, write_at_end.
  repeat split; try done. rewrite length_app. cbn [length]. lia.
Qed.

(** The invariant of the loop of [WriteMaps]: the descriptor stays at the end
    of the file, and a successful loop has appended the lines of the LOAD
    entries, none of which fills the buffer. *)
Lemma WriteMaps_loop_appends fm phs w fd content w' :
  files w !! out_path fd = Some content ->
  out_pos fd = Z.of_nat (length content) ->
  Forall (fun ph => p_type ph = PT_LOAD -> ~ fills_buffer (maps_line kClass fm ph)) phs ->
  WriteMaps_loop kClass w fd phs fm = (true, w') ->
  files w' = <[out_path fd := content ++ maps_text kClass fm phs]> (files w)
  /\ env w' = env w /\ events w' = events w.
Proof.
  revert w fd content.
  induction phs as [|ph phs IH]; intros w fd content Hc Hpos Hlines Hrun.
  { cbn in Hrun |- *. injection Hrun as <-. rewrite app_nil_r.
    by rewrite insert_id. }
  apply Forall_cons in Hlines as [Hline Hlines].
  cbn [WriteMaps_loop maps_text] in Hrun |- *.
  destruct (p_type ph =? PT_LOAD) eqn:Et; cbn [negb] in Hrun; [|by eapply IH].
  apply Z.eqb_eq in Et. specialize (Hline Et).
  change (segment_range kClass ph) with (AddressRange kClass ph) in Hrun.
  fold (maps_offset kClass fm ph) in Hrun. fold (maps_path kClass fm ph) in Hrun.
  change (AddressRange kClass ph) with (segment_range kClass ph) in Hrun.
  fold (maps_line kClass fm ph) in Hrun.
  unfold snprintf in Hrun. unfold fills_buffer in Hline.
  set (line := maps_line kClass fm ph) in *.
  destruct ((Z.of_nat (length line) <? 0) || (Z.of_nat (length line) >? maps_kBufSize)) eqn:El;
    [done|].
  apply orb_false_iff in El as [_ El]. rewrite Z.gtb_ltb in El. apply Z.ltb_ge in El.
  assert (Hbuf : take (Z.to_nat (Z.of_nat (length line)))
                      (take (Z.to_nat (maps_kBufSize - 1)) line ++ [x00]) = line).
  { unfold maps_kBufSize in *. rewrite Nat2Z.id.
    rewrite (take_ge line) by lia. rewrite take_app_le by lia. by rewrite firstn_all. }
  rewrite Hbuf in Hrun.
  destruct (WriteFully w fd line) as [[w1 fd1]|] eqn:Ew; [|done].
  apply (WriteFully_append _ _ _ content) in Ew
    as (Hf1 & He1 & Hv1 & Hp1 & Hpos1); [| done | done | apply maps_format_length].
  apply (IH _ _ (content ++ line)) in Hrun as (Hf & He & Hv);
    [| by rewrite Hf1, Hp1, lookup_insert_eq | done | done].
  rewrite Hf, Hf1, Hp1, insert_insert_eq, <- app_assoc.
  split; [done|]. split; congruence.
Qed.

(** *** The conversions of the format, read back *)

Lemma hex_digit_value_hex_digit d :
  0 <= d < 16 -> hex_digit_value (hex_digit d) = Some d.
Proof.
  intros Hd.
  assert (Hcases : d = 0 \/ d = 1 \/ d = 2 \/ d = 3 \/ d = 4 \/ d = 5 \/ d = 6
                   \/ d = 7 \/ d = 8 \/ d = 9 \/ d = 10 \/ d = 11 \/ d = 12
                   \/ d = 13 \/ d = 14 \/ d = 15) by lia.
  repeat (destruct Hcases as [-> | Hcases]; [reflexivity|]).
  by subst.
Qed.

Lemma hex_digits_acc n v acc :
  hex_digits n v acc = hex_digits n v [] ++ acc.
Proof.
  revert v acc. induction n as [|n IH]; intros v acc; cbn [hex_digits]; [done|].
  rewrite (IH _ (_ :: acc)), (IH _ [_]), <- app_assoc. reflexivity.
Qed.

Lemma length_hex_digits n v acc :
  length (hex_digits n v acc) = (n + length acc)%nat.
Proof.
  revert v acc. induction n as [|n IH]; intros v acc; cbn [hex_digits]; [done|].
  rewrite IH. cbn [length]. lia.
Qed.

Lemma hex_value_from_app a s t :
  hex_value_from a (s ++ t)
  = match hex_value_from a s with
    | Some a' => hex_value_from a' t
    | None => None
    end.
Proof.
  revert a. induction s as [|c s IH]; intros a; cbn [hex_value_from app]; [done|].
  destruct (hex_digit_value c); [apply IH | done].
Qed.

(** The digits that the conversion produces denote the number converted. *)
Lemma hex_value_from_hex_digits n v a :
  hex_value_from a (hex_digits n v [])
  = Some (a * 16 ^ Z.of_nat n + v mod 16 ^ Z.of_nat n).
Proof.
  revert v a. induction n as [|n IH]; intros v a.
  { cbn. rewrite Z.mod_1_r. f_equal. lia. }
  cbn [hex_digits]. rewrite hex_digits_acc, hex_value_from_app, IH.
  cbn [hex_value_from].
  rewrite hex_digit_value_hex_digit by (apply Z.mod_pos_bound; lia).
  f_equal. rewrite Nat2Z.inj_succ, Z.pow_succ_r by lia.
  set (p := 16 ^ Z.of_nat n).
  assert (Hp : 0 < p) by (apply Z.pow_pos_nonneg; lia).
  rewrite (Z.rem_mul_r v 16 p) by lia. lia.
Qed.

Lemma hex_value_strip_zeros width ds :
  hex_value (strip_zeros width ds) = hex_value ds.
Proof.
  unfold hex_value. induction ds as [|d ds IH]; [done|].
  cbn [strip_zeros].
  destruct (Byte.eqb d "0"%byte) eqn:Ed; cbn [andb]; [|done].
  destruct (width <? length (d :: ds))%nat; [|done].
  apply Byte.byte_dec_bl in Ed as ->. rewrite IH. reflexivity.
Qed.

Lemma length_strip_zeros width ds :
  (width <= length ds)%nat -> (width <= length (strip_zeros width ds))%nat.
Proof.
  induction ds as [|d ds IH]; intros Hl; [done|].
  cbn [strip_zeros].
  destruct (Byte.eqb d "0"%byte && (width <? length (d :: ds))%nat) eqn:E; [|done].
  apply andb_true_iff in E as [_ E]. apply Nat.ltb_lt in E.
  apply IH. cbn [length] in E. lia.
Qed.

Lemma hd_strip_zeros width ds :
  (width < length (strip_zeros width ds))%nat ->
  hd x00 (strip_zeros width ds) <> "0"%byte.
Proof.
  induction ds as [|d ds IH]; intros Hl; [cbn in Hl; lia|].
  cbn [strip_zeros] in *.
  destruct (Byte.eqb d "0"%byte) eqn:Ed; cbn [andb] in *.
  - destruct (width <? length (d :: ds))%nat eqn:E; [by apply IH|].
    apply Nat.ltb_ge in E. lia.
  - cbn [hd]. intros ->. discriminate.
Qed.

(** [%08lx] prints its argument, as an unsigned word, in a hexadecimal
    field. *)
Lemma fmt_08lx_hex_field v :
  hex_field (fmt_08lx kClass v) (to_size_t kClass v).
Proof.
  unfold hex_field, fmt_08lx. split; [|split].
  - rewrite hex_value_strip_zeros. unfold hex_value.
    rewrite hex_value_from_hex_digits. f_equal.
    assert (Hw : 16 ^ Z.of_nat (Z.to_nat (2 * wordbytes kClass)) = wmod kClass)
      by (unfold wmod, wordbytes; destruct kClass; reflexivity).
    rewrite Hw. pose proof (to_size_t_range kClass v).
    rewrite Z.mod_small by lia. lia.
  - apply length_strip_zeros. rewrite length_hex_digits.
    unfold wordbytes. destruct kClass; cbn; lia.
  - apply hd_strip_zeros.
Qed.

(** The bytes of a hexadecimal field are digits. *)
Lemma hex_value_from_digits a s v c :
  hex_value_from a s = Some v -> c ∈ s -> is_Some (hex_digit_value c).
Proof.
  revert a. induction s as [|d s IH]; intros a Hv Hc.
  { by apply elem_of_nil in Hc. }
  cbn [hex_value_from] in Hv.
  destruct (hex_digit_value d) as [x|] eqn:Ed; [|done].
  apply elem_of_cons in Hc as [-> | Hc]; [by eexists | by eapply IH].
Qed.

Lemma hex_field_no_newline s v : hex_field s v -> x0a ∉ s.
Proof.
  intros [Hv _] Hin.
  destruct (hex_value_from_digits _ _ _ _ Hv Hin) as [d Hd]. discriminate.
Qed.

Lemma to_size_t_to_long z :
  to_size_t kClass (to_long kClass z) = to_size_t kClass z.
Proof.
  unfold to_size_t, to_long. rewrite Zminus_mod_idemp_l. f_equal. lia.
Qed.

(** The test of a flag against a mask of one bit. *)
Lemma land_pow2 flags n :
  0 <= n -> (Z.land flags (2 ^ n) =? 0) = negb (Z.testbit flags n).
Proof.
  intros Hn. destruct (Z.testbit flags n) eqn:E; cbn [negb].
  - apply Z.eqb_neq. intros H0.
    assert (Hb : Z.testbit (Z.land flags (2 ^ n)) n = true)
      by (rewrite Z.land_spec, E, Z.pow2_bits_true by done; reflexivity).
    rewrite H0, Z.bits_0 in Hb. discriminate.
  - apply Z.eqb_eq. apply Z.bits_inj'. intros m Hm.
    rewrite Z.land_spec, Z.bits_0.
    destruct (Z.eq_dec m n) as [-> | Hne]; [by rewrite E|].
    rewrite Z.pow2_bits_false by lia. apply andb_false_r.
Qed.

Lemma flag_chars_perm_chars flags :
  [flag_char flags PF_R "r"%byte; flag_char flags PF_W "w"%byte;
   flag_char flags PF_X "x"%byte; "p"%byte]
  = perm_chars flags.
Proof.
  unfold flag_char, perm_chars.
  change PF_R with (2 ^ 2). change PF_W with (2 ^ 1). change PF_X with (2 ^ 0).
  rewrite !land_pow2 by lia. rewrite !negb_involutive. reflexivity.
Qed.

Lemma c_str_shown s : shown_of s (c_str s).
Proof.
  unfold shown_of. induction s as [|c s [IH1 IH2]]; cbn [c_str].
  { split; [apply not_elem_of_nil | by left]. }
  destruct (Byte.eqb c x00) eqn:Ec.
  - apply Byte.byte_dec_bl in Ec as ->.
    split; [apply not_elem_of_nil | right; by exists s].
  - split.
    + apply not_elem_of_cons. split; [|done]. intros <-. discriminate.
    + destruct IH2 as [IH2 | [rest IH2]]; [left | right; exists rest];
        by rewrite IH2 at 1.
Qed.

Lemma c_str_elem s c : c ∈ c_str s -> c ∈ s.
Proof.
  induction s as [|d s IH]; cbn [c_str]; [done|].
  destruct (Byte.eqb d x00); [by intros ?%elem_of_nil|].
  intros [-> | H]%elem_of_cons; [left | right; by apply IH].
Qed.

(** The line that the format produces for a LOAD entry is a text of the line
    of that entry, ended by a newline byte, which is the only newline byte of
    the line when the path holds none. *)
Lemma maps_line_text fm ph :
  exists text,
    maps_line kClass fm ph = text ++ [x0a]
    /\ is_maps_line kClass fm ph text
    /\ (x0a ∉ maps_path kClass fm ph -> x0a ∉ text).
Proof.
  pose proof (fmt_08lx_hex_field (fst (segment_range kClass ph))) as Hs.
  pose proof (fmt_08lx_hex_field (snd (segment_range kClass ph))) as He.
  pose proof (fmt_08lx_hex_field (maps_offset kClass fm ph)) as Ho.
  pose proof (c_str_shown (maps_path kClass fm ph)) as Hp.
  cbn [segment_range fst snd] in Hs, He.
  rewrite to_size_t_to_long in Hs.
  rewrite to_size_t_to_long in He.
  assert (He' : to_size_t kClass (to_size_t kClass (p_vaddr ph + p_memsz ph))
                = to_size_t kClass (p_vaddr ph + p_memsz ph))
    by (apply to_size_t_small, to_size_t_range).
  rewrite He' in He.
  unfold maps_line, maps_format. rewrite flag_chars_perm_chars.
  cbn [segment_range fst snd].
  assert (Hin : x0a ∉ maps_path kClass fm ph ->
                x0a ∉ c_str (maps_path kClass fm ph))
    by (intros Hpath Hc; by apply Hpath, c_str_elem).
  revert Hs He Ho Hp Hin.
  generalize (c_str (maps_path kClass fm ph)).
  generalize (fmt_08lx kClass (maps_offset kClass fm ph)).
  generalize (fmt_08lx kClass
                (to_long kClass (to_size_t kClass (p_vaddr ph + p_memsz ph)))).
  generalize (fmt_08lx kClass (to_long kClass (p_vaddr ph))).
  intros start_field end_field offset_field path_field Hs He Ho Hp Hin.
  exists (start_field ++ list_byte_of_string "-" ++ end_field
          ++ list_byte_of_string " " ++ perm_chars (p_flags ph)
          ++ list_byte_of_string " " ++ offset_field
          ++ list_byte_of_string " 00:00 0 " ++ path_field).
  split; [|split].
  - rewrite <- !app_assoc. reflexivity.
  - by exists start_field, end_field, offset_field, path_field.
  - intros Hpath. rewrite !elem_of_app.
    intros [H | [H | [H | [H | [H | [H | [H | [H | H]]]]]]]].
    + by apply (hex_field_no_newline _ _ Hs).
    + by apply list_elem_of_singleton in H.
    + by apply (hex_field_no_newline _ _ He).
    + by apply list_elem_of_singleton in H.
    + unfold perm_chars in H.
      repeat (apply elem_of_cons in H as [H | H];
              [repeat match type of H with
                      | context [if ?c then _ else _] => destruct c
                      end; discriminate|]).
      by apply elem_of_nil in H.
    + by apply list_elem_of_singleton in H.
    + by apply (hex_field_no_newline _ _ Ho).
    + cbn in H. repeat (apply elem_of_cons in H as [H | H]; [discriminate|]).
      by apply elem_of_nil in H.
    + by apply Hin.
Qed.

Lemma newline_count_app a b :
  newline_count (a ++ b) = (newline_count a + newline_count b)%nat.
Proof. apply count_occ_app. Qed.

Lemma newline_count_line text :
  x0a ∉ text -> newline_count (text ++ [x0a]) = 1%nat.
Proof.
  intros Hn. rewrite newline_count_app. unfold newline_count.
  rewrite (proj1 (count_occ_not_In _ text x0a)).
  - cbn. destruct (Byte.byte_eq_dec x0a x0a); [done | congruence].
  - intros Hin. apply Hn. by apply list_elem_of_In.
Qed.

(** The lines of a list of entries whose paths hold no newline byte. *)
Lemma maps_text_lines fm phs :
  Forall (fun ph => p_type ph = PT_LOAD -> x0a ∉ maps_path kClass fm ph) phs ->
  exists texts,
    maps_text kClass fm phs = unlines texts
    /\ Forall2 (is_maps_line kClass fm) (load_entries phs) texts
    /\ Forall (fun text => x0a ∉ text) texts
    /\ newline_count (unlines texts) = length (load_entries phs).
Proof.
  induction phs as [|ph phs IH]; intros Hp.
  { exists []. repeat split; constructor. }
  apply Forall_cons in Hp as [Hph Hp].
  destruct (IH Hp) as (texts & Ht & Hall & Hno & Hcount).
  cbn [maps_text]. unfold load_entries in *.
  destruct (p_type ph =? PT_LOAD) eqn:Et.
  - apply Z.eqb_eq in Et. rewrite filter_cons_True by done.
    destruct (maps_line_text fm ph) as (text & Hl & His & Hn).
    specialize (Hn (Hph Et)).
    exists (text :: texts). split; [|split; [|split]].
    + unfold unlines. cbn [map concat]. fold (unlines texts). by rewrite Hl, Ht.
    + by constructor.
    + by constructor.
    + unfold unlines. cbn [map concat]. fold (unlines texts).
      rewrite newline_count_app, newline_count_line, Hcount by done.
      reflexivity.
  - apply Z.eqb_neq in Et. rewrite filter_cons_False by done.
    exists texts. by repeat split.
Qed.

(** C7 (amended). When [WriteMaps] succeeds, no line fills the 1024-byte
    buffer exactly and no path printed holds a newline byte, the maps file
    holds exactly one line of text per LOAD entry of the original list, in
    the order of the list, and nothing else: it is made of one text per LOAD
    entry, each followed by a newline byte, no text holds a newline byte, so
    that the file holds as many newline bytes as the list has LOAD entries.
    The text of an entry reads "start-end rwxp offset 00:00 0 path": start
    address, end address (start plus memory size) and offset are unsigned
    words in hexadecimal, padded with zeros to eight digits; the permission
    characters are r, w and x for the flag bits 2, 1 and 0 that are set and
    a dash for the others, followed by the constant p; the path is printed
    up to its first zero byte.  Offset and path are the byte offset and the
    path found for the exact range of the entry when the range is a key of
    the mappings, and 0 and the empty path when it is not; an offset of 0 or
    an empty path may also belong to a range that is a key. *)
Theorem WriteMaps_lines w program_headers fm output_path w' :
  Forall (fun ph => p_type ph = PT_LOAD -> ~ fills_buffer (maps_line kClass fm ph))
         program_headers ->
  Forall (fun ph => p_type ph = PT_LOAD -> x0a ∉ maps_path kClass fm ph)
         program_headers ->
  WriteMaps kClass w program_headers fm output_path = (true, w') ->
  exists texts,
    files w' !! output_path = Some (unlines texts)
    /\ Forall2 (is_maps_line kClass fm) (load_entries program_headers) texts
    /\ Forall (fun text => x0a ∉ text) texts
    /\ newline_count (unlines texts) = length (load_entries program_headers).
Proof.
  intros Hlines Hpaths Hrun.
  destruct (maps_text_lines fm program_headers Hpaths)
    as (texts & Ht & Hall & Hno & Hcount).
  exists texts. split; [|by repeat split].
  unfold WriteMaps, open_excl in Hrun.
  destruct (files w !! output_path) eqn:Ef; [done|].
  destruct (may_create (env w) output_path); [|done].
  apply (WriteMaps_loop_appends _ _ _ _ []) in Hrun as (Hf & _);
    [| apply lookup_insert_eq | done | done].
  rewrite Hf, <- Ht. cbn. apply lookup_insert_eq.
Qed.

End MapsFacts.

(** ** The run *)

Section RunFacts.

Variable kClass : ElfClass.
Implicit Types (fm : gmap (Z * Z) FileInfo.t) (w : World) (fd : OutFd)
  (cw : CoredumpWriter) (ph first : Phdr) (phs rest : list Phdr).

Lemma sizeof_Ehdr_small : 0 < sizeof_Ehdr kClass < wmod kClass.
Proof. unfold sizeof_Ehdr, wmod, wordbytes. destruct kClass; lia. Qed.

Lemma sizeof_Phdr_pos : 0 < sizeof_Phdr kClass <= 56.
Proof. unfold sizeof_Phdr. destruct kClass; lia. Qed.

Lemma e_phoff_range eh : 0 <= e_phoff kClass eh < wmod kClass.
Proof.
  unfold e_phoff, wmod, wordbytes.
  destruct kClass;
    match goal with |- _ <= field _ _ ?s < _ => apply (field_range _ _ s); lia end.
Qed.

Lemma e_phnum_range eh : 0 <= e_phnum kClass eh < 2 ^ 16.
Proof.
  unfold e_phnum.
  destruct kClass;
    match goal with |- _ <= field _ _ ?s < _ => apply (field_range _ _ s); lia end.
Qed.

Lemma wmod_ge : 2 ^ 32 <= wmod kClass.
Proof. unfold wmod, wordbytes. destruct kClass; lia. Qed.

(** What a successful [ReadUntilNote] on a fresh reader establishes. *)
Lemma ReadUntilNote_ok e src elf_header phs note_buf reader :
  ReadUntilNote kClass e (mkFdReader src 0)
  = Returns (Some (elf_header, phs, note_buf), reader) ->
  exists first rest,
    phs = first :: rest
    /\ Forall (Phdr_ok kClass) phs
    /\ bytes_read_ reader = consumed_after_note kClass first
    /\ Z.of_nat (length note_buf) = p_filesz first
    /\ Z.of_nat (length elf_header) = sizeof_Ehdr kClass
    /\ e_phentsize kClass elf_header = sizeof_Phdr kClass
    /\ (Z.of_nat (length (pending src)) < wmod kClass ->
        sizeof_Ehdr kClass + Z.of_nat (length phs) * sizeof_Phdr kClass
        <= p_offset first
        /\ segment_end first < wmod kClass).
Proof.
  unfold ReadUntilNote.
  pose proof sizeof_Ehdr_small as HE. pose proof sizeof_Phdr_pos as HP.
  pose proof wmod_ge as HW.
  destruct (FdReader_Read kClass (mkFdReader src 0) (sizeof_Ehdr kClass))
    as [[eh|] r1] eqn:E1; [|done].
  apply FdReader_Read_ok in E1 as (Hn1 & Hl1 & Hp1 & Hb1); [|lia].
  cbn [fd_ pending bytes_read_] in *.
  rewrite to_size_t_small in Hb1 by lia.
  match goal with |- context [if ?c || _ then _ else _] => destruct c eqn:Echeck end;
    cbn [orb].
  { destruct (negb (_ =? _)); done. }
  destruct (negb (e_phentsize kClass eh =? sizeof_Phdr kClass)) eqn:Ephent; [done|].
  destruct (negb (resize kClass e _)); [done|].
  pose proof (e_phoff_range eh) as Hoff. pose proof (e_phnum_range eh) as Hnum.
  destruct (FdReader_Seek kClass r1 (e_phoff kClass eh)) as [[|] r2] eqn:E2; [|done].
  apply FdReader_Seek_ok in E2 as (Hge2 & Hn2 & Hp2 & Hb2); [| lia | lia].
  assert (Htab : to_size_t kClass (sizeof_Phdr kClass * e_phnum kClass eh)
                 = sizeof_Phdr kClass * e_phnum kClass eh)
    by (apply to_size_t_small; nia).
  rewrite Htab.
  destruct (FdReader_Read kClass r2 _) as [[table|] r3] eqn:E3; [|done].
  apply FdReader_Read_ok in E3 as (Hn3 & Hl3 & Hp3 & Hb3); [|nia].
  destruct (decode_Phdrs kClass (Z.to_nat (e_phnum kClass eh)) table)
    as [|first rest] eqn:Ephs; [done|].
  destruct (negb (p_type first =? PT_NOTE)); [done|].
  assert (Hok : Forall (Phdr_ok kClass) (first :: rest))
    by (rewrite <- Ephs; apply decode_Phdrs_ok).
  assert (Hfirst := Forall_inv Hok).
  destruct Hfirst as (_ & _ & Hfo & _ & _ & Hff & _).
  rewrite Hb2 in Hb3.
  pose proof (to_size_t_range kClass (e_phoff kClass eh + sizeof_Phdr kClass * e_phnum kClass eh)).
  destruct (negb (resize kClass e _)); [done|].
  destruct (FdReader_Seek kClass r3 (p_offset first)) as [[|] r4] eqn:E4; [|done].
  apply FdReader_Seek_ok in E4 as (Hge4 & Hn4 & Hp4 & Hb4); [| lia | lia].
  destruct (FdReader_Read kClass r4 (p_filesz first)) as [[nb|] r5] eqn:E5; [|done].
  apply FdReader_Read_ok in E5 as (Hn5 & Hl5 & Hp5 & Hb5); [|lia].
  intros [= <- <- <- <-]. exists first, rest.
  apply negb_false_iff, Z.eqb_eq in Ephent.
  split; [done|]. split; [done|]. split; [by rewrite Hb5, Hb4|].
  split; [done|]. split; [done|]. split; [done|].
  intros Hfit.
  assert (Hlen : Z.of_nat (length (first :: rest)) = e_phnum kClass eh)
    by (rewrite <- Ephs, length_decode_Phdrs; lia).
  rewrite Hlen.
  rewrite Hb3 in Hge4, Hn4. rewrite Hb1 in Hge2, Hn2.
  rewrite Hb1 in Hp2. rewrite Hb3 in Hp4.
  rewrite Hp1, length_drop in Hn2. rewrite Hp2, Hp1, !length_drop in Hn3.
  rewrite Hp3, Hp2, Hp1, !length_drop in Hn4.
  rewrite Hp4, Hp3, Hp2, Hp1, !length_drop in Hn5.
  set (table_size := sizeof_Phdr kClass * e_phnum kClass eh) in *.
  assert (0 <= table_size) by (subst table_size; nia).
  rewrite to_size_t_small in Hge4, Hn4, Hn5 by lia.
  unfold segment_end. rewrite (Z.mul_comm (e_phnum _ _)). fold table_size. lia.
Qed.

(** The limit that the code computes never exceeds the minimum of a
    twentieth of the free space and 256 MiB. *)
Lemma coredump_size_limit_le free_disk_space :
  0 <= free_disk_space ->
  coredump_size_limit kClass free_disk_space
  <= Z.min (free_disk_space / 20) kMaxCoredumpSize.
Proof.
  intros H. unfold coredump_size_limit.
  pose proof (to_size_t_le kClass (free_disk_space / 20)).
  assert (0 <= free_disk_space / 20) by (apply Z.div_pos; lia). lia.
Qed.


(** The steps of a successful run of [WriteCoredumpToFD]. *)
Lemma WriteCoredumpToFD_Written cw w fd_dest size w' :
  WriteCoredumpToFD kClass cw w fd_dest = (Written size, w') ->
  exists elf_header phs note_buf reader fm filtered
         w1 w2 w3 fd3 w4 fd4 fd5 w6 fd6 reader' fd7,
    ReadUntilNote kClass (env w) (mkFdReader (fd_src_ cw) 0)
    = Returns (Some (elf_header, phs, note_buf), reader)
    /\ GetFileMappings kClass note_buf ∅ = Some fm
    /\ FilterSegments kClass phs fm = Some filtered
    /\ size = expected_coredump_size kClass filtered
    /\ 0 <= GetFreeDiskSpace w (coredump_filename_ cw)
    /\ size <= coredump_size_limit kClass (GetFreeDiskSpace w (coredump_filename_ cw))
    /\ WriteAuxv w note_buf (proc_files_dir_ cw +:+ "/auxv") = (true, w1)
    /\ WriteMaps kClass w1 phs fm (proc_files_dir_ cw +:+ "/maps") = (true, w2)
    /\ WriteFully w2 fd_dest elf_header = Some (w3, fd3)
    /\ write_program_headers kClass w3 fd3 (e_phentsize kClass elf_header) 0 filtered
       = (None, w4, fd4)
    /\ Seek kClass (env w4) fd4
            (p_offset (default (mkPhdr 0 0 0 0 0 0 0 0) (head filtered)))
       = (true, fd5)
    /\ WriteFully w4 fd5 note_buf = Some (w6, fd6)
    /\ write_segments kClass reader w6 fd6 1 (combine (tail filtered) (tail phs))
       = (None, reader', w', fd7).
Proof.
  unfold WriteCoredumpToFD.
  destruct (ReadUntilNote kClass _ _) as [[[[[eh phs] nb]|] reader]|] eqn:E1;
    [|done|done].
  destruct (GetFileMappings kClass nb ∅) as [fm|] eqn:E2; [|done].
  destruct (FilterSegments kClass phs fm) as [filtered|] eqn:E3; [|done].
  destruct (GetFreeDiskSpace w _ <? 0) eqn:E4; [done|]. apply Z.ltb_ge in E4.
  destruct (expected_coredump_size kClass filtered >? _) eqn:E5; [done|].
  rewrite Z.gtb_ltb in E5. apply Z.ltb_ge in E5.
  destruct (WriteAuxv w nb _) as [[|] w1] eqn:E6; [|done].
  destruct (WriteMaps kClass w1 phs fm _) as [[|] w2] eqn:E7; [|done].
  destruct (WriteFully w2 fd_dest eh) as [[w3 fd3]|] eqn:E8; [|done].
  destruct (write_program_headers kClass w3 fd3 _ 0 filtered)
    as [[[why|] w4] fd4] eqn:E9; [done|].
  destruct (Seek kClass _ fd4 _) as [[|] fd5] eqn:E10; [|done].
  destruct (WriteFully w4 fd5 nb) as [[w6 fd6]|] eqn:E11; [|done].
  destruct (write_segments kClass reader w6 fd6 1 _)
    as [[[[why|] reader'] w7] fd7] eqn:E12; [done|].
  intros [= <- <-].
  exists eh, phs, nb, reader, fm, filtered, w1, w2, w3, fd3, w4, fd4, fd5, w6, fd6,
    reader', fd7.
  repeat (split; [done|]). done.
Qed.

(** A successful pass over the segments found every kept segment at or
    after the position of the reader. *)
Lemma write_segments_forward segments reader w fd i reader' w' fd' :
  0 <= bytes_read_ reader < wmod kClass ->
  Forall (fun s => Phdr_ok kClass s.2) segments ->
  write_segments kClass reader w fd i segments = (None, reader', w', fd') ->
  forward_order kClass (bytes_read_ reader) segments = true.
Proof.
  revert reader w fd i.
  induction segments as [|[ph original] segments IH]; intros reader w fd i Hr Hok;
    [done|].
  apply Forall_cons in Hok as [Horig Hok]. cbn [snd] in Horig.
  destruct Horig as (_ & _ & Hoff & _).
  cbn [write_segments forward_order].
  destruct (p_filesz ph >? 0) eqn:Efs; [|by apply IH].
  rewrite Z.gtb_ltb in Efs. apply Z.ltb_lt in Efs.
  destruct (FdReader_Seek kClass reader (p_offset original)) as [[|] r1] eqn:E1; [|done].
  apply FdReader_Seek_ok in E1 as (Hge & _ & _ & Hb1); [| done | done].
  destruct (Seek kClass (env w) fd (p_offset ph)) as [[|] fd1]; [|done].
  destruct (FdReader_CopyTo kClass r1 (Some (w, fd1)) (p_filesz ph))
    as [[[|] r2] [[w2 fd2]|]] eqn:E2; try done.
  apply CopyTo_loop_reader in E2 as (_ & ->); [|done].
  intros Hrun. apply IH in Hrun; cbn [bytes_read_] in *;
    [| apply to_size_t_range | done].
  rewrite Hb1 in Hrun. rewrite Hrun. apply andb_true_iff. split; [blia | done].
Qed.

(** C10. [WriteCoredumpToFD] copies the kept segments (index at least 1,
    non-zero filtered file size) in the order of their indices through the
    forward-only reader.  When the input is parsed, a run succeeds only if
    the original offset of every kept segment is at or after the count of
    bytes consumed before it: the end of the NOTE segment at first, then the
    end of the original bytes of the segment copied last.  An input whose
    kept segments are not laid out in this order makes the run fail. *)
Theorem WriteCoredumpToFD_forward_only cw w fd_dest elf_header first rest
    note_buf reader fm program_headers_filtered :
  ReadUntilNote kClass (env w) (mkFdReader (fd_src_ cw) 0)
  = Returns (Some (elf_header, first :: rest, note_buf), reader) ->
  GetFileMappings kClass note_buf ∅ = Some fm ->
  FilterSegments kClass (first :: rest) fm = Some program_headers_filtered ->
  let segments := combine (tail program_headers_filtered) rest in
  (forall size w',
      WriteCoredumpToFD kClass cw w fd_dest = (Written size, w') ->
      forward_order kClass (consumed_after_note kClass first) segments = true)
  /\ (forward_order kClass (consumed_after_note kClass first) segments = false ->
      (exists why, fst (WriteCoredumpToFD kClass cw w fd_dest) = Failed why)
      /\ ssize_of kClass (fst (WriteCoredump kClass cw w)) = Some (-1)).
Proof.
  intros Hread Hfm Hfilt segments.
  assert (Hsucc : forall w0 fd0 size w',
             env w0 = env w ->
             WriteCoredumpToFD kClass cw w0 fd0 = (Written size, w') ->
             forward_order kClass (consumed_after_note kClass first) segments = true).
  { intros w0 fd0 size w' Henv Hrun.
    apply WriteCoredumpToFD_Written in Hrun
      as (eh & phs & nb & rd & fm' & filtered & w1 & w2 & w3 & fd3 & w4 & fd4 & fd5
          & w6 & fd6 & rd' & fd7 & Hread' & Hfm' & Hfilt' & _ & _ & _ & _ & _ & _
          & _ & _ & _ & Hseg).
    rewrite Henv, Hread in Hread'. injection Hread' as <- <- <- <-.
    rewrite Hfm in Hfm'. injection Hfm' as <-.
    rewrite Hfilt in Hfilt'. injection Hfilt' as <-.
    apply ReadUntilNote_ok in Hread
      as (first' & rest' & [= <- <-] & Hok & Hb & _).
    cbn [tail] in Hseg. fold segments in Hseg.
    rewrite <- Hb.
    eapply write_segments_forward; [| | exact Hseg].
    - rewrite Hb. apply to_size_t_range.
    - apply Forall_cons in Hok as [_ Hrest].
      subst segments. clear -Hrest.
      revert Hrest. generalize (tail program_headers_filtered).
      induction rest as [|o rest IH]; intros [|f fs] Hrest; cbn; try constructor.
      + by apply Forall_cons in Hrest as [? _].
      + apply IH. by apply Forall_cons in Hrest as [_ ?]. }
  split; [intros size w'; by apply Hsucc|].
  intros Hback.
  assert (Hfail : forall w0 fd0, env w0 = env w -> exists why,
             fst (WriteCoredumpToFD kClass cw w0 fd0) = Failed why).
  { intros w0 fd0 Henv.
    destruct (WriteCoredumpToFD kClass cw w0 fd0) as [[why|size|] w'] eqn:E.
    - by exists why.
    - apply Hsucc in E; [congruence | done].
    - unfold WriteCoredumpToFD in E. rewrite Henv, Hread, Hfm, Hfilt in E.
      repeat match type of E with
             | context [if ?c then _ else _] => destruct c; [done|]
             | context [match ?c with _ => _ end] => destruct c; try done
             end. }
  split; [by apply Hfail|].
  unfold WriteCoredump, open_excl.
  destruct (files w !! coredump_filename_ cw); [reflexivity|].
  destruct (may_create (env w) (coredump_filename_ cw)); [|reflexivity].
  match goal with
  | |- context [WriteCoredumpToFD kClass cw ?w0 ?fd0] =>
      destruct (Hfail w0 fd0 eq_refl) as [why Hwhy];
      destruct (WriteCoredumpToFD kClass cw w0 fd0) as [st w']
  end.
  cbn [fst] in Hwhy. subst st. reflexivity.
Qed.

(** *** The size of the destination file *)

(** A write leaves the other files alone and keeps the descriptor on its
    file. *)
Lemma WriteFully_other w fd data w' fd' :
  WriteFully w fd data = Some (w', fd') ->
  out_path fd' = out_path fd
  /\ forall path, path <> out_path fd -> files w' !! path = files w !! path.
Proof.
  unfold WriteFully. destruct data as [|b data]; [by intros [= <- <-]|].
  destruct (files w !! out_path fd); [|done].
  destruct (may_write _ _ _ _); [|done].
  intros [= <- <-]. cbn. split; [done|].
  intros path Hne. by rewrite lookup_insert_ne.
Qed.

(** How a write changes the length of the file it goes to. *)
Lemma WriteFully_size w fd data w' fd' content :
  files w !! out_path fd = Some content -> 0 <= out_pos fd ->
  WriteFully w fd data = Some (w', fd') ->
  exists content',
    files w' !! out_path fd = Some content'
    /\ Z.of_nat (length content) <= Z.of_nat (length content')
       <= Z.max (Z.of_nat (length content)) (out_pos fd + Z.of_nat (length data))
    /\ (0 < Z.of_nat (length data) ->
        Z.of_nat (length content')
        = Z.max (Z.of_nat (length content)) (out_pos fd + Z.of_nat (length data))).
Proof.
  intros Hc Hpos. unfold WriteFully. destruct data as [|b data].
  { intros [= <- <-]. exists content. cbn [length]. split; [done|]. lia. }
  rewrite Hc. destruct (may_write _ _ _ _); [|done].
  intros [= <- <-]. cbn [files]. eexists. split; [apply lookup_insert_eq|].
  rewrite length_write_at by done. lia.
Qed.

(** A successful seek to an offset below half the range of [off_t] moves the
    descriptor there. *)
Lemma Seek_ok e fd offset fd' :
  0 <= offset < wmod kClass / 2 ->
  Seek kClass e fd offset = (true, fd') ->
  fd' = mkOutFd (out_path fd) offset.
Proof.
  intros Ho. unfold Seek, lseek. rewrite to_long_small by done.
  destruct ((0 <=? offset) && may_seek e (out_path fd) offset).
  - rewrite Z.eqb_refl. by intros [= <-].
  - replace (-1 =? offset) with false by blia. done.
Qed.

Lemma WriteAuxv_other w note_buf output_path w' path content :
  files w !! path = Some content ->
  WriteAuxv w note_buf output_path = (true, w') ->
  files w' !! path = Some content.
Proof.
  intros Hc. unfold WriteAuxv, open_excl.
  destruct (negb (IsValid _)); [done|].
  destruct (files w !! output_path) eqn:Ef; [done|].
  destruct (may_create _ _); [|done].
  destruct (WriteFully _ _ _) as [[w1 fd1]|] eqn:Ew; [|done].
  intros [= <-]. apply WriteFully_other in Ew as [_ Ho]. cbn in Ho.
  assert (path <> output_path) by congruence.
  rewrite Ho by done. by rewrite lookup_insert_ne.
Qed.

Lemma WriteMaps_loop_other fm phs w fd w' path :
  path <> out_path fd ->
  WriteMaps_loop kClass w fd phs fm = (true, w') ->
  files w' !! path = files w !! path.
Proof.
  intros Hne. revert w fd Hne.
  induction phs as [|ph phs IH]; intros w fd Hne; cbn [WriteMaps_loop].
  { by intros [= <-]. }
  destruct (negb (p_type ph =? PT_LOAD)); [by apply IH|].
  destruct (snprintf _ _) as [len buf].
  destruct ((len <? 0) || (len >? maps_kBufSize)); [done|].
  destruct (WriteFully w fd _) as [[w1 fd1]|] eqn:Ew; [|done].
  apply WriteFully_other in Ew as [Hp Ho].
  intros Hrun. apply IH in Hrun; [|congruence]. rewrite Hrun. by apply Ho.
Qed.

Lemma WriteMaps_other fm phs w output_path w' path content :
  files w !! path = Some content ->
  WriteMaps kClass w phs fm output_path = (true, w') ->
  files w' !! path = Some content.
Proof.
  intros Hc. unfold WriteMaps, open_excl.
  destruct (files w !! output_path) eqn:Ef; [done|].
  destruct (may_create _ _); [|done].
  assert (path <> output_path) by congruence.
  intros Hrun. apply (WriteMaps_loop_other _ _ _ _ _ path) in Hrun; [|done].
  rewrite Hrun. cbn. by rewrite lookup_insert_ne.
Qed.

(** The program-header table ends where [i + length phs] records end. *)
Lemma write_program_headers_size phs w fd i w' fd' content :
  files w !! out_path fd = Some content ->
  sizeof_Ehdr kClass + (Z.of_nat i + Z.of_nat (length phs)) * sizeof_Phdr kClass
  < wmod kClass / 2 ->
  write_program_headers kClass w fd (sizeof_Phdr kClass) i phs = (None, w', fd') ->
  out_path fd' = out_path fd
  /\ exists content',
       files w' !! out_path fd = Some content'
       /\ Z.of_nat (length content) <= Z.of_nat (length content')
          <= Z.max (Z.of_nat (length content))
                   (sizeof_Ehdr kClass
                    + (Z.of_nat i + Z.of_nat (length phs)) * sizeof_Phdr kClass).
Proof.
  pose proof sizeof_Ehdr_small as HE. pose proof sizeof_Phdr_pos as HP.
  pose proof (wmod_half kClass) as HW. pose proof kMaxCoredumpSize_value as HK.
  revert w fd i content.
  induction phs as [|ph phs IH]; intros w fd i content Hc Hbound;
    cbn [write_program_headers length] in *.
  { intros [= <- <-]. split; [done|]. exists content. split; [done|]. lia. }
  set (offset := sizeof_Ehdr kClass + Z.of_nat i * sizeof_Phdr kClass).
  assert (Hoff : 0 <= offset < wmod kClass / 2) by (subst offset; nia).
  rewrite (to_size_t_small kClass offset) by lia.
  destruct (Seek kClass _ fd offset) as [[|] fd1] eqn:Es; [|done].
  apply Seek_ok in Es as ->; [|done].
  destruct (WriteFully w _ _) as [[w1 fd2]|] eqn:Ew; [|done].
  pose proof Ew as Ew'. apply WriteFully_other in Ew' as [Hp _].
  eapply WriteFully_size in Ew as (content1 & Hc1 & Hlen1 & _); [| exact Hc | cbn; lia].
  cbn [out_path out_pos] in *. rewrite length_encode_Phdr in Hlen1.
  intros Hrun. apply (IH _ _ _ content1) in Hrun; [| by rewrite Hp | lia].
  rewrite Hp in Hrun. destruct Hrun as (Hp' & content' & Hc' & Hlen').
  split; [done|]. exists content'. split; [done|]. subst offset. lia.
Qed.

(** The invariant of the loop over the segments when the filtered entries are
    laid out one after the other: the file ends no later than the entry
    handled last, and exactly there when that entry has bytes. *)
Lemma write_segments_size segments prev reader w fd i reader' w' fd' content :
  files w !! out_path fd = Some content ->
  0 <= segment_end prev -> 0 <= p_filesz prev ->
  Z.of_nat (length content) <= segment_end prev ->
  (0 < p_filesz prev -> Z.of_nat (length content) = segment_end prev) ->
  laid_out prev (map fst segments) ->
  segment_end (List.last (map fst segments) prev) < wmod kClass / 2 ->
  write_segments kClass reader w fd i segments = (None, reader', w', fd') ->
  exists content',
    files w' !! out_path fd = Some content'
    /\ Z.of_nat (length content') <= segment_end (List.last (map fst segments) prev)
    /\ (0 < p_filesz (List.last (map fst segments) prev) ->
        Z.of_nat (length content')
        = segment_end (List.last (map fst segments) prev)).
Proof.
  revert prev reader w fd i content.
  induction segments as [|[ph original] segments IH];
    intros prev reader w fd i content Hc Hprev Hpf Hle Heq Hlaid Hbound.
  { cbn. intros [= <- <- <-]. by exists content. }
  cbn [map fst laid_out] in Hlaid. destruct Hlaid as (Hstart & Hfs & Hlaid).
  cbn [map fst] in Hbound |- *. rewrite List_last_cons in Hbound |- *.
  destruct (laid_out_last ph (map fst segments) Hfs Hlaid) as [Hend _].
  cbn [write_segments]. unfold segment_end in *.
  destruct (p_filesz ph >? 0) eqn:Efs.
  - rewrite Z.gtb_ltb in Efs. apply Z.ltb_lt in Efs.
    destruct (FdReader_Seek kClass reader (p_offset original)) as [[|] r1]; [|done].
    destruct (Seek kClass _ fd (p_offset ph)) as [[|] fd1] eqn:Es; [|done].
    apply Seek_ok in Es as ->; [|lia].
    destruct (FdReader_CopyTo kClass r1 _ (p_filesz ph))
      as [[[|] r2] [[w2 fd2]|]] eqn:Ec; try done.
    apply (CopyTo_loop_write _ _ _ _ _ _ content) in Ec as (Hn & _ & [= -> ->]);
      [| done | cbn; lia | done].
    cbn [out_path out_pos]. intros Hrun.
    eapply (IH ph) in Hrun;
      [| cbn [files out_path]; apply lookup_insert_eq | | | | | |];
      cbn [out_path] in *; try done; try lia;
      rewrite length_write_at, length_take by lia; lia.
  - rewrite Z.gtb_ltb in Efs. apply Z.ltb_ge in Efs.
    intros Hrun. eapply (IH ph) in Hrun; [exact Hrun | exact Hc | | | | | |];
      try done; lia.
Qed.

Lemma map_fst_combine {A B} (l : list A) (k : list B) :
  length l = length k -> map fst (combine l k) = l.
Proof.
  revert k. induction l as [|a l IH]; intros [|b k] Hlen; cbn in *; try done.
  f_equal. apply IH. lia.
Qed.

(** X25. A successful run of [WriteCoredumpToFD] on a fresh, empty
    destination returns the expected size, offset plus file size of the last
    filtered entry.  When the input is shorter than the range of [size_t] and
    the recomputed layout does not wrap, the destination file is never longer
    than the expected size, and it is exactly that long when the last
    filtered entry has a non-zero file size. *)
Theorem WriteCoredumpToFD_size cw w fd_dest size w' elf_header first rest
    note_buf reader fm filtered :
  files w !! out_path fd_dest = Some [] -> out_pos fd_dest = 0 ->
  ReadUntilNote kClass (env w) (mkFdReader (fd_src_ cw) 0)
  = Returns (Some (elf_header, first :: rest, note_buf), reader) ->
  GetFileMappings kClass note_buf ∅ = Some fm ->
  FilterSegments kClass (first :: rest) fm = Some filtered ->
  WriteCoredumpToFD kClass cw w fd_dest = (Written size, w') ->
  size = expected_coredump_size kClass filtered
  /\ ssize_of kClass (Written size) = Some size
  /\ (input_fits kClass cw -> layout_fits kClass fm first rest ->
      exists content,
        files w' !! out_path fd_dest = Some content
        /\ Z.of_nat (length content) <= size
        /\ (0 < p_filesz (List.last filtered first) ->
            Z.of_nat (length content) = size)).
Proof.
  intros Hempty Hpos0 Hread0 Hfm0 Hfilt0 Hrun.
  pose proof sizeof_Ehdr_small as HE. pose proof sizeof_Phdr_pos as HP.
  pose proof (wmod_half kClass) as HW.
  apply WriteCoredumpToFD_Written in Hrun
    as (eh & phs & nb & rd & fm' & filtered' & w1 & w2 & w3 & fd3 & w4 & fd4 & fd5
        & w6 & fd6 & rd' & fd7 & Hread & Hfm & Hfilt & Hsize & Hfree & Hlimit
        & Hauxv & Hmaps & Hwe & Hwp & Hseek & Hwn & Hseg).
  rewrite Hread0 in Hread. injection Hread as <- <- <- <-.
  rewrite Hfm0 in Hfm. injection Hfm as <-.
  rewrite Hfilt0 in Hfilt. injection Hfilt as <-.
  rename Hread0 into Hread, Hfilt0 into Hfilt.
  pose proof Hread as Hread'.
  apply ReadUntilNote_ok in Hread'
    as (first' & rest' & [= <- <-] & Hok & _ & Hnb & Heh & Hphent & Hfits).
  split; [done|].
  assert (Hsmall : 0 <= size <= kMaxCoredumpSize).
  { split.
    - rewrite Hsize. unfold expected_coredump_size.
      destruct (last filtered); [apply to_size_t_range | lia].
    - unfold coredump_size_limit in Hlimit. lia. }
  split; [cbn [ssize_of]; f_equal; apply to_long_small; lia|].
  intros Hinput [Hoffsets Hend].
  destruct (Hfits Hinput) as [Htable Hnote_end]. clear Hfits.
  injection Hfilt as <-.
  apply Forall_cons in Hok as [Hfirst Hok].
  destruct Hfirst as (_ & _ & Hfo & _ & _ & Hff & _).
  pose proof (filter_from_laid_out kClass fm first rest (proj1 Hfo) (proj1 Hff) Hok Hoffsets)
    as Hlaid.
  destruct (laid_out_last first _ (proj1 Hff) Hlaid) as [Hmono Hlastfs].
  rewrite List_last_cons.
  set (back := List.last (filter_from kClass fm first rest) first) in *.
  assert (Hexp : size = segment_end back).
  { rewrite Hsize. unfold expected_coredump_size. rewrite last_List_last.
    fold back. apply to_size_t_small. unfold segment_end in *. lia. }
  unfold segment_end in Hmono, Hexp, Hnote_end.
  (* the proc files leave the destination empty *)
  pose proof (WriteAuxv_other _ _ _ _ _ _ Hempty Hauxv) as Hc1.
  pose proof (WriteMaps_other _ _ _ _ _ _ _ Hc1 Hmaps) as Hc2.
  (* the ELF header *)
  pose proof (WriteFully_other _ _ _ _ _ Hwe) as [Hp3 _].
  eapply WriteFully_size in Hwe as (c3 & Hc3 & Hlen3 & _); [| exact Hc2 | lia].
  rewrite Hpos0, Heh in Hlen3. cbn [length] in Hlen3.
  (* the program headers *)
  rewrite Hphent in Hwp. rewrite <- Hp3 in Hc3.
  eapply write_program_headers_size in Hwp as (Hp4 & c4 & Hc4 & Hlen4);
    [| exact Hc3 |].
  2:{ cbn [length] in Htable |- *. rewrite length_filter_from. lia. }
  cbn [length] in Hlen4, Htable. rewrite length_filter_from in Hlen4.
  (* the NOTE segment *)
  cbn [head default from_option id] in Hseek.
  apply Seek_ok in Hseek as ->; [|lia].
  pose proof (WriteFully_other _ _ _ _ _ Hwn) as [Hp6 _]. cbn [out_path] in Hp6.
  eapply WriteFully_size in Hwn as (c6 & Hc6 & Hlen6 & Heq6);
    [| cbn [out_path]; rewrite Hp4; exact Hc4 | cbn; lia].
  cbn [out_path out_pos] in Hc6, Hlen6, Heq6. rewrite Hnb in Hlen6, Heq6.
  (* the other segments *)
  cbn [tail] in Hseg.
  eapply (write_segments_size _ first) in Hseg;
    [| rewrite Hp6; exact Hc6 | | | | | |];
    rewrite ?map_fst_combine by (by rewrite length_filter_from);
    unfold segment_end; try done; try lia; try (fold back; lia).
  rewrite Hp6, Hp4, Hp3 in Hseg.
  destruct Hseg as (content & Hc & Hle & Heq).
  assert (Hfst : map fst (combine (filter_from kClass fm first rest) rest)
                 = filter_from kClass fm first rest)
    by (apply map_fst_combine, length_filter_from).
  rewrite Hfst in Hle, Heq. fold back in Hle, Heq.
  exists content. unfold segment_end in Hle, Heq. rewrite Hexp.
  split; [exact Hc|]. split; [exact Hle | exact Heq].
Qed.

End RunFacts.

(** ** The properties on the sample inputs *)

Import Sample.

(** C3. On a note that lists the same range twice, with the names [a] and
    [b], [GetFileMappings] maps the range to the byte offset of the second
    entry and to the path [ab]: the path of the second entry is appended to
    that of the first instead of replacing it. *)
Lemma GetFileMappings_duplicate_range :
  GetFileMappings ELFCLASS64 duplicate_notes ∅
  = Some {[ (0x1000, 0x2000) := FileInfo.mk 8192 (list_byte_of_string "ab") ]}.
Proof. vm_compute. reflexivity. Qed.

(** On [wrapping_headers] the second offset is below the first, and on
    [misaligned_note] entry 0 has a non-zero alignment that does not divide its
    offset. *)
Lemma FilterSegments_offsets_counterexample :
  (exists out a b,
      FilterSegments ELFCLASS64 wrapping_headers ∅ = Some out
      /\ out !! 0%nat = Some a /\ out !! 1%nat = Some b
      /\ p_offset b < p_offset a)
  /\ (exists out o,
         FilterSegments ELFCLASS64 misaligned_note ∅ = Some out
         /\ out !! 0%nat = Some o
         /\ p_align o <> 0 /\ p_offset o mod p_align o <> 0).
Proof.
  split.
  - eexists _, _, _. split; [reflexivity|]. split; [reflexivity|].
    split; [reflexivity|]. by_compute.
  - eexists _, _. split; [reflexivity|]. split; [reflexivity|].
    split; by_compute.
Qed.

(** The offsets of the filtered sample headers: no wrap, non-decreasing,
    aligned from index 1 on, entry 0 as in the input. *)
Lemma FilterSegments_offsets_witness :
  exists out,
    FilterSegments ELFCLASS64 headers mappings = Some out
    /\ (forall (i : nat) a b,
           out !! i = Some a -> out !! S i = Some b -> p_offset a <= p_offset b)
    /\ (forall (i : nat) o,
           (1 <= i)%nat -> out !! i = Some o -> p_align o <> 0 ->
           p_offset o mod p_align o = 0)
    /\ out !! 0%nat = Some (mkPhdr PT_NOTE 0 232 0 0 104 0 0).
Proof.
  eexists. split; [reflexivity|].
  apply (FilterSegments_offsets ELFCLASS64 mappings
           (mkPhdr PT_NOTE 0 232 0 0 104 0 0)
           [mkPhdr PT_LOAD 5 336 0x400000 0 16 0x1000 16;
            mkPhdr PT_LOAD 6 352 0x7000000 0 32 0x1000 16]).
  - repeat constructor; by_compute.
  - vm_compute. reflexivity.
  - reflexivity.
Defined.



(** A note without names: the access to the first byte of the first path is
    out of range, and decoding succeeds with an empty path. *)
Lemma GetFileMappings_missing_names_counterexample :
  let note := FindNote NT_FILE nameless_notes in
  GetData (GetDescription note)
          (long_at ELFCLASS64 (2 + 3 * note_file_count ELFCLASS64 note)) 1 = None
  /\ GetFileMappings ELFCLASS64 nameless_notes ∅
     = Some {[ (0x400000, 0x401000) := FileInfo.mk 12288 [] ]}.
Proof. split; vm_compute; reflexivity. Qed.

(** A note that announces two files and holds one triple is rejected; a note
    whose words are all present is decoded although its names are missing. *)
Lemma GetFileMappings_word_out_of_range_witness :
  GetFileMappings ELFCLASS64 short_notes ∅ = None
  /\ is_Some (GetFileMappings ELFCLASS64 nameless_notes ∅).
Proof.
  split.
  - apply (proj1 (GetFileMappings_word_out_of_range ELFCLASS64 short_notes ∅)).
    exists 5. split; [|vm_compute; reflexivity].
    right; right. by_compute.
  - apply (proj2 (GetFileMappings_word_out_of_range ELFCLASS64 nameless_notes ∅)).
    + vm_compute. reflexivity.
    + assert (E : note_file_count ELFCLASS64 (FindNote NT_FILE nameless_notes) = 1)
        by (vm_compute; reflexivity).
      intros k [-> | [-> | Hk]]; [by_compute | by_compute |].
      rewrite E in Hk.
      assert (Hcases : k = 2 \/ k = 3 \/ k = 4) by lia.
      destruct Hcases as [-> | [-> | ->]]; by_compute.
Defined.


(** A page size of -1 stored in the note makes the run fail. *)
Lemma GetFileMappings_stored_minus_one_witness :
  GetFileMappings ELFCLASS64 minus_one_notes ∅ = None
  /\ fst (WriteCoredumpToFD ELFCLASS64 (writer minus_one_input) (world 1000000) fd_dest)
     = Failed FailedToGetFileMappings
  /\ ssize_of ELFCLASS64
       (fst (WriteCoredump ELFCLASS64 (writer minus_one_input) (world 1000000)))
     = Some (-1).
Proof.
  assert (Hread : ReadUntilNote ELFCLASS64 (env_free 1000000) (mkFdReader (fd_src_ (writer minus_one_input)) 0)
                  = Returns (Some (take 64 minus_one_input, headers, minus_one_notes),
                     mkFdReader (mkSource (replicate 16 x02 ++ replicate 32 x03) false) 336))
    by (vm_compute; reflexivity).
  assert (Hword : file_note_word ELFCLASS64 (FindNote NT_FILE minus_one_notes) 1)
    by (right; left; reflexivity).
  assert (Hstored : long_stored_minus_one ELFCLASS64 (FindNote NT_FILE minus_one_notes) 1)
    by (exists (replicate 8 xff); split; vm_compute; reflexivity).
  exact (GetFileMappings_stored_minus_one ELFCLASS64 (writer minus_one_input)
           (world 1000000) fd_dest _ _ _ _ 1 Hread Hword Hstored).
Defined.

(** Two kept segments stored in reverse order: the run fails. *)
Lemma WriteCoredumpToFD_forward_only_witness :
  forward_order ELFCLASS64 (consumed_after_note ELFCLASS64 (mkPhdr PT_NOTE 0 232 0 0 104 0 0))
    (combine (tail (mkPhdr PT_NOTE 0 232 0 0 104 0 0
                    :: filter_from ELFCLASS64 mappings (mkPhdr PT_NOTE 0 232 0 0 104 0 0)
                                   (tail backward_headers)))
             (tail backward_headers)) = false
  /\ (exists why,
         fst (WriteCoredumpToFD ELFCLASS64 (writer backward_input) (world 1000000) fd_dest)
         = Failed why)
  /\ ssize_of ELFCLASS64
       (fst (WriteCoredump ELFCLASS64 (writer backward_input) (world 1000000)))
     = Some (-1).
Proof.
  assert (Hread : ReadUntilNote ELFCLASS64 (env_free 1000000) (mkFdReader (fd_src_ (writer backward_input)) 0)
                  = Returns (Some (take 64 backward_input,
                           mkPhdr PT_NOTE 0 232 0 0 104 0 0 :: tail backward_headers,
                           notes),
                     mkFdReader (mkSource (replicate 32 x03 ++ replicate 16 x02) false) 336))
    by (vm_compute; reflexivity).
  assert (Hfm : GetFileMappings ELFCLASS64 notes ∅ = Some mappings)
    by (vm_compute; reflexivity).
  assert (Hback : forward_order ELFCLASS64
                    (consumed_after_note ELFCLASS64 (mkPhdr PT_NOTE 0 232 0 0 104 0 0))
                    (combine (tail (mkPhdr PT_NOTE 0 232 0 0 104 0 0
                                    :: filter_from ELFCLASS64 mappings
                                         (mkPhdr PT_NOTE 0 232 0 0 104 0 0)
                                         (tail backward_headers)))
                             (tail backward_headers)) = false)
    by (vm_compute; reflexivity).
  split; [exact Hback|].
  exact (proj2 (WriteCoredumpToFD_forward_only ELFCLASS64 (writer backward_input)
                  (world 1000000) fd_dest _ _ _ _ _ _ _ Hread Hfm eq_refl) Hback).
Defined.

(** C6. The value that a successful run returns is the expected size,
    offset plus file size of the last filtered entry, but the destination
    file need not be that long.  A run on [backed_input] succeeds and returns
    4096, the expected size, while the destination file is 280 bytes long:
    the only LOAD is dropped, and nothing is written after the NOTE segment.
    A run on [wrapping_input], where the offset of the last entry wraps
    around to 0, succeeds and returns 16, while the destination file is 336
    bytes long and starts with the bytes of the last segment instead of the
    magic number of an ELF header. *)
Theorem WriteCoredumpToFD_size_differs :
  (exists w' content filtered,
      WriteCoredumpToFD ELFCLASS64 (writer backed_input) (opened 1000000) fd_dest
      = (Written 4096, w')
      /\ FilterSegments ELFCLASS64 backed_headers mappings = Some filtered
      /\ expected_coredump_size ELFCLASS64 filtered = 4096
      /\ files w' !! "/data/core"%string = Some content
      /\ Z.of_nat (length content) = 280)
  /\ (exists w' content filtered,
         WriteCoredumpToFD ELFCLASS64 (writer wrapping_input) (opened 1000000) fd_dest
         = (Written 16, w')
         /\ FilterSegments ELFCLASS64 wrapping_layout mappings = Some filtered
         /\ expected_coredump_size ELFCLASS64 filtered = 16
         /\ files w' !! "/data/core"%string = Some content
         /\ Z.of_nat (length content) = 336
         /\ take 4 content = replicate 4 x02).
Proof.
  split.
  - eexists _, _, _. split; [|split; [|split; [|split]]].
    + vm_compute; reflexivity.
    + vm_compute; reflexivity.
    + vm_compute; reflexivity.
    + vm_compute; reflexivity.
    + vm_compute; reflexivity.
  - eexists _, _, _. split; [|split; [|split; [|split; [|split]]]].
    + vm_compute; reflexivity.
    + vm_compute; reflexivity.
    + vm_compute; reflexivity.
    + vm_compute; reflexivity.
    + vm_compute; reflexivity.
    + vm_compute; reflexivity.
Qed.

(** A run on [input], whose last entry is kept: the destination file is as
    long as the size returned. *)
Lemma WriteCoredumpToFD_size_witness :
  368 = expected_coredump_size ELFCLASS64
          (mkPhdr PT_NOTE 0 232 0 0 104 0 0
           :: filter_from ELFCLASS64 mappings (mkPhdr PT_NOTE 0 232 0 0 104 0 0)
                          (tail headers))
  /\ ssize_of ELFCLASS64 (Written 368) = Some 368
  /\ exists content,
      files (WriteCoredumpToFD ELFCLASS64 (writer input) (opened 1000000) fd_dest).2
        !! "/data/core"%string = Some content
      /\ Z.of_nat (length content) <= 368
      /\ (0 < p_filesz (List.last
                          (mkPhdr PT_NOTE 0 232 0 0 104 0 0
                           :: filter_from ELFCLASS64 mappings
                                (mkPhdr PT_NOTE 0 232 0 0 104 0 0) (tail headers))
                          (mkPhdr PT_NOTE 0 232 0 0 104 0 0)) ->
          Z.of_nat (length content) = 368).
Proof.
  assert (Hread : ReadUntilNote ELFCLASS64 (env_free 1000000) (mkFdReader (fd_src_ (writer input)) 0)
                  = Returns (Some (take 64 input,
                           mkPhdr PT_NOTE 0 232 0 0 104 0 0 :: tail headers, notes),
                     mkFdReader (mkSource (replicate 16 x02 ++ replicate 32 x03) false) 336))
    by (vm_compute; reflexivity).
  assert (Hfm : GetFileMappings ELFCLASS64 notes ∅ = Some mappings)
    by (vm_compute; reflexivity).
  assert (Hrun : WriteCoredumpToFD ELFCLASS64 (writer input) (opened 1000000) fd_dest
                 = (Written 368,
                    (WriteCoredumpToFD ELFCLASS64 (writer input) (opened 1000000) fd_dest).2))
    by (vm_compute; reflexivity).
  assert (Hinput : input_fits ELFCLASS64 (writer input)) by by_compute.
  assert (Hlayout : layout_fits ELFCLASS64 mappings (mkPhdr PT_NOTE 0 232 0 0 104 0 0)
                                (tail headers)) by by_compute.
  pose proof (WriteCoredumpToFD_size ELFCLASS64 (writer input) (opened 1000000) fd_dest
                368 _ _ _ _ _ _ _ _ eq_refl eq_refl Hread Hfm eq_refl Hrun)
    as (H1 & H2 & H3).
  split; [exact H1|]. split; [exact H2|]. exact (H3 Hinput Hlayout).
Defined.

(** Four maps files.  The range of the
    entry is a key of the mappings, with byte offset 0: the offset field of
    its line is 0 although the range is present.  A path that holds a newline
    byte gives two lines for one LOAD entry.  A line of 1024 bytes is written
    without its newline byte, a zero byte in its place.  Of a path that holds
    a zero byte, only the bytes before it are printed. *)
Lemma WriteMaps_lines_counterexample :
  let ph := mkPhdr PT_LOAD 5 336 0x400000 0 16 0x1000 16 in
  (is_Some (mappings !! (0x400000, 0x400000 + 0x1000))
   /\ exists w',
       WriteMaps ELFCLASS64 (world 1) [ph] mappings "/data/proc/maps" = (true, w')
       /\ files w' !! "/data/proc/maps"%string
          = Some (list_byte_of_string "00400000-00401000 r-xp 00000000 00:00 0 /bin/x"
                  ++ [x0a]))
  /\ (GetFileMappings ELFCLASS64 SampleFiles.newline_notes ∅
      = Some SampleFiles.newline_mappings
      /\ exists w' content,
          WriteMaps ELFCLASS64 (world 1) [ph] SampleFiles.newline_mappings
                    "/data/proc/maps" = (true, w')
          /\ files w' !! "/data/proc/maps"%string = Some content
          /\ length (load_entries [ph]) = 1%nat
          /\ newline_count content = 2%nat)
  /\ (GetFileMappings ELFCLASS64 SampleFiles.long_notes ∅
      = Some SampleFiles.long_mappings
      /\ exists w' content,
          WriteMaps ELFCLASS64 (world 1) [ph] SampleFiles.long_mappings
                    "/data/proc/maps" = (true, w')
          /\ files w' !! "/data/proc/maps"%string = Some content
          /\ Z.of_nat (length content) = 1024
          /\ newline_count content = 0%nat
          /\ List.last content x01 = x00)
  /\ (exists w',
         WriteMaps ELFCLASS64 (world 1) [ph] SampleFiles.zero_byte_mappings
                   "/data/proc/maps" = (true, w')
         /\ files w' !! "/data/proc/maps"%string
            = Some (list_byte_of_string "00400000-00401000 r-xp 00000000 00:00 0 /a"
                    ++ [x0a])).
Proof.
  intros ph. split; [|split; [|split]].
  - split; [by eexists|]. eexists. split; vm_compute; reflexivity.
  - split; [vm_compute; reflexivity|].
    eexists _, _. split; [|split; [|split]].
    + vm_compute; reflexivity.
    + vm_compute; reflexivity.
    + vm_compute; reflexivity.
    + vm_compute; reflexivity.
  - split; [vm_compute; reflexivity|].
    eexists _, _. split; [|split; [|split; [|split]]].
    + vm_compute; reflexivity.
    + vm_compute; reflexivity.
    + vm_compute; reflexivity.
    + vm_compute; reflexivity.
    + vm_compute; reflexivity.
  - eexists. split; vm_compute; reflexivity.
Qed.

(** The maps file of the sample headers: two lines. *)
Lemma WriteMaps_lines_witness :
  exists texts,
    files (WriteMaps ELFCLASS64 (world 1) headers mappings "/data/proc/maps").2
      !! "/data/proc/maps"%string
    = Some (unlines texts)
    /\ Forall2 (is_maps_line ELFCLASS64 mappings) (load_entries headers) texts
    /\ Forall (fun text => x0a ∉ text) texts
    /\ newline_count (unlines texts) = 2%nat.
Proof.
  assert (Hlines : Forall (fun ph => p_type ph = PT_LOAD ->
                                     ~ fills_buffer (maps_line ELFCLASS64 mappings ph))
                          headers)
    by (repeat constructor; intros _; by_compute).
  assert (Hpaths : Forall (fun ph => p_type ph = PT_LOAD ->
                                     x0a ∉ maps_path ELFCLASS64 mappings ph)
                          headers).
  { repeat constructor; intros _ Hin; vm_compute in Hin;
      repeat (apply elem_of_cons in Hin as [Hin | Hin]; [discriminate|]);
      by apply elem_of_nil in Hin. }
  assert (Hrun : WriteMaps ELFCLASS64 (world 1) headers mappings "/data/proc/maps"
                 = (true, (WriteMaps ELFCLASS64 (world 1) headers mappings
                                     "/data/proc/maps").2))
    by (vm_compute; reflexivity).
  exact (WriteMaps_lines ELFCLASS64 (world 1) headers mappings
           "/data/proc/maps" _ Hlines Hpaths Hrun).
Defined.

(** The filtered sample headers: three entries; the LOAD at 0x400000 with
    0x1000 bytes of memory has file size 0 and keeps its memory size, since
    the pair (0x400000, 0x401000) is a key of the mappings; the LOAD at
    0x7000000 keeps its file size. *)
Lemma FilterSegments_same_entries_witness :
  exists out,
    FilterSegments ELFCLASS64 headers mappings = Some out
    /\ length out = 3%nat
    /\ (exists o, out !! 1%nat = Some o /\ p_filesz o = 0 /\ p_memsz o = 0x1000)
    /\ (exists o, out !! 2%nat = Some o /\ p_filesz o = 32).
Proof.
  destruct (FilterSegments_same_entries ELFCLASS64 mappings
              (mkPhdr PT_NOTE 0 232 0 0 104 0 0) (tail headers))
    as (out & Hout & Hlen & _ & Hall).
  exists out. split; [exact Hout|]. split; [exact Hlen|]. split.
  - destruct (Hall 1%nat (mkPhdr PT_LOAD 5 336 0x400000 0 16 0x1000 16)
                (le_n 1) eq_refl)
      as (o & Ho & _ & _ & _ & Hmem & _ & _ & _ & Hplain).
    exists o. split; [exact Ho|]. split; [|exact Hmem].
    rewrite Hplain by by_compute. reflexivity.
  - destruct (Hall 2%nat (mkPhdr PT_LOAD 6 352 0x7000000 0 32 0x1000 16)
                (le_S 1 1 (le_n 1)) eq_refl)
      as (o & Ho & _ & _ & _ & _ & _ & _ & _ & Hplain).
    exists o. split; [exact Ho|].
    rewrite Hplain by by_compute. reflexivity.
Defined.

(** ** What a run does to the file system *)

Section WorldFacts.

Variable kClass : ElfClass.
Implicit Types (fm : gmap (Z * Z) FileInfo.t) (w : World) (fd : OutFd)
  (cw : CoredumpWriter) (path p : string).

Lemma only_writes_refl path w : only_writes path w w.
Proof. by unfold only_writes. Qed.

Lemma only_writes_trans path w1 w2 w3 :
  only_writes path w1 w2 -> only_writes path w2 w3 -> only_writes path w1 w3.
Proof.
  intros (He1 & Hv1 & Ho1 & Hs1) (He2 & Hv2 & Ho2 & Hs2).
  split; [congruence|]. split; [congruence|]. split.
  - intros p Hp. by rewrite Ho2, Ho1.
  - intros H. by apply Hs2, Hs1.
Qed.

Lemma WriteFully_only_writes w fd data w' fd' :
  WriteFully w fd data = Some (w', fd') ->
  out_path fd' = out_path fd /\ only_writes (out_path fd) w w'.
Proof.
  unfold WriteFully. destruct data as [|b data].
  { intros [= <- <-]. split; [done | apply only_writes_refl]. }
  destruct (files w !! out_path fd) eqn:Ef; [|done].
  destruct (may_write _ _ _ _); [|done].
  intros [= <- <-]. cbn. split; [done|].
  repeat split; cbn; try done.
  - intros p Hp. by rewrite lookup_insert_ne.
  - intros _. rewrite lookup_insert_eq. by eexists.
Qed.

Lemma Seek_path e fd offset b fd' :
  Seek kClass e fd offset = (b, fd') -> out_path fd' = out_path fd.
Proof.
  unfold Seek, lseek.
  destruct ((0 <=? to_long kClass offset) && may_seek e _ _); by intros [= _ <-].
Qed.

(** [CopyTo] into a file touches that file only, whether it succeeds or
    not. *)
Lemma CopyTo_loop_only_writes fuel r w fd num_bytes b r' dest' :
  CopyTo_loop kClass fuel r (Some (w, fd)) num_bytes = (b, r', dest') ->
  exists w' fd',
    dest' = Some (w', fd') /\ out_path fd' = out_path fd
    /\ only_writes (out_path fd) w w'.
Proof.
  revert r w fd num_bytes.
  induction fuel as [|fuel IH]; intros r w fd n; cbn [CopyTo_loop].
  { intros [= _ _ <-]. exists w, fd. split; [done|]. split; [done|].
    apply only_writes_refl. }
  destruct (0 <? n).
  2:{ intros [= _ _ <-]. exists w, fd. split; [done|]. split; [done|].
      apply only_writes_refl. }
  destruct (read (fd_ r) _) as [[rv buf] src].
  destruct (rv =? 0).
  { intros [= _ _ <-]. exists w, fd. split; [done|]. split; [done|].
    apply only_writes_refl. }
  destruct (rv =? -1).
  { intros [= _ _ <-]. exists w, fd. split; [done|]. split; [done|].
    apply only_writes_refl. }
  destruct (WriteFully w fd buf) as [[w1 fd1]|] eqn:Ew.
  2:{ intros [= _ _ <-]. exists w, fd. split; [done|]. split; [done|].
      apply only_writes_refl. }
  apply WriteFully_only_writes in Ew as [Hp Ho].
  intros Hrun. apply IH in Hrun as (w' & fd' & -> & Hp' & Ho').
  rewrite Hp in Hp', Ho'. exists w', fd'. split; [done|]. split; [done|].
  by eapply only_writes_trans.
Qed.

Lemma write_program_headers_only_writes phs w fd e i why w' fd' :
  write_program_headers kClass w fd e i phs = (why, w', fd') ->
  out_path fd' = out_path fd /\ only_writes (out_path fd) w w'.
Proof.
  revert w fd i. induction phs as [|ph phs IH]; intros w fd i;
    cbn [write_program_headers].
  { intros [= _ <- <-]. split; [done | apply only_writes_refl]. }
  destruct (Seek kClass _ fd _) as [[|] fd1] eqn:Es; apply Seek_path in Es.
  2:{ intros [= _ <- <-]. split; [done | apply only_writes_refl]. }
  destruct (WriteFully w fd1 _) as [[w1 fd2]|] eqn:Ew.
  2:{ intros [= _ <- <-]. split; [done | apply only_writes_refl]. }
  apply WriteFully_only_writes in Ew as [Hp Ho]. rewrite Es in Hp, Ho.
  intros Hrun. apply IH in Hrun as [Hp' Ho']. rewrite Hp in Hp', Ho'.
  split; [done|]. by eapply only_writes_trans.
Qed.

Lemma write_segments_only_writes segments reader w fd i why reader' w' fd' :
  write_segments kClass reader w fd i segments = (why, reader', w', fd') ->
  out_path fd' = out_path fd /\ only_writes (out_path fd) w w'.
Proof.
  revert reader w fd i.
  induction segments as [|[ph original] segments IH]; intros reader w fd i;
    cbn [write_segments].
  { intros [= _ _ <- <-]. split; [done | apply only_writes_refl]. }
  destruct (p_filesz ph >? 0); [|apply IH].
  destruct (FdReader_Seek kClass reader _) as [[|] r1].
  2:{ intros [= _ _ <- <-]. split; [done | apply only_writes_refl]. }
  destruct (Seek kClass _ fd _) as [[|] fd1] eqn:Es; apply Seek_path in Es.
  2:{ intros [= _ _ <- <-]. split; [done | apply only_writes_refl]. }
  destruct (FdReader_CopyTo kClass r1 (Some (w, fd1)) _) as [[b r2] d] eqn:Ec.
  apply CopyTo_loop_only_writes in Ec as (w2 & fd2 & -> & Hp & Ho).
  rewrite Es in Hp, Ho.
  destruct b.
  - intros Hrun. apply IH in Hrun as [Hp' Ho']. rewrite Hp in Hp', Ho'.
    split; [done|]. by eapply only_writes_trans.
  - by intros [= _ _ <- <-].
Qed.

Lemma WriteMaps_loop_only_writes fm phs w fd b w' :
  WriteMaps_loop kClass w fd phs fm = (b, w') ->
  only_writes (out_path fd) w w'.
Proof.
  revert w fd. induction phs as [|ph phs IH]; intros w fd; cbn [WriteMaps_loop].
  { intros [= _ <-]. apply only_writes_refl. }
  destruct (negb (p_type ph =? PT_LOAD)); [apply IH|].
  destruct (snprintf _ _) as [len buf].
  destruct ((len <? 0) || (len >? maps_kBufSize)).
  { intros [= _ <-]. apply only_writes_refl. }
  destruct (WriteFully w fd _) as [[w1 fd1]|] eqn:Ew.
  2:{ intros [= _ <-]. apply only_writes_refl. }
  apply WriteFully_only_writes in Ew as [Hp Ho].
  intros Hrun. apply IH in Hrun. rewrite Hp in Hrun.
  by eapply only_writes_trans.
Qed.

(** An exclusive creation adds an empty file and logs it. *)
Lemma open_excl_Some w path w' fd :
  open_excl w path = Some (w', fd) ->
  files w !! path = None
  /\ w' = mkWorld (env w) (<[path := []]> (files w)) (events w ++ [Created path])
  /\ fd = mkOutFd path 0.
Proof.
  unfold open_excl. destruct (files w !! path); [done|].
  destruct (may_create _ _); [|done]. by intros [= <- <-].
Qed.

Lemma WriteAuxv_world w note_buf path b w' :
  WriteAuxv w note_buf path = (b, w') ->
  (b = false /\ w' = w)
  \/ (created_one path w w'
      /\ (b = true ->
          files w' !! path = Some (GetDescription (FindNote NT_AUXV note_buf)))).
Proof.
  unfold WriteAuxv. destruct (negb (IsValid _)); [intros [= <- <-]; by left|].
  destruct (open_excl w path) as [[w1 fd1]|] eqn:Eo; [|intros [= <- <-]; by left].
  apply open_excl_Some in Eo as (Hnone & -> & ->).
  set (desc := GetDescription (FindNote NT_AUXV note_buf)).
  destruct (WriteFully _ _ desc) as [[w2 fd2]|] eqn:Ew.
  - intros [= <- <-]. right.
    pose proof Ew as Ew'. apply WriteFully_only_writes in Ew' as (_ & He & Hv & Ho & Hs).
    cbn [out_path env events files] in *. split.
    + split; [done|]. split; [done|]. split; [done|]. split.
      * intros p Hp. by rewrite Ho, lookup_insert_ne.
      * apply Hs. rewrite lookup_insert_eq. by eexists.
    + intros _. destruct desc as [|b0 desc0] eqn:Ed.
      * cbn in Ew. injection Ew as <- _. cbn. apply lookup_insert_eq.
      * eapply (WriteFully_append _ _ _ []) in Ew as (Hf & _);
          [| apply lookup_insert_eq | done | cbn; lia].
        rewrite Hf. cbn. apply lookup_insert_eq.
  - intros [= <- <-]. right. split; [|done].
    split; [done|]. split; [done|]. split; [done|]. cbn. split.
    + intros p Hp. by rewrite lookup_insert_ne.
    + rewrite lookup_insert_eq. by eexists.
Qed.

Lemma WriteMaps_world fm phs w path b w' :
  WriteMaps kClass w phs fm path = (b, w') ->
  (b = false /\ w' = w) \/ created_one path w w'.
Proof.
  unfold WriteMaps.
  destruct (open_excl w path) as [[w1 fd1]|] eqn:Eo; [|intros [= <- <-]; by left].
  apply open_excl_Some in Eo as (Hnone & -> & ->).
  intros Hrun. apply WriteMaps_loop_only_writes in Hrun as (He & Hv & Ho & Hs).
  cbn [out_path env events files] in *. right.
  split; [done|]. split; [done|]. split; [done|]. split.
  - intros p Hp. by rewrite Ho, lookup_insert_ne.
  - apply Hs. rewrite lookup_insert_eq. by eexists.
Qed.

Lemma keeps_files_refl dest w : keeps_files dest w w.
Proof. by split. Qed.

Lemma keeps_files_trans dest w1 w2 w3 :
  keeps_files dest w1 w2 -> keeps_files dest w2 w3 -> keeps_files dest w1 w3.
Proof.
  intros [Hd1 Ho1] [Hd2 Ho2]. split; [by intros H; apply Hd2, Hd1|].
  intros p c Hp Hc. by apply Ho2, Ho1.
Qed.

Lemma only_writes_keeps dest w w' : only_writes dest w w' -> keeps_files dest w w'.
Proof.
  intros (_ & _ & Ho & Hs). split; [done|]. intros p c Hp Hc. by rewrite Ho.
Qed.

Lemma created_one_keeps dest path w w' :
  created_one path w w' -> keeps_files dest w w'.
Proof.
  intros (Hnone & _ & _ & Ho & _). split.
  - intros [c Hc]. exists c. rewrite Ho; [done | congruence].
  - intros p c _ Hc. rewrite Ho; [done | congruence].
Qed.

(** Whatever its outcome, [WriteCoredumpToFD] keeps the destination in
    existence and leaves alone every other file that existed. *)
Lemma WriteCoredumpToFD_keeps cw w fd_dest st w' :
  WriteCoredumpToFD kClass cw w fd_dest = (st, w') ->
  keeps_files (out_path fd_dest) w w'.
Proof.
  unfold WriteCoredumpToFD.
  destruct (ReadUntilNote kClass _ _) as [[[[[eh phs] nb]|] reader]|];
    [| intros [= _ <-]; apply keeps_files_refl
     | intros [= _ <-]; apply keeps_files_refl].
  destruct (GetFileMappings kClass nb ∅) as [fm|];
    [|intros [= _ <-]; apply keeps_files_refl].
  destruct (FilterSegments kClass phs fm) as [filtered|];
    [|intros [= _ <-]; apply keeps_files_refl].
  destruct (GetFreeDiskSpace w _ <? 0); [intros [= _ <-]; apply keeps_files_refl|].
  destruct (expected_coredump_size kClass filtered >? _);
    [intros [= _ <-]; apply keeps_files_refl|].
  destruct (WriteAuxv w nb _) as [b1 w1] eqn:E1.
  assert (H1 : keeps_files (out_path fd_dest) w w1).
  { apply WriteAuxv_world in E1 as [[_ ->] | [Hc _]];
      [apply keeps_files_refl | by eapply created_one_keeps]. }
  destruct b1; [|by intros [= _ <-]].
  destruct (WriteMaps kClass w1 phs fm _) as [b2 w2] eqn:E2.
  assert (H2 : keeps_files (out_path fd_dest) w w2).
  { eapply keeps_files_trans; [exact H1|].
    apply WriteMaps_world in E2 as [[_ ->] | Hc];
      [apply keeps_files_refl | by eapply created_one_keeps]. }
  destruct b2; [|by intros [= _ <-]].
  destruct (WriteFully w2 fd_dest eh) as [[w3 fd3]|] eqn:E3; [|by intros [= _ <-]].
  apply WriteFully_only_writes in E3 as [Hp3 Ho3].
  assert (H3 : keeps_files (out_path fd_dest) w w3)
    by (eapply keeps_files_trans; [exact H2 | by apply only_writes_keeps]).
  destruct (write_program_headers kClass w3 fd3 _ 0 filtered)
    as [[why4 w4] fd4] eqn:E4.
  apply write_program_headers_only_writes in E4 as [Hp4 Ho4].
  rewrite Hp3 in Hp4, Ho4.
  assert (H4 : keeps_files (out_path fd_dest) w w4)
    by (eapply keeps_files_trans; [exact H3 | by apply only_writes_keeps]).
  destruct why4; [by intros [= _ <-]|].
  destruct (Seek kClass _ fd4 _) as [[|] fd5] eqn:E5; [|by intros [= _ <-]].
  apply Seek_path in E5. rewrite Hp4 in E5.
  destruct (WriteFully w4 fd5 nb) as [[w6 fd6]|] eqn:E6; [|by intros [= _ <-]].
  apply WriteFully_only_writes in E6 as [Hp6 Ho6]. rewrite E5 in Hp6, Ho6.
  assert (H6 : keeps_files (out_path fd_dest) w w6)
    by (eapply keeps_files_trans; [exact H4 | by apply only_writes_keeps]).
  destruct (write_segments kClass reader w6 fd6 1 _)
    as [[[why7 r7] w7] fd7] eqn:E7.
  apply write_segments_only_writes in E7 as [_ Ho7]. rewrite Hp6 in Ho7.
  assert (H7 : keeps_files (out_path fd_dest) w w7)
    by (eapply keeps_files_trans; [exact H6 | by apply only_writes_keeps]).
  destruct why7; by intros [= _ <-].
Qed.


Lemma unlink_other w path p :
  p <> path -> files (unlink w path) !! p = files w !! p.
Proof.
  intros Hp. unfold unlink. destruct (files w !! path); [|done].
  cbn. by rewrite lookup_delete_ne.
Qed.

(** The size that a successful run returns is at most 256 MiB, so that the
    value returned is not taken for the error value. *)
Lemma Written_size_small cw w fd_dest size w' :
  WriteCoredumpToFD kClass cw w fd_dest = (Written size, w') ->
  0 <= size <= kMaxCoredumpSize /\ ssize_of kClass (Written size) = Some size.
Proof.
  intros Hrun. pose proof (wmod_half kClass) as HW.
  apply WriteCoredumpToFD_Written in Hrun
    as (eh & phs & nb & rd & fm & filtered & w1 & w2 & w3 & fd3 & w4 & fd4 & fd5
        & w6 & fd6 & rd' & fd7 & _ & _ & _ & Hsize & _ & Hlimit & _).
  assert (Hsmall : 0 <= size <= kMaxCoredumpSize).
  { split.
    - rewrite Hsize. unfold expected_coredump_size.
      destruct (last filtered); [apply to_size_t_range | lia].
    - unfold coredump_size_limit in Hlimit. lia. }
  split; [done|]. cbn [ssize_of]. f_equal. apply to_long_small. lia.
Qed.



(** X2. Whatever the outcome of the run, every file that existed before it
    exists after it with the same content: all files that the run writes or
    removes are files that it has created itself. *)
Theorem WriteCoredump_keeps_existing_files cw w p content :
  files w !! p = Some content ->
  files (WriteCoredump kClass cw w).2 !! p = Some content.
Proof.
  intros Hp. unfold WriteCoredump.
  destruct (open_excl w (coredump_filename_ cw)) as [[w0 fd0]|] eqn:Eo; [|done].
  apply open_excl_Some in Eo as (Hnone & -> & ->).
  assert (Hne : p <> coredump_filename_ cw) by congruence.
  destruct (WriteCoredumpToFD kClass cw _ _) as [st w1] eqn:Erun.
  apply WriteCoredumpToFD_keeps in Erun as [_ Ho]. cbn [out_path files] in Ho.
  specialize (Ho p content Hne). rewrite lookup_insert_ne in Ho by done.
  specialize (Ho Hp).
  destruct (ssize_of kClass st) as [rv|]; [|done].
  destruct (rv =? -1); cbn [snd]; [|done].
  by rewrite unlink_other.
Qed.

End WorldFacts.

(** ** The log and the proc files of a run *)

Section RunLogFacts.

Variable kClass : ElfClass.
Implicit Types (fm : gmap (Z * Z) FileInfo.t) (w : World) (fd : OutFd)
  (cw : CoredumpWriter) (path p : string).

(** The loop of [WriteMaps], without any assumption on the lines: the
    descriptor stays at the end of the file, and a successful loop has
    appended what the buffer held of each line, none of which was longer
    than the buffer. *)
Lemma WriteMaps_loop_written fm phs w fd content w' :
  files w !! out_path fd = Some content ->
  out_pos fd = Z.of_nat (length content) ->
  WriteMaps_loop kClass w fd phs fm = (true, w') ->
  files w' = <[out_path fd := content ++ maps_written kClass fm phs]> (files w)
  /\ Forall (fun ph => p_type ph = PT_LOAD ->
                       Z.of_nat (length (maps_line kClass fm ph)) <= maps_kBufSize)
            phs.
Proof.
  revert w fd content.
  induction phs as [|ph phs IH]; intros w fd content Hc Hpos Hrun.
  { cbn in Hrun |- *. injection Hrun as <-. rewrite app_nil_r.
    split; [by rewrite insert_id | constructor]. }
  cbn [WriteMaps_loop maps_written] in Hrun |- *.
  destruct (p_type ph =? PT_LOAD) eqn:Et; cbn [negb] in Hrun.
  2:{ apply Z.eqb_neq in Et. eapply IH in Hrun as [Hf Hall]; [| done | done].
      split; [done|]. by constructor. }
  change (segment_range kClass ph) with (AddressRange kClass ph) in Hrun.
  fold (maps_offset kClass fm ph) in Hrun. fold (maps_path kClass fm ph) in Hrun.
  change (AddressRange kClass ph) with (segment_range kClass ph) in Hrun.
  fold (maps_line kClass fm ph) in Hrun.
  unfold snprintf in Hrun. unfold maps_written_line.
  set (line := maps_line kClass fm ph) in *.
  destruct ((Z.of_nat (length line) <? 0) || (Z.of_nat (length line) >? maps_kBufSize)) eqn:El;
    [done|].
  apply orb_false_iff in El as [_ El]. rewrite Z.gtb_ltb in El. apply Z.ltb_ge in El.
  assert (Hbuf : take (Z.to_nat (Z.of_nat (length line)))
                      (take (Z.to_nat (maps_kBufSize - 1)) line ++ [x00])
                 = if Z.of_nat (length line) <? maps_kBufSize then line
                   else take (Z.to_nat (maps_kBufSize - 1)) line ++ [x00]).
  { unfold maps_kBufSize in *. rewrite Nat2Z.id.
    destruct (Z.of_nat (length line) <? 1024) eqn:E.
    - apply Z.ltb_lt in E. rewrite (take_ge line) by lia.
      rewrite take_app_le by lia. by rewrite firstn_all.
    - apply Z.ltb_ge in E. apply take_ge.
      rewrite length_app, length_take. cbn [length]. lia. }
  rewrite Hbuf in Hrun.
  set (written := if Z.of_nat (length line) <? maps_kBufSize then line
                  else take (Z.to_nat (maps_kBufSize - 1)) line ++ [x00]) in *.
  assert (Hpos' : (0 < length written)%nat).
  { subst written. destruct (_ <? _).
    - subst line. apply maps_format_length.
    - rewrite length_app. cbn [length]. lia. }
  destruct (WriteFully w fd written) as [[w1 fd1]|] eqn:Ew; [|done].
  apply (WriteFully_append _ _ _ content) in Ew
    as (Hf1 & He1 & Hv1 & Hp1 & Hpos1); [| done | done | done].
  apply (IH _ _ (content ++ written)) in Hrun as (Hf & Hall);
    [| by rewrite Hf1, Hp1, lookup_insert_eq | done].
  rewrite Hf, Hf1, Hp1, insert_insert_eq, <- app_assoc.
  split; [done|]. constructor; [|done]. intros _. fold line. lia.
Qed.

(** X3. A successful run returns a size within the budget: a file system is
    known for the destination, its free space is not negative, and the size
    is at most a twentieth of the free space and at most 256 MiB, so that the
    value returned, as an [ssize_t], is the size itself and not -1. *)
Theorem WriteCoredump_within_budget cw w size w' :
  WriteCoredump kClass cw w = (Written size, w') ->
  exists f_bavail f_frsize,
    statvfs_of (env w) (coredump_filename_ cw) = Some (f_bavail, f_frsize)
    /\ 0 <= to_int64 (f_bavail * f_frsize)
    /\ 0 <= size <= Z.min (to_int64 (f_bavail * f_frsize) / 20) kMaxCoredumpSize
    /\ ssize_of kClass (Written size) = Some size.
Proof.
  unfold WriteCoredump.
  destruct (open_excl w (coredump_filename_ cw)) as [[w0 fd0]|] eqn:Eo; [|done].
  apply open_excl_Some in Eo as (_ & -> & ->).
  destruct (WriteCoredumpToFD kClass cw _ _) as [st w1] eqn:Erun.
  intros Hres.
  assert (Hst : st = Written size)
    by (destruct (ssize_of kClass st) as [rv|]; [destruct (rv =? -1)|]; congruence).
  subst st. clear Hres.
  pose proof (Written_size_small _ _ _ _ _ _ Erun) as [Hsmall Hss].
  apply WriteCoredumpToFD_Written in Erun
    as (eh & phs & nb & rd & fm & filtered & w1' & w2 & w3 & fd3 & w4 & fd4 & fd5
        & w6 & fd6 & rd' & fd7 & _ & _ & _ & _ & Hfree & Hlimit & _).
  unfold GetFreeDiskSpace in Hfree, Hlimit. cbn [files env] in Hfree, Hlimit.
  rewrite lookup_insert_eq in Hfree, Hlimit.
  destruct (statvfs_of (env w) (coredump_filename_ cw)) as [[f_bavail f_frsize]|];
    [|lia].
  exists f_bavail, f_frsize. split; [done|]. split; [done|].
  pose proof (coredump_size_limit_le kClass _ Hfree). split; [lia | done].
Qed.





(** X5. [WriteAuxv] succeeds only when the buffer holds a note of type
    NT_AUXV and the output file does not exist yet; the file it creates then
    holds the description of the first such note, byte for byte, and no other
    file is touched. *)
Theorem WriteAuxv_copies_description w note_buf output_path w' :
  WriteAuxv w note_buf output_path = (true, w') ->
  let note := FindNote NT_AUXV note_buf in
  IsValid note = true /\ GetType note = NT_AUXV
  /\ files w !! output_path = None
  /\ files w' !! output_path = Some (GetDescription note)
  /\ (forall p, p <> output_path -> files w' !! p = files w !! p)
  /\ events w' = events w ++ [Created output_path].
Proof.
  intros Hrun note.
  assert (Hvalid : IsValid note = true).
  { unfold WriteAuxv in Hrun. fold note in Hrun.
    by destruct (IsValid note). }
  split; [done|]. split.
  { pose proof (find_note_stops NT_AUXV (length note_buf) note_buf (le_n _)) as Hstop.
    cbn zeta in Hstop. fold (FindNote NT_AUXV note_buf) in Hstop. fold note in Hstop.
    rewrite Hvalid in Hstop. cbn [andb] in Hstop.
    apply negb_false_iff in Hstop. by apply Z.eqb_eq. }
  apply WriteAuxv_world in Hrun as [[? _] | [(Hnone & _ & Hv & Ho & _) Hc]]; [done|].
  split; [done|]. split; [by apply Hc|]. split; done.
Qed.

(** X6. [WriteMaps], whatever the lines: when it succeeds, no line of a LOAD
    entry is longer than the 1024 bytes of the buffer, and the file holds,
    in the order of the list, every line shorter than that in full and, for
    a line of exactly 1024 bytes, its first 1023 bytes followed by a zero
    byte.  So an entry whose line exceeds 1024 bytes makes [WriteMaps]
    fail.  The line of an entry is its text, "start-end rwxp offset 00:00 0
    path" with the path printed up to its first zero byte, followed by a
    newline byte. *)
Theorem WriteMaps_written_lines w program_headers fm output_path w' :
  WriteMaps kClass w program_headers fm output_path = (true, w') ->
  files w' !! output_path = Some (maps_written kClass fm program_headers)
  /\ Forall (fun ph => p_type ph = PT_LOAD ->
                       Z.of_nat (length (maps_line kClass fm ph)) <= maps_kBufSize)
            program_headers
  /\ forall ph, exists text,
        maps_line kClass fm ph = text ++ [x0a] /\ is_maps_line kClass fm ph text.
Proof.
  unfold WriteMaps. intros Hrun.
  destruct (open_excl w output_path) as [[w1 fd1]|] eqn:Eo; [|done].
  apply open_excl_Some in Eo as (_ & -> & ->).
  apply (WriteMaps_loop_written _ _ _ _ []) in Hrun as (Hf & Hall);
    [| apply lookup_insert_eq | done].
  split; [|split; [done|]].
  - rewrite Hf. cbn. apply lookup_insert_eq.
  - intros ph. destruct (maps_line_text kClass fm ph) as (text & Hl & His & _).
    by exists text.
Qed.

(** The files [auxv] and [maps] at the end of a successful run of
    [WriteCoredumpToFD] on an existing destination. *)
Lemma WriteCoredumpToFD_proc_files cw w fd_dest size w' elf_header
    program_headers note_buf reader fm :
  is_Some (files w !! out_path fd_dest) ->
  ReadUntilNote kClass (env w) (mkFdReader (fd_src_ cw) 0)
  = Returns (Some (elf_header, program_headers, note_buf), reader) ->
  GetFileMappings kClass note_buf ∅ = Some fm ->
  WriteCoredumpToFD kClass cw w fd_dest = (Written size, w') ->
  files w' !! (proc_files_dir_ cw +:+ "/auxv")
  = Some (GetDescription (FindNote NT_AUXV note_buf))
  /\ files w' !! (proc_files_dir_ cw +:+ "/maps")
     = Some (maps_written kClass fm program_headers).
Proof.
  intros [c0 Hdest] Hread0 Hfm0 Hrun.
  apply WriteCoredumpToFD_Written in Hrun
    as (eh & phs & nb & rd & fm' & filtered & w1 & w2 & w3 & fd3 & w4 & fd4 & fd5
        & w6 & fd6 & rd' & fd7 & Hread & Hfm & Hfilt & Hsize & Hfree & Hlimit
        & Hauxv & Hmaps & Hwe & Hwp & Hseek & Hwn & Hseg).
  rewrite Hread0 in Hread. injection Hread as <- <- <- <-.
  rewrite Hfm0 in Hfm. injection Hfm as <-.
  set (auxv := proc_files_dir_ cw +:+ "/auxv") in *.
  set (maps := proc_files_dir_ cw +:+ "/maps") in *.
  (* the two files are created where nothing was *)
  apply WriteAuxv_world in Hauxv as [[? _] | [(Hnone1 & _ & _ & Ho1 & _) Hc1]];
    [done|].
  specialize (Hc1 eq_refl).
  assert (Hne1 : out_path fd_dest <> auxv) by congruence.
  assert (Hdest1 : files w1 !! out_path fd_dest = Some c0) by (by rewrite Ho1).
  unfold WriteMaps in Hmaps.
  destruct (open_excl w1 maps) as [[w1' fd1]|] eqn:Eo; [|done].
  apply open_excl_Some in Eo as (Hnone2 & -> & ->).
  apply (WriteMaps_loop_written _ _ _ _ []) in Hmaps as (Hf2 & _);
    [| apply lookup_insert_eq | done].
  cbn [out_path files app] in Hf2. rewrite insert_insert_eq in Hf2.
  assert (Hne2 : maps <> auxv) by congruence.
  assert (Hne3 : out_path fd_dest <> maps) by congruence.
  (* the rest of the run writes to the destination only *)
  apply WriteFully_only_writes in Hwe as (Hp3 & _ & _ & Ho3 & _).
  apply write_program_headers_only_writes in Hwp as (Hp4 & _ & _ & Ho4 & _).
  apply Seek_path in Hseek.
  apply WriteFully_only_writes in Hwn as (Hp6 & _ & _ & Ho6 & _).
  apply write_segments_only_writes in Hseg as (_ & _ & _ & Ho7 & _).
  rewrite Hp6, Hseek, Hp4, Hp3 in Ho7. rewrite Hseek, Hp4, Hp3 in Ho6.
  rewrite Hp3 in Ho4.
  assert (Hkeep : forall p, p <> out_path fd_dest -> files w' !! p = files w2 !! p).
  { intros p Hp. by rewrite Ho7, Ho6, Ho4, Ho3. }
  rewrite !Hkeep by done. rewrite Hf2. split.
  - rewrite lookup_insert_ne by done. exact Hc1.
  - apply lookup_insert_eq.
Qed.

(** X7. At the end of a successful run the file [auxv] holds the description
    of the NT_AUXV note of the NOTE segment that was read, and the file
    [maps] holds what [WriteMaps] writes for the original program headers
    and the mappings decoded from the NT_FILE note: writing the destination
    afterwards does not disturb them. *)
Theorem WriteCoredump_proc_files cw w size w' elf_header program_headers
    note_buf reader fm :
  ReadUntilNote kClass (env w) (mkFdReader (fd_src_ cw) 0)
  = Returns (Some (elf_header, program_headers, note_buf), reader) ->
  GetFileMappings kClass note_buf ∅ = Some fm ->
  WriteCoredump kClass cw w = (Written size, w') ->
  files w' !! (proc_files_dir_ cw +:+ "/auxv")
  = Some (GetDescription (FindNote NT_AUXV note_buf))
  /\ files w' !! (proc_files_dir_ cw +:+ "/maps")
     = Some (maps_written kClass fm program_headers).
Proof.
  intros Hread Hfm. unfold WriteCoredump.
  destruct (open_excl w (coredump_filename_ cw)) as [[w0 fd0]|] eqn:Eo; [|done].
  apply open_excl_Some in Eo as (_ & -> & ->).
  destruct (WriteCoredumpToFD kClass cw _ _) as [st w1] eqn:Erun.
  intros Hres.
  assert (Hst : st = Written size)
    by (destruct (ssize_of kClass st) as [rv|]; [destruct (rv =? -1)|]; congruence).
  subst st.
  pose proof (Written_size_small _ _ _ _ _ _ Erun) as [Hs Hss].
  pose proof kMaxCoredumpSize_value.
  rewrite Hss in Hres. replace (size =? -1) with false in Hres by blia.
  injection Hres as <-.
  eapply WriteCoredumpToFD_proc_files; [| | exact Hfm | exact Erun].
  - cbn. rewrite lookup_insert_eq. by eexists.
  - exact Hread.
Qed.

End RunLogFacts.

(** ** More on the reader and on ReadUntilNote *)

Section ReaderBlockFacts.

Variable kClass : ElfClass.
Implicit Types (r : FdReader) (src : Source) (w : World) (fd : OutFd).

Lemma bytes_eqb_eq (a b : list byte) : bytes_eqb a b = true -> a = b.
Proof.
  unfold bytes_eqb. intros H. apply andb_true_iff in H as [Hlen Hall].
  apply Nat.eqb_eq in Hlen. revert b Hlen Hall.
  induction a as [|x a IH]; intros [|y b] Hlen Hall; cbn in *; try done.
  apply andb_true_iff in Hall as [Hxy Hall].
  apply Byte.byte_dec_bl in Hxy. subst y. f_equal. apply IH; [lia | done].
Qed.

(** [Read], when it succeeds: the block read and the reader afterwards. *)
Lemma FdReader_Read_Some r num_bytes buf r' :
  0 <= num_bytes ->
  FdReader_Read kClass r num_bytes = (Some buf, r') ->
  num_bytes <= Z.of_nat (length (pending (fd_ r)))
  /\ buf = take (Z.to_nat num_bytes) (pending (fd_ r))
  /\ r' = mkFdReader (mkSource (drop (Z.to_nat num_bytes) (pending (fd_ r)))
                               (broken (fd_ r)))
                     (to_size_t kClass (bytes_read_ r + num_bytes)).
Proof.
  intros Hn. unfold FdReader_Read, ReadFully.
  destruct (num_bytes <=? Z.of_nat (length (pending (fd_ r)))) eqn:E; [|done].
  apply Z.leb_le in E. by intros [= <- <-].
Qed.

(** [Seek], when it succeeds: the reader afterwards. *)
Lemma FdReader_Seek_Some r offset r' :
  0 <= bytes_read_ r < wmod kClass -> 0 <= offset < wmod kClass ->
  FdReader_Seek kClass r offset = (true, r') ->
  bytes_read_ r <= offset
  /\ offset - bytes_read_ r <= Z.of_nat (length (pending (fd_ r)))
  /\ r' = mkFdReader (mkSource (drop (Z.to_nat (offset - bytes_read_ r))
                                     (pending (fd_ r)))
                               (broken (fd_ r)))
                     offset.
Proof.
  intros Hr Ho. unfold FdReader_Seek.
  destruct (offset <? bytes_read_ r) eqn:E; [done|]. apply Z.ltb_ge in E.
  unfold FdReader_CopyTo.
  rewrite (to_size_t_small kClass (offset - bytes_read_ r)) by lia.
  rewrite CopyTo_loop_discard by lia.
  destruct (offset - bytes_read_ r <=? _) eqn:El; [|done].
  apply Z.leb_le in El. intros [= <-].
  split; [done|]. split; [done|]. f_equal.
  destruct (offset - bytes_read_ r =? 0) eqn:E0; [lia|].
  replace (bytes_read_ r + (offset - bytes_read_ r)) with offset by lia.
  by apply to_size_t_small.
Qed.

(** X8. [ReadUntilNote] accepts only the header of a core file of the class
    of the build: when it succeeds, the header read starts with the ELF
    magic, names the class of the build, the current version and the type
    CORE, and declares the sizes that the build has for the header and for a
    program header; there is at least one program header, as many are
    returned as the header announces, and the first is of type NOTE; the
    note buffer has the file size of that entry. *)
Theorem ReadUntilNote_validates e r elf_header program_headers note_buf r' :
  ReadUntilNote kClass e r
  = Returns (Some (elf_header, program_headers, note_buf), r') ->
  take (Z.to_nat SELFMAG) (e_ident elf_header) = ELFMAG
  /\ field (e_ident elf_header) EI_CLASS 1 = class_code kClass
  /\ e_version elf_header = EV_CURRENT
  /\ e_type elf_header = ET_CORE
  /\ e_ehsize kClass elf_header = sizeof_Ehdr kClass
  /\ e_phentsize kClass elf_header = sizeof_Phdr kClass
  /\ Z.of_nat (length elf_header) = sizeof_Ehdr kClass
  /\ Z.of_nat (length program_headers) = e_phnum kClass elf_header
  /\ exists first rest,
       program_headers = first :: rest
       /\ p_type first = PT_NOTE
       /\ Z.of_nat (length note_buf) = p_filesz first.
Proof.
  unfold ReadUntilNote.
  pose proof (sizeof_Ehdr_small kClass) as HE.
  destruct (FdReader_Read kClass r (sizeof_Ehdr kClass)) as [[eh|] r1] eqn:E1; [|done].
  apply FdReader_Read_ok in E1 as (_ & Hl1 & _); [|lia].
  match goal with |- context [if ?c then _ else _] => destruct c eqn:Echeck end; [done|].
  destruct (negb (resize kClass e _)); [done|].
  repeat (apply orb_false_iff in Echeck as [Echeck ?]).
  repeat match goal with
         | H : negb _ = false |- _ => apply negb_false_iff in H
         end.
  destruct (FdReader_Seek kClass r1 (e_phoff kClass eh)) as [[|] r2]; [|done].
  destruct (FdReader_Read kClass r2 _) as [[table|] r3]; [|done].
  destruct (decode_Phdrs kClass (Z.to_nat (e_phnum kClass eh)) table)
    as [|first rest] eqn:Ephs; [done|].
  destruct (p_type first =? PT_NOTE) eqn:Et; [|done]. cbn [negb].
  destruct (negb (resize kClass e _)); [done|].
  destruct (FdReader_Seek kClass r3 (p_offset first)) as [[|] r4]; [|done].
  destruct (FdReader_Read kClass r4 (p_filesz first)) as [[nb|] r5] eqn:E5; [|done].
  pose proof (decode_Phdr_ok kClass (take (Z.to_nat (sizeof_Phdr kClass)) table)) as Hok.
  assert (Hfirst : Phdr_ok kClass first).
  { pose proof (decode_Phdrs_ok kClass (Z.to_nat (e_phnum kClass eh)) table) as Hall.
    rewrite Ephs in Hall. by apply Forall_inv in Hall. }
  destruct Hfirst as (_ & _ & _ & _ & _ & Hff & _).
  apply FdReader_Read_ok in E5 as (_ & Hl5 & _); [|lia].
  intros [= <- <- <- <-].
  split; [by apply bytes_eqb_eq|].
  repeat (split; [by apply Z.eqb_eq|]).
  split; [done|]. split.
  { rewrite <- Ephs, length_decode_Phdrs. pose proof (e_phnum_range kClass eh). lia. }
  exists first, rest. split; [done|]. split; [by apply Z.eqb_eq | done].
Qed.

(** The tests that a successful [ReadUntilNote] has passed. *)
Lemma ReadUntilNote_checks e r elf_header program_headers note_buf r' :
  ReadUntilNote kClass e r
  = Returns (Some (elf_header, program_headers, note_buf), r') ->
  negb (bytes_eqb (take (Z.to_nat SELFMAG) (e_ident elf_header)) ELFMAG)
  || negb (field (e_ident elf_header) EI_CLASS 1 =? class_code kClass)
  || negb (e_version elf_header =? EV_CURRENT)
  || negb (e_type elf_header =? ET_CORE)
  || negb (e_ehsize kClass elf_header =? sizeof_Ehdr kClass)
  || negb (e_phentsize kClass elf_header =? sizeof_Phdr kClass) = false
  /\ Z.of_nat (length program_headers) = e_phnum kClass elf_header
  /\ resize kClass e (sizeof_Phdr kClass * e_phnum kClass elf_header) = true
  /\ exists first rest,
       program_headers = first :: rest /\ (p_type first =? PT_NOTE) = true
       /\ resize kClass e (p_filesz first) = true.
Proof.
  unfold ReadUntilNote.
  destruct (FdReader_Read kClass r (sizeof_Ehdr kClass)) as [[eh|] r1]; [|done].
  match goal with |- context [if ?c then _ else _] => destruct c eqn:Echeck end; [done|].
  destruct (resize kClass e (sizeof_Phdr kClass * _)) eqn:Ea1; [|done]. cbn [negb].
  destruct (FdReader_Seek kClass r1 (e_phoff kClass eh)) as [[|] r2]; [|done].
  destruct (FdReader_Read kClass r2 _) as [[table|] r3]; [|done].
  destruct (decode_Phdrs kClass (Z.to_nat (e_phnum kClass eh)) table)
    as [|first rest] eqn:Ephs; [done|].
  destruct (p_type first =? PT_NOTE) eqn:Et; [|done]. cbn [negb].
  destruct (resize kClass e (p_filesz first)) eqn:Ea2; [|done]. cbn [negb].
  destruct (FdReader_Seek kClass r3 (p_offset first)) as [[|] r4]; [|done].
  destruct (FdReader_Read kClass r4 (p_filesz first)) as [[nb|] r5]; [|done].
  intros [= <- <- <- <-]. split; [done|]. split.
  { rewrite <- Ephs, length_decode_Phdrs. pose proof (e_phnum_range kClass eh). lia. }
  split; [done|]. by exists first, rest.
Qed.

(** The blocks that a successful [ReadUntilNote] of a fresh reader has read,
    on an input shorter than the range of [size_t]. *)
Lemma ReadUntilNote_blocks e input brk elf_header
    program_headers note_buf r' :
  Z.of_nat (length input) < wmod kClass ->
  ReadUntilNote kClass e (mkFdReader (mkSource input brk) 0)
  = Returns (Some (elf_header, program_headers, note_buf), r') ->
  exists first rest,
    program_headers = first :: rest
    /\ elf_header = take (Z.to_nat (sizeof_Ehdr kClass)) input
    /\ program_headers
       = decode_Phdrs kClass (Z.to_nat (e_phnum kClass elf_header))
           (take (Z.to_nat (sizeof_Phdr kClass * e_phnum kClass elf_header))
                 (drop (Z.to_nat (e_phoff kClass elf_header)) input))
    /\ note_buf = take (Z.to_nat (p_filesz first))
                       (drop (Z.to_nat (p_offset first)) input)
    /\ sizeof_Ehdr kClass <= e_phoff kClass elf_header
    /\ e_phoff kClass elf_header + sizeof_Phdr kClass * e_phnum kClass elf_header
       <= p_offset first
    /\ p_offset first + p_filesz first <= Z.of_nat (length input)
    /\ r' = mkFdReader
              (mkSource (drop (Z.to_nat (p_offset first + p_filesz first)) input) brk)
              (p_offset first + p_filesz first).
Proof.
  intros Hfit. unfold ReadUntilNote.
  pose proof (sizeof_Ehdr_small kClass) as HE. pose proof (sizeof_Phdr_pos kClass) as HP.
  pose proof (wmod_ge kClass) as HW.
  destruct (FdReader_Read kClass _ (sizeof_Ehdr kClass)) as [[eh|] r1] eqn:E1; [|done].
  apply FdReader_Read_Some in E1 as (Hn1 & -> & ->); [|lia].
  cbn [fd_ pending broken bytes_read_] in *. rewrite Z.add_0_l.
  set (eh := take (Z.to_nat (sizeof_Ehdr kClass)) input) in *.
  rewrite (to_size_t_small kClass (sizeof_Ehdr kClass)) by lia.
  match goal with |- context [if ?c then _ else _] => destruct c eqn:Echeck end; [done|].
  destruct (negb (resize kClass e _)); [done|].
  clear Echeck.
  pose proof (e_phoff_range kClass eh) as Hoff.
  pose proof (e_phnum_range kClass eh) as Hnum.
  destruct (FdReader_Seek kClass _ (e_phoff kClass eh)) as [[|] r2] eqn:E2; [|done].
  apply FdReader_Seek_Some in E2 as (Hge2 & Hn2 & ->);
    cbn [fd_ pending broken bytes_read_] in *; [| lia | lia].
  rewrite length_drop in Hn2. rewrite drop_drop.
  replace (Z.to_nat (sizeof_Ehdr kClass)
           + Z.to_nat (e_phoff kClass eh - sizeof_Ehdr kClass))%nat
    with (Z.to_nat (e_phoff kClass eh)) in * by lia.
  set (table_size := sizeof_Phdr kClass * e_phnum kClass eh) in *.
  assert (Hts : 0 <= table_size < wmod kClass) by (subst table_size; nia).
  rewrite (to_size_t_small kClass table_size) by done.
  destruct (FdReader_Read kClass _ table_size) as [[table|] r3] eqn:E3; [|done].
  apply FdReader_Read_Some in E3 as (Hn3 & -> & ->); [|lia].
  cbn [fd_ pending broken bytes_read_] in *.
  rewrite length_drop in Hn3. rewrite drop_drop.
  rewrite (to_size_t_small kClass (e_phoff kClass eh + table_size)) by lia.
  set (table := take (Z.to_nat table_size) (drop (Z.to_nat (e_phoff kClass eh)) input))
    in *.
  destruct (decode_Phdrs kClass (Z.to_nat (e_phnum kClass eh)) table)
    as [|first rest] eqn:Ephs; [done|].
  destruct (negb (p_type first =? PT_NOTE)); [done|].
  destruct (negb (resize kClass e _)); [done|].
  assert (Hfirst : Phdr_ok kClass first).
  { pose proof (decode_Phdrs_ok kClass (Z.to_nat (e_phnum kClass eh)) table) as Hall.
    rewrite Ephs in Hall. by apply Forall_inv in Hall. }
  destruct Hfirst as (_ & _ & Hfo & _ & _ & Hff & _).
  destruct (FdReader_Seek kClass _ (p_offset first)) as [[|] r4] eqn:E4; [|done].
  apply FdReader_Seek_Some in E4 as (Hge4 & Hn4 & ->);
    cbn [fd_ pending broken bytes_read_] in *; [| lia | lia].
  rewrite length_drop in Hn4. rewrite drop_drop.
  replace (Z.to_nat (e_phoff kClass eh) + Z.to_nat table_size
           + Z.to_nat (p_offset first - (e_phoff kClass eh + table_size)))%nat
    with (Z.to_nat (p_offset first)) in * by lia.
  destruct (FdReader_Read kClass _ (p_filesz first)) as [[nb|] r5] eqn:E5; [|done].
  apply FdReader_Read_Some in E5 as (Hn5 & -> & ->); [|lia].
  cbn [fd_ pending broken bytes_read_] in *.
  rewrite length_drop in Hn5. rewrite drop_drop.
  intros [= <- <- <- <-]. exists first, rest.
  split; [done|]. split; [done|]. split; [done|]. split; [done|].
  split; [lia|]. split; [lia|]. split; [lia|].
  rewrite (to_size_t_small kClass (p_offset first + p_filesz first)) by lia.
  do 3 f_equal. lia.
Qed.

(** X9. On an input shorter than the range of [size_t], a successful
    [ReadUntilNote] of a fresh reader returns the bytes at the places that
    the input declares: the header is the first bytes of the input, the
    program headers are the table that starts at [e_phoff], and the note
    buffer is the block that the first program header describes.  The three
    blocks lie in this order without overlap, since the reader cannot go
    back, and the reader is left at the end of the NOTE segment. *)
Theorem ReadUntilNote_reads_declared_blocks e input brk elf_header
    program_headers note_buf r' :
  Z.of_nat (length input) < wmod kClass ->
  ReadUntilNote kClass e (mkFdReader (mkSource input brk) 0)
  = Returns (Some (elf_header, program_headers, note_buf), r') ->
  exists first rest,
    program_headers = first :: rest
    /\ elf_header = take (Z.to_nat (sizeof_Ehdr kClass)) input
    /\ program_headers
       = decode_Phdrs kClass (Z.to_nat (e_phnum kClass elf_header))
           (take (Z.to_nat (sizeof_Phdr kClass * e_phnum kClass elf_header))
                 (drop (Z.to_nat (e_phoff kClass elf_header)) input))
    /\ note_buf = take (Z.to_nat (p_filesz first))
                       (drop (Z.to_nat (p_offset first)) input)
    /\ sizeof_Ehdr kClass <= e_phoff kClass elf_header
    /\ e_phoff kClass elf_header + sizeof_Phdr kClass * e_phnum kClass elf_header
       <= p_offset first
    /\ p_offset first + p_filesz first <= Z.of_nat (length input)
    /\ r' = mkFdReader
              (mkSource (drop (Z.to_nat (p_offset first + p_filesz first)) input) brk)
              (p_offset first + p_filesz first).
Proof. apply ReadUntilNote_blocks. Qed.

(** The loop of [CopyTo] into a file that accepts every write, in closed
    form. *)
Lemma CopyTo_loop_file fuel r w fd num_bytes content :
  (length (pending (fd_ r)) < fuel)%nat -> 0 <= num_bytes -> 0 <= out_pos fd ->
  files w !! out_path fd = Some content ->
  (forall pos data, may_write (env w) (out_path fd) pos data = true) ->
  let k := Z.min num_bytes (Z.of_nat (length (pending (fd_ r)))) in
  CopyTo_loop kClass fuel r (Some (w, fd)) num_bytes
  = (num_bytes <=? Z.of_nat (length (pending (fd_ r))),
     mkFdReader (mkSource (drop (Z.to_nat k) (pending (fd_ r))) (broken (fd_ r)))
                (if k =? 0 then bytes_read_ r
                 else to_size_t kClass (bytes_read_ r + k)),
     Some (if k =? 0 then (w, fd)
           else (mkWorld (env w)
                   (<[out_path fd :=
                        write_at content (out_pos fd)
                                 (take (Z.to_nat k) (pending (fd_ r)))]> (files w))
                   (events w),
                 mkOutFd (out_path fd) (out_pos fd + k)))).
Proof.
  revert r w fd num_bytes content.
  induction fuel as [|fuel IH];
    intros [[pend brk] count] [e fs ev] [path pos] n content Hfuel Hn Hpos Hc Hmay k;
    cbn [fd_ pending broken bytes_read_ out_path out_pos files env events] in *;
    [lia|].
  cbn [CopyTo_loop fd_ bytes_read_].
  destruct (0 <? n) eqn:Epos.
  2:{ apply Z.ltb_ge in Epos. assert (n = 0) as -> by lia.
      assert (k = 0) as -> by (subst k; lia).
      replace (0 <=? Z.of_nat (length pend)) with true by blia.
      reflexivity. }
  apply Z.ltb_lt in Epos.
  destruct pend as [|b pend].
  { assert (k = 0) as -> by (subst k; cbn [length]; lia).
    cbn [read pending broken length]. replace (n <=? Z.of_nat 0) with false by blia.
    replace (n =? 0) with false by blia.
    destruct brk; reflexivity. }
  rewrite read_some by (cbn [pending]; unfold kBufSize; (lia || done)).
  cbn [pending broken].
  set (l := b :: pend) in *.
  set (chunk := Z.min (Z.min kBufSize n) (Z.of_nat (length l))).
  assert (Hchunk : 0 < chunk <= k)
    by (subst chunk k l; unfold kBufSize; cbn [length]; lia).
  replace (chunk =? 0) with false by blia.
  replace (chunk =? -1) with false by blia.
  rewrite (take_min l), (drop_min l). fold chunk.
  assert (Hlen : Z.of_nat (length (take (Z.to_nat chunk) l)) = chunk)
    by (rewrite length_take; subst chunk; lia).
  unfold WriteFully. cbn [out_path out_pos files env events].
  destruct (take (Z.to_nat chunk) l) as [|c0 cs] eqn:Etake; [cbn in Hlen; lia|].
  rewrite Hc, Hmay. rewrite <- Etake in *. rewrite Hlen. cbn [fd_ bytes_read_].
  rewrite (IH _ _ _ _ (write_at content pos (take (Z.to_nat chunk) l)));
    cbn [fd_ pending broken bytes_read_ out_path out_pos files env events];
    rewrite ?length_drop;
    [| subst l; cbn [length] in *; lia | lia | lia | apply lookup_insert_eq | done].
  set (k' := Z.min (n - chunk) (Z.of_nat (length l - Z.to_nat chunk))).
  assert (Hk : k = chunk + k') by (subst k k'; lia).
  replace (k =? 0) with false by blia.
  f_equal; [f_equal|].
  - destruct (n <=? Z.of_nat (length l)) eqn:E; blia.
  - f_equal.
    + f_equal. rewrite drop_drop. f_equal. lia.
    + destruct (k' =? 0) eqn:E0.
      * apply Z.eqb_eq in E0. f_equal. lia.
      * rewrite to_size_t_add_l. f_equal. lia.
  - f_equal. destruct (k' =? 0) eqn:E0.
    + apply Z.eqb_eq in E0.
      replace (Z.to_nat k) with (Z.to_nat chunk) by lia.
      do 2 f_equal. lia.
    + f_equal; [|f_equal; lia]. f_equal.
      rewrite insert_insert_eq. f_equal.
      replace (pos + chunk) with (pos + Z.of_nat (length (take (Z.to_nat chunk) l)))
        by lia.
      rewrite write_at_app by done. f_equal.
      rewrite take_take_drop. f_equal. lia.
Qed.

(** X10. [CopyTo] into a file that accepts every write, whatever the size of
    the blocks in which the bytes travel: it moves the first
    [min num_bytes available] pending bytes to the file, at the position of
    the descriptor, advances the descriptor and the counter of the reader by
    as many, and reports success exactly when [num_bytes] bytes were
    available.  A call that fails for want of input has still written what
    there was. *)
Theorem FdReader_CopyTo_file r w fd num_bytes content :
  0 <= num_bytes -> 0 <= out_pos fd ->
  files w !! out_path fd = Some content ->
  (forall pos data, may_write (env w) (out_path fd) pos data = true) ->
  let k := Z.min num_bytes (Z.of_nat (length (pending (fd_ r)))) in
  FdReader_CopyTo kClass r (Some (w, fd)) num_bytes
  = (num_bytes <=? Z.of_nat (length (pending (fd_ r))),
     mkFdReader (mkSource (drop (Z.to_nat k) (pending (fd_ r))) (broken (fd_ r)))
                (if k =? 0 then bytes_read_ r
                 else to_size_t kClass (bytes_read_ r + k)),
     Some (if k =? 0 then (w, fd)
           else (mkWorld (env w)
                   (<[out_path fd :=
                        write_at content (out_pos fd)
                                 (take (Z.to_nat k) (pending (fd_ r)))]> (files w))
                   (events w),
                 mkOutFd (out_path fd) (out_pos fd + k)))).
Proof.
  intros Hn Hpos Hc Hmay. unfold FdReader_CopyTo.
  by apply CopyTo_loop_file; [lia | | | |].
Qed.

(** X11. [Seek] on the destination, for an offset given as a [size_t]: an
    offset below half the range is an [off_t] that is not negative; when the
    file system accepts it, [lseek] moves the descriptor there and [Seek]
    succeeds, and when the file system refuses it, the descriptor stays
    where it is and [Seek] fails.  An offset in the upper half is a negative
    [off_t], which [lseek] always refuses, so that the descriptor stays
    where it is.  [Seek] then reports a failure, unless the offset is the
    largest [size_t], which as an [off_t] is the -1 that [lseek] returns for
    the error: this one case is reported as a success. *)
Theorem Seek_off_t e fd offset :
  0 <= offset < wmod kClass ->
  Seek kClass e fd offset
  = if offset <? wmod kClass / 2
    then (if may_seek e (out_path fd) offset
          then (true, mkOutFd (out_path fd) offset)
          else (false, fd))
    else (offset =? wmod kClass - 1, fd).
Proof.
  intros Ho. pose proof (wmod_half kClass) as [_ HW].
  unfold Seek, lseek.
  destruct (offset <? wmod kClass / 2) eqn:E.
  - apply Z.ltb_lt in E. rewrite to_long_small by lia.
    replace (0 <=? offset) with true by blia. cbn [andb].
    destruct (may_seek e (out_path fd) offset); [by rewrite Z.eqb_refl|].
    by replace (-1 =? offset) with false by blia.
  - apply Z.ltb_ge in E.
    assert (Hl : to_long kClass offset = offset - wmod kClass).
    { unfold to_long.
      replace (offset + wmod kClass / 2)
        with (offset - wmod kClass / 2 + 1 * wmod kClass) by lia.
      rewrite Z_mod_plus_full, Z.mod_small by lia. lia. }
    rewrite Hl. replace (0 <=? offset - wmod kClass) with false by blia.
    f_equal. destruct (offset =? wmod kClass - 1) eqn:E1; blia.
Qed.

End ReaderBlockFacts.

(** ** More on the notes *)

Section NoteEntryFacts.

Variable kClass : ElfClass.
Implicit Types (fm : gmap (Z * Z) FileInfo.t) (note desc : list byte).

Lemma find_note_first type fuel note :
  (length note <= fuel)%nat ->
  exists k,
    find_note fuel type note = nth_note k note
    /\ (forall j, (j < k)%nat ->
          IsValid (nth_note j note) = true /\ GetType (nth_note j note) <> type)
    /\ (IsValid (find_note fuel type note) = true ->
        GetType (find_note fuel type note) = type).
Proof.
  revert note. induction fuel as [|fuel IH]; intros note Hlen; cbn [find_note].
  { exists 0%nat. split; [done|]. split; [lia|].
    destruct note; [done | cbn in Hlen; lia]. }
  destruct (IsValid note && negb (GetType note =? type)) eqn:E.
  - apply andb_true_iff in E as [Hv Ht].
    apply negb_true_iff, Z.eqb_neq in Ht.
    pose proof (GetNextNote_shorter note Hv).
    destruct (IH (GetNextNote note)) as (k & Hk & Hbefore & Hfound); [lia|].
    exists (S k). split; [done|]. split; [|done].
    intros [|j] Hj; cbn [nth_note]; [done|]. apply Hbefore. lia.
  - exists 0%nat. split; [done|]. split; [lia|].
    intros Hv. rewrite Hv in E. cbn [andb] in E.
    apply negb_false_iff in E. by apply Z.eqb_eq.
Qed.

(** X12. The search for a note returns the first note of the type sought:
    the note returned is reached from the start of the buffer by a number of
    steps to the next note, every note passed on the way is valid and of
    another type, and the note returned, when it is valid, has the type
    sought.  When it is not valid, the buffer holds no such note before its
    first invalid record. *)
Theorem FindNote_first_match type note_buf :
  exists k,
    FindNote type note_buf = nth_note k note_buf
    /\ (forall j, (j < k)%nat ->
          IsValid (nth_note j note_buf) = true
          /\ GetType (nth_note j note_buf) <> type)
    /\ (IsValid (FindNote type note_buf) = true ->
        GetType (FindNote type note_buf) = type).
Proof. unfold FindNote. by apply find_note_first. Qed.

(** A byte of the description that is in range is what the [char] read
    returns. *)
Lemma GetValueFromNote_char note pre c post :
  GetDescription note = pre ++ c :: post ->
  GetValueFromNote char_t note (Z.of_nat (length pre)) x00 = c.
Proof.
  intros Hd. unfold GetValueFromNote, GetData, Covers. rewrite Hd.
  cbn [sizeof char_t load]. rewrite length_app. cbn [length].
  replace (0 <=? Z.of_nat (length pre)) with true by blia.
  replace (Z.of_nat (length pre) <? Z.of_nat (length pre + S (length post)))
    with true by blia.
  replace (Z.of_nat (length pre) + 1 <=? Z.of_nat (length pre + S (length post)))
    with true by blia.
  cbn [andb]. rewrite Nat2Z.id, drop_app_length. reflexivity.
Qed.

Lemma read_name_terminated_fuel note name fuel pre post path :
  GetDescription note = pre ++ name ++ x00 :: post ->
  Forall (fun c => c <> x00) name ->
  Z.of_nat (length (GetDescription note)) < wmod kClass ->
  (length name < fuel)%nat ->
  read_name kClass fuel note (Z.of_nat (length pre)) path
  = (Z.of_nat (length pre + length name + 1), path ++ name).
Proof.
  intros Hd Hname Hfit. revert fuel pre path Hd.
  induction Hname as [|c name Hc Hname IH]; intros fuel pre path Hd Hfuel;
    (destruct fuel as [|fuel]; [cbn in Hfuel; lia|]); cbn [read_name].
  - rewrite (GetValueFromNote_char note pre x00 post) by done.
    cbn [Byte.eqb]. rewrite app_nil_r. f_equal.
    rewrite Hd, !length_app in Hfit. cbn [length] in Hfit |- *.
    rewrite to_size_t_small by lia. lia.
  - rewrite (GetValueFromNote_char note pre c (name ++ x00 :: post)) by done.
    destruct (Byte.eqb c x00) eqn:E.
    { apply Byte.byte_dec_bl in E. done. }
    rewrite Hd, !length_app in Hfit. cbn [length] in Hfit.
    rewrite to_size_t_small by lia.
    replace (Z.of_nat (length pre) + 1) with (Z.of_nat (length (pre ++ [c])))
      by (rewrite length_app; cbn [length]; lia).
    rewrite IH; [| by rewrite <- app_assoc | cbn [length] in Hfuel; lia].
    rewrite length_app, <- app_assoc. cbn [length app]. f_equal. lia.
Qed.

(** X13. The loop that reads a file name, on a name that is terminated in
    the description: when the description is shorter than the range of
    [size_t] and holds, at the position where the read starts, a name without
    zero bytes followed by a zero byte, the loop appends exactly that name to
    the path and leaves the position behind the terminator.  The number of
    rounds that the model grants the loop is enough for this. *)
Theorem read_name_terminated note name pre post path :
  GetDescription note = pre ++ name ++ x00 :: post ->
  Forall (fun c => c <> x00) name ->
  Z.of_nat (length (GetDescription note)) < wmod kClass ->
  read_name kClass (S (length (GetDescription note))) note
            (Z.of_nat (length pre)) path
  = (Z.of_nat (length pre + length name + 1), path ++ name).
Proof.
  intros Hd Hname Hfit. apply (read_name_terminated_fuel _ _ _ _ post); try done.
  rewrite Hd, !length_app. lia.
Qed.

(** The entries that the loop of [GetFileMappings] adds to the map: the
    keys, the entries that are left alone, and the offset of a key, which is
    that of the last entry that lists it. *)
Lemma read_files_entries n note page_size i filename_pos fm fm' :
  read_files kClass n note page_size i filename_pos fm = Some fm' ->
  (forall range,
      is_Some (fm' !! range)
      <-> is_Some (fm !! range)
          \/ exists j, i <= j < i + Z.of_nat n /\ note_range kClass note j = range)
  /\ (forall range,
         (forall j, i <= j < i + Z.of_nat n -> note_range kClass note j <> range) ->
         fm' !! range = fm !! range)
  /\ (forall j info,
         i <= j < i + Z.of_nat n ->
         (forall j', j < j' < i + Z.of_nat n ->
                     note_range kClass note j' <> note_range kClass note j) ->
         fm' !! note_range kClass note j = Some info ->
         FileInfo.offset info
         = to_long kClass (note_long kClass note (2 + 3 * j + 2) * page_size)).
Proof.
  revert i filename_pos fm.
  induction n as [|n IH]; intros i filename_pos fm; cbn [read_files].
  { intros [= <-]. split; [|split].
    - intros range. split; [by left|]. intros [H | (j & Hj & _)]; [done | lia].
    - done.
    - intros j info Hj. lia. }
  fold (note_long kClass note (2 + 3 * i)).
  fold (note_long kClass note (2 + 3 * i + 1)).
  fold (note_long kClass note (2 + 3 * i + 2)).
  destruct (_ || _); [done|].
  fold (note_range kClass note i).
  destruct (read_name _ _ _ _ _) as [pos' path'].
  intros Hrun. apply IH in Hrun as (Hkeys & Hkeep & Hoff). clear IH.
  split; [|split].
  - intros range. rewrite Hkeys. split.
    + intros [Hin | (j & Hj & Hr)].
      * destruct (decide (note_range kClass note i = range)) as [Heq|Hne].
        -- right. exists i. split; [lia | done].
        -- left. by rewrite lookup_insert_ne in Hin.
      * right. exists j. split; [lia | done].
    + intros [Hin | (j & Hj & Hr)].
      * destruct (decide (note_range kClass note i = range)) as [Heq|Hne].
        -- left. rewrite Heq, lookup_insert_eq. by eexists.
        -- left. by rewrite lookup_insert_ne.
      * destruct (decide (j = i)) as [->|Hji].
        -- left. rewrite Hr, lookup_insert_eq. by eexists.
        -- right. exists j. split; [lia | done].
  - intros range Hnone. rewrite Hkeep by (intros j Hj; apply Hnone; lia).
    rewrite lookup_insert_ne; [done|]. apply Hnone. lia.
  - intros j info Hj Hlast Hinfo.
    destruct (decide (j = i)) as [->|Hji].
    + rewrite Hkeep in Hinfo by (intros j' Hj'; apply Hlast; lia).
      rewrite lookup_insert_eq in Hinfo. by injection Hinfo as <-.
    + apply Hoff; [lia | | done]. intros j' Hj'. apply Hlast. lia.
Qed.

(** X14. The keys of the map that [GetFileMappings] builds from the empty
    map are exactly the ranges that the entries of the NT_FILE note list,
    as many entries as the file count announces. *)
Theorem GetFileMappings_keys note_buf fm range :
  GetFileMappings kClass note_buf ∅ = Some fm ->
  let note := FindNote NT_FILE note_buf in
  is_Some (fm !! range)
  <-> exists i, 0 <= i < note_file_count kClass note
                /\ note_range kClass note i = range.
Proof.
  intros Hrun note. unfold GetFileMappings, read_file_note in Hrun.
  fold note in Hrun.
  destruct (negb (IsValid note)); [done|].
  destruct (_ || _); [done|].
  apply read_files_entries in Hrun as (Hkeys & _).
  rewrite Hkeys, lookup_empty. unfold note_file_count, note_long.
  rewrite long_at_0. split.
  - intros [[? ?] | (i & Hi & Hr)]; [done|]. exists i. split; [lia | done].
  - intros (i & Hi & Hr). right. exists i. split; [lia | done].
Qed.

(** X15. The offset that [GetFileMappings] records for a range is the one of
    the last entry that lists the range: the page offset of that entry times
    the page size, as a [long]. *)
Theorem GetFileMappings_offset_of_last_entry note_buf fm i :
  GetFileMappings kClass note_buf ∅ = Some fm ->
  let note := FindNote NT_FILE note_buf in
  0 <= i < note_file_count kClass note ->
  (forall j, i < j < note_file_count kClass note ->
             note_range kClass note j <> note_range kClass note i) ->
  exists info,
    fm !! note_range kClass note i = Some info
    /\ FileInfo.offset info = note_offset kClass note i.
Proof.
  intros Hrun note Hi Hlast.
  assert (Hkey : is_Some (fm !! note_range kClass note i)).
  { unfold GetFileMappings, read_file_note in Hrun. fold note in Hrun.
    destruct (negb (IsValid note)); [done|].
    destruct (_ || _); [done|].
    apply read_files_entries in Hrun as (Hkeys & _).
    apply Hkeys. right. exists i. split; [|done].
    unfold note_file_count, note_long in Hi. rewrite long_at_0 in Hi. lia. }
  destruct Hkey as [info Hinfo]. exists info. split; [done|].
  unfold GetFileMappings, read_file_note in Hrun. fold note in Hrun.
  destruct (negb (IsValid note)); [done|].
  destruct (_ || _); [done|].
  apply read_files_entries in Hrun as (_ & _ & Hoff).
  unfold note_file_count, note_long in Hi, Hlast. rewrite long_at_0 in Hi, Hlast.
  unfold note_offset. unfold note_long at 2. rewrite long_at_1.
  apply Hoff; [lia | | done]. intros j Hj. apply Hlast. lia.
Qed.

End NoteEntryFacts.

(** ** More on FilterSegments *)

Section FilterLayoutFacts.

Variable kClass : ElfClass.
Implicit Types (fm : gmap (Z * Z) FileInfo.t) (ph prev : Phdr).

(** The body of the loop yields the same entry for an entry that it has
    produced before as for the original entry: what it keeps of an entry it
    does not change, and what it sets does not depend on what was there. *)
Lemma filter_entry_again fm prev prev' ph :
  filter_entry kClass fm prev (filter_entry kClass fm prev' ph)
  = filter_entry kClass fm prev ph.
Proof.
  destruct ph as [ty fl off va pa fs ms al].
  unfold filter_entry, segment_range.
  cbn [p_type p_flags p_offset p_vaddr p_paddr p_filesz p_memsz p_align].
  destruct ((ty =? PT_LOAD)
            && count fm (to_long kClass va, to_long kClass (to_size_t kClass (va + ms))))
    eqn:E;
    cbn [set_p_filesz set_p_offset p_type p_flags p_offset p_vaddr p_paddr
         p_filesz p_memsz p_align];
    destruct (negb (al =? 0)
              && negb (to_size_t kClass (p_offset prev' + p_filesz prev') mod al =? 0));
    cbn [set_p_filesz set_p_offset p_type p_flags p_offset p_vaddr p_paddr
         p_filesz p_memsz p_align];
    rewrite E;
    cbn [set_p_filesz set_p_offset p_type p_flags p_offset p_vaddr p_paddr
         p_filesz p_memsz p_align];
    reflexivity.
Qed.

Lemma filter_from_again fm prev phs :
  filter_from kClass fm prev (filter_from kClass fm prev phs)
  = filter_from kClass fm prev phs.
Proof.
  revert prev. induction phs as [|ph phs IH]; intros prev; cbn [filter_from]; [done|].
  rewrite filter_entry_again. f_equal. apply IH.
Qed.

(** X16. [FilterSegments] is idempotent: applied to its own output, with the
    same mappings, it returns that output.  No file size and no offset
    changes any more. *)
Theorem FilterSegments_idempotent program_headers fm program_headers_filtered :
  FilterSegments kClass program_headers fm = Some program_headers_filtered ->
  FilterSegments kClass program_headers_filtered fm = Some program_headers_filtered.
Proof.
  unfold FilterSegments. destruct program_headers as [|first rest]; [done|].
  intros [= <-]. by rewrite filter_from_again.
Qed.

Lemma align_up_lt off align :
  0 < align -> align_up off align < off + align.
Proof.
  intros Ha. unfold align_up.
  destruct ((align =? 0) || (off mod align =? 0)) eqn:E; [lia|].
  apply orb_false_iff in E as [_ E]. apply Z.eqb_neq in E.
  pose proof (Z.mod_pos_bound off align Ha). lia.
Qed.

(** Without wrap-around every entry that the loop produces starts at the
    end of the entry before it, rounded up to its alignment. *)
Lemma filter_from_packed fm prev phs :
  0 <= p_offset prev -> 0 <= p_filesz prev ->
  Forall (Phdr_ok kClass) phs ->
  offsets_fit kClass fm prev phs = true ->
  forall (i : nat) a b,
    (prev :: filter_from kClass fm prev phs) !! i = Some a ->
    (prev :: filter_from kClass fm prev phs) !! S i = Some b ->
    0 <= p_align b
    /\ p_offset b = align_up (segment_end a) (p_align b).
Proof.
  revert prev. induction phs as [|ph phs IH]; intros prev Ho Hf Hok Hfit.
  { intros [|i] ? ? ? H; done. }
  apply Forall_cons in Hok as [Hph Hok].
  cbn [offsets_fit] in Hfit. apply andb_true_iff in Hfit as [Hfit1 Hfit].
  apply Z.ltb_lt in Hfit1.
  destruct Hph as (_ & _ & _ & _ & _ & Hfs & _ & Hal).
  pose proof (filter_entry_offset kClass fm prev ph Ho Hf (proj1 Hal) Hfit1) as Hoff.
  pose proof (align_up_ge (p_offset prev + p_filesz prev) (p_align ph) (proj1 Hal)).
  pose proof (filter_entry_filesz_nonneg kClass fm prev ph (proj1 Hfs)).
  cbn [filter_from]. intros [|i] a b Ha Hb.
  - cbn in Ha, Hb. injection Ha as <-. injection Hb as <-.
    rewrite filter_entry_align. split; [lia|]. exact Hoff.
  - rewrite lookup_cons in Ha. rewrite lookup_cons in Hb.
    eapply (IH (filter_entry kClass fm prev ph)); [lia | lia | done | done | done | done].
Qed.

(** X17. For a list of well-typed program headers on which no recomputed
    offset wraps around, the entries that [FilterSegments] produces do not
    overlap in the file and are packed: every entry after the first starts
    at the end of the entry before it, rounded up to its own alignment, so
    that the gap between the two is smaller than the alignment, and there is
    no gap when the alignment is 0 or 1. *)
Theorem FilterSegments_packed fm first rest out (i : nat) a b :
  Forall (Phdr_ok kClass) (first :: rest) ->
  offsets_fit kClass fm first rest = true ->
  FilterSegments kClass (first :: rest) fm = Some out ->
  out !! i = Some a -> out !! S i = Some b ->
  p_offset b = align_up (segment_end a) (p_align b)
  /\ segment_end a <= p_offset b
  /\ p_offset b - segment_end a < Z.max 1 (p_align b).
Proof.
  intros Hok Hfit [= <-] Ha Hb.
  apply Forall_cons in Hok as [Hfirst Hok].
  destruct Hfirst as (_ & _ & Hfo & _ & _ & Hff & _).
  destruct (filter_from_packed fm first rest (proj1 Hfo) (proj1 Hff) Hok Hfit i a b Ha Hb)
    as [Hal Hoff].
  split; [done|]. rewrite Hoff.
  pose proof (align_up_ge (segment_end a) (p_align b) Hal).
  split; [done|].
  destruct (Z.eq_dec (p_align b) 0) as [E|E].
  - rewrite E. unfold align_up. cbn. lia.
  - pose proof (align_up_lt (segment_end a) (p_align b)). lia.
Qed.

End FilterLayoutFacts.

(** ** The destination file *)

Section EncodingFacts.

Variable kClass : ElfClass.

Lemma byte_of_Z_value z : Z.of_N (Byte.to_N (byte_of_Z z)) = z mod 256.
Proof.
  unfold byte_of_Z. pose proof (Z.mod_pos_bound z 256 eq_refl) as Hb.
  destruct (Byte.of_N (Z.to_N (z mod 256))) as [b|] eqn:E.
  - apply Byte.to_of_N in E. rewrite E. lia.
  - apply Byte.of_N_None_iff in E. lia.
Qed.

(** Decoding the [n] bytes that encode [z] gives [z] modulo [256 ^ n]. *)
Lemma le_decode_le_encode n z :
  le_decode (le_encode n z) = z mod 256 ^ Z.of_nat n.
Proof.
  revert z. induction n as [|n IH]; intros z.
  { cbn. by rewrite Z.mod_1_r. }
  cbn [le_encode le_decode]. rewrite byte_of_Z_value, IH.
  rewrite Nat2Z.inj_succ, Z.pow_succ_r by lia.
  rewrite Z.rem_mul_r; [done | done |]. apply Z.pow_pos_nonneg; lia.
Qed.

Lemma field_skip n z rest off size :
  Z.of_nat n <= off ->
  field (le_encode n z ++ rest) off size = field rest (off - Z.of_nat n) size.
Proof.
  intros H. unfold field. rewrite drop_app_ge by (rewrite length_le_encode; lia).
  rewrite length_le_encode. do 3 f_equal. lia.
Qed.

Lemma field_head n z rest off size :
  off = 0 -> size = Z.of_nat n ->
  field (le_encode n z ++ rest) off size = z mod 256 ^ size.
Proof.
  intros -> ->. unfold field. change (Z.to_nat 0) with 0%nat.
  rewrite drop_0, Nat2Z.id.
  replace (take n (le_encode n z ++ rest)) with (le_encode n z).
  - apply le_decode_le_encode.
  - symmetry. apply take_app_length'. symmetry. apply length_le_encode.
Qed.

(** A program header that holds values of its field types is what decoding
    finds in its encoding. *)
Lemma decode_encode_Phdr ph rest :
  Phdr_ok kClass ph ->
  decode_Phdr kClass (encode_Phdr kClass ph ++ rest) = ph.
Proof.
  destruct ph as [ty fl off va pa fs ms al].
  unfold Phdr_ok, decode_Phdr, encode_Phdr, wmod, wordbytes.
  cbn [p_type p_flags p_offset p_vaddr p_paddr p_filesz p_memsz p_align].
  destruct kClass; intros (H1 & H2 & H3 & H4 & H5 & H6 & H7 & H8);
    rewrite <- !app_assoc;
    f_equal;
    repeat (rewrite field_skip by (cbn; lia));
    (rewrite field_head by (cbn; lia));
    apply Z.mod_small; assumption.
Qed.

Lemma decode_encode_Phdrs phs rest :
  Forall (Phdr_ok kClass) phs ->
  decode_Phdrs kClass (length phs) (concat (map (encode_Phdr kClass) phs) ++ rest)
  = phs.
Proof.
  induction 1 as [|ph phs Hph Hphs IH]; [done|].
  cbn [length decode_Phdrs map concat]. rewrite <- app_assoc.
  pose proof (length_encode_Phdr kClass ph) as Hlen.
  replace (Z.to_nat (sizeof_Phdr kClass)) with (length (encode_Phdr kClass ph)) by lia.
  rewrite take_app_length, drop_app_length. rewrite IH. f_equal.
  rewrite <- (app_nil_r (encode_Phdr kClass ph)). by apply decode_encode_Phdr.
Qed.

Lemma length_encode_Phdrs phs :
  Z.of_nat (length (concat (map (encode_Phdr kClass) phs)))
  = Z.of_nat (length phs) * sizeof_Phdr kClass.
Proof.
  induction phs as [|ph phs IH]; [done|].
  cbn [map concat length]. rewrite length_app.
  pose proof (length_encode_Phdr kClass ph). lia.
Qed.

(** The body of the loop of [FilterSegments] keeps the values within their
    field types. *)
Lemma filter_entry_ok fm prev ph :
  Phdr_ok kClass ph -> Phdr_ok kClass (filter_entry kClass fm prev ph).
Proof.
  intros (H1 & H2 & H3 & H4 & H5 & H6 & H7 & H8).
  pose proof (wmod_pos kClass).
  unfold filter_entry, Phdr_ok.
  destruct ((p_type ph =? PT_LOAD) && count fm (segment_range kClass ph));
    cbn [set_p_filesz set_p_offset p_type p_flags p_offset p_vaddr p_paddr
         p_filesz p_memsz p_align];
    match goal with |- context [if ?c then _ else _] => destruct c end;
    cbn [set_p_filesz set_p_offset p_type p_flags p_offset p_vaddr p_paddr
         p_filesz p_memsz p_align];
    repeat split; try assumption; try apply to_size_t_range; lia.
Qed.

Lemma filter_from_ok fm prev phs :
  Forall (Phdr_ok kClass) phs ->
  Forall (Phdr_ok kClass) (filter_from kClass fm prev phs).
Proof.
  intros H. revert prev. induction H as [|ph phs Hph Hphs IH]; intros prev;
    cbn [filter_from]; constructor; [by apply filter_entry_ok | apply IH].
Qed.

End EncodingFacts.

Section OutputFacts.

Variable kClass : ElfClass.
Implicit Types (fm : gmap (Z * Z) FileInfo.t) (w : World) (fd : OutFd)
  (cw : CoredumpWriter) (r : FdReader) (input content : list byte).

(** [Read] of a block that is pending. *)
Lemma FdReader_Read_forward r num_bytes :
  0 <= num_bytes <= Z.of_nat (length (pending (fd_ r))) ->
  FdReader_Read kClass r num_bytes
  = (Some (take (Z.to_nat num_bytes) (pending (fd_ r))),
     mkFdReader (mkSource (drop (Z.to_nat num_bytes) (pending (fd_ r)))
                          (broken (fd_ r)))
                (to_size_t kClass (bytes_read_ r + num_bytes))).
Proof.
  intros Hn. unfold FdReader_Read, ReadFully.
  by replace (num_bytes <=? Z.of_nat (length (pending (fd_ r)))) with true by blia.
Qed.

(** [Seek] to a place ahead that the stream reaches. *)
Lemma FdReader_Seek_forward r offset :
  0 <= bytes_read_ r -> bytes_read_ r <= offset < wmod kClass ->
  offset - bytes_read_ r <= Z.of_nat (length (pending (fd_ r))) ->
  FdReader_Seek kClass r offset
  = (true,
     mkFdReader (mkSource (drop (Z.to_nat (offset - bytes_read_ r)) (pending (fd_ r)))
                          (broken (fd_ r)))
                offset).
Proof.
  intros Hr Ho Hn. unfold FdReader_Seek.
  replace (offset <? bytes_read_ r) with false by blia.
  unfold FdReader_CopyTo.
  rewrite (to_size_t_small kClass (offset - bytes_read_ r)) by lia.
  rewrite CopyTo_loop_discard by lia.
  replace (offset - bytes_read_ r <=? _) with true by blia.
  f_equal. f_equal.
  destruct (offset - bytes_read_ r =? 0) eqn:E0; [lia|].
  replace (bytes_read_ r + (offset - bytes_read_ r)) with offset by lia.
  apply to_size_t_small. lia.
Qed.

(** A write at or behind the end of a file keeps what the file holds and
    fills the gap with zero bytes. *)
Lemma write_at_beyond content pos (data : list byte) :
  Z.of_nat (length content) <= pos ->
  write_at content pos data
  = content ++ replicate (Z.to_nat pos - length content) x00 ++ data.
Proof.
  intros H. unfold write_at. rewrite take_ge by lia.
  rewrite drop_ge by lia. by rewrite app_nil_r.
Qed.

(** The loop that writes the program headers behind the ELF header appends
    their records in order. *)
Lemma write_program_headers_content phs w fd i w' fd' content :
  files w !! out_path fd = Some content ->
  Z.of_nat (length content) = sizeof_Ehdr kClass + Z.of_nat i * sizeof_Phdr kClass ->
  sizeof_Ehdr kClass + (Z.of_nat i + Z.of_nat (length phs)) * sizeof_Phdr kClass
  < wmod kClass / 2 ->
  write_program_headers kClass w fd (sizeof_Phdr kClass) i phs = (None, w', fd') ->
  out_path fd' = out_path fd
  /\ files w' !! out_path fd
     = Some (content ++ concat (map (encode_Phdr kClass) phs)).
Proof.
  pose proof (sizeof_Ehdr_small kClass) as HE. pose proof (sizeof_Phdr_pos kClass) as HP.
  pose proof (wmod_half kClass) as HW.
  revert w fd i content.
  induction phs as [|ph phs IH]; intros w fd i content Hc Hlen Hbound;
    cbn [write_program_headers length map concat] in *.
  { intros [= <- <-]. by rewrite app_nil_r. }
  set (offset := sizeof_Ehdr kClass + Z.of_nat i * sizeof_Phdr kClass) in *.
  assert (Hoff : 0 <= offset < wmod kClass / 2) by (subst offset; nia).
  rewrite (to_size_t_small kClass offset) by lia.
  destruct (Seek kClass _ fd offset) as [[|] fd1] eqn:Es; [|done].
  apply Seek_ok in Es as ->; [|done].
  destruct (WriteFully w _ _) as [[w1 fd2]|] eqn:Ew; [|done].
  pose proof (length_encode_Phdr kClass ph) as Hrec.
  apply (WriteFully_append _ _ _ content) in Ew
    as (Hf1 & _ & _ & Hp1 & _); [| done | cbn; lia | lia].
  cbn [out_path] in *.
  intros Hrun.
  apply (IH _ _ _ (content ++ encode_Phdr kClass ph)) in Hrun as [Hp' Hc'];
    [| by rewrite Hp1, Hf1, lookup_insert_eq | rewrite length_app; subst offset; lia
     | lia].
  rewrite Hp1 in Hp', Hc'. split; [done|]. by rewrite Hc', <- app_assoc.
Qed.

(** The loop over the segments, on an input of which the reader holds the
    rest, and with filtered entries that are laid out one after the other
    behind the end of the file: what the file held stays, as the start of
    the file, and each segment that is kept is found in the file, at the
    offset of its filtered entry, with the bytes that the input holds at the
    offset of the original entry. *)
Lemma write_segments_content input segments prev r w fd i r' w' fd' content :
  files w !! out_path fd = Some content ->
  0 <= segment_end prev -> 0 <= p_filesz prev ->
  Z.of_nat (length content) <= segment_end prev ->
  laid_out prev (map fst segments) ->
  segment_end (List.last (map fst segments) prev) < wmod kClass / 2 ->
  Forall (fun s => Phdr_ok kClass s.2) segments ->
  Z.of_nat (length input) < wmod kClass ->
  pending (fd_ r) = drop (Z.to_nat (bytes_read_ r)) input ->
  0 <= bytes_read_ r <= Z.of_nat (length input) ->
  write_segments kClass r w fd i segments = (None, r', w', fd') ->
  exists content',
    files w' !! out_path fd = Some content'
    /\ content `prefix_of` content'
    /\ forall (k : nat) ph original,
         segments !! k = Some (ph, original) -> 0 < p_filesz ph ->
         p_offset original + p_filesz ph <= Z.of_nat (length input)
         /\ take (Z.to_nat (p_filesz ph)) (drop (Z.to_nat (p_offset ph)) content')
            = take (Z.to_nat (p_filesz ph))
                   (drop (Z.to_nat (p_offset original)) input).
Proof.
  pose proof (wmod_half kClass) as HW.
  intros Hc Hprev Hpf Hle Hlaid Hbound Hok Hfit.
  revert prev r w fd i content Hc Hprev Hpf Hle Hlaid Hbound.
  induction Hok as [|[ph original] segments Horig Hok IH];
    intros prev r w fd i content Hc Hprev Hpf Hle Hlaid Hbound Hpend Hread.
  { cbn. intros [= <- <- <-]. exists content. split; [done|]. split; [done|].
    intros k ? ? Hk. done. }
  cbn [map fst laid_out] in Hlaid. destruct Hlaid as (Hstart & Hfs & Hlaid).
  cbn [map fst] in Hbound. rewrite List_last_cons in Hbound.
  destruct (laid_out_last ph (map fst segments) Hfs Hlaid) as [Hend _].
  cbn [write_segments]. unfold segment_end in *.
  destruct (p_filesz ph >? 0) eqn:Efs.
  - rewrite Z.gtb_ltb in Efs. apply Z.ltb_lt in Efs.
    cbn [snd] in Horig. destruct Horig as (_ & _ & Hoo & _).
    destruct (FdReader_Seek kClass r (p_offset original)) as [[|] r1] eqn:Er; [|done].
    apply FdReader_Seek_Some in Er as (Hge & Hn & ->); [| lia | lia].
    destruct (Seek kClass _ fd (p_offset ph)) as [[|] fd1] eqn:Es; [|done].
    apply Seek_ok in Es as ->; [|lia].
    destruct (FdReader_CopyTo kClass _ _ (p_filesz ph))
      as [[[|] r2] [[w2 fd2]|]] eqn:Ec; try done.
    apply (CopyTo_loop_write _ _ _ _ _ _ content) in Ec as (Hn2 & -> & [= -> ->]);
      [| done | cbn; lia | done].
    cbn [fd_ pending broken bytes_read_ out_path out_pos files env events] in *.
    assert (Hp1 : drop (Z.to_nat (p_offset original - bytes_read_ r)) (pending (fd_ r))
                  = drop (Z.to_nat (p_offset original)) input).
    { rewrite Hpend, drop_drop. f_equal. lia. }
    rewrite Hp1 in *. rewrite length_drop in Hn2. rewrite Hpend, length_drop in Hn.
    set (data := take (Z.to_nat (p_filesz ph)) (drop (Z.to_nat (p_offset original)) input))
      in *.
    assert (Hdata : Z.of_nat (length data) = p_filesz ph)
      by (subst data; rewrite length_take, length_drop; lia).
    rewrite write_at_beyond by lia.
    set (content1 := content ++ replicate (Z.to_nat (p_offset ph) - length content) x00
                     ++ data).
    assert (Hlen1 : Z.of_nat (length content1) = p_offset ph + p_filesz ph).
    { subst content1. rewrite !length_app, length_replicate. lia. }
    intros Hrun.
    eapply (IH ph _ _ _ _ content1) in Hrun;
      cbn [fd_ pending broken bytes_read_ out_path out_pos files env events];
      [| apply lookup_insert_eq | lia | lia | lia | done | done | |].
    2:{ rewrite to_size_t_small by lia. rewrite drop_drop. f_equal. lia. }
    2:{ rewrite to_size_t_small by lia. lia. }
    destruct Hrun as (content' & Hc' & Hpre & Hsegs).
    exists content'. split; [done|]. split.
    { etrans; [|exact Hpre]. subst content1. by apply prefix_app_r. }
    intros [|k] ph' original' Hk Hfs'.
    + cbn in Hk. injection Hk as <- <-. split; [lia|].
      destruct Hpre as [tail ->]. subst content1.
      rewrite (app_assoc content), <- (app_assoc _ data tail).
      rewrite drop_app_length'
        by (rewrite length_app, length_replicate; lia).
      rewrite take_app_length' by lia. done.
    + rewrite lookup_cons in Hk. by eapply Hsegs.
  - rewrite Z.gtb_ltb in Efs. apply Z.ltb_ge in Efs.
    intros Hrun.
    eapply (IH ph _ _ _ _ content) in Hrun; [| done | lia | lia | lia | done | done | done | done].
    destruct Hrun as (content' & Hc' & Hpre & Hsegs).
    exists content'. split; [done|]. split; [done|].
    intros [|k] ph' original' Hk Hfs'.
    + cbn in Hk. injection Hk as <- <-. lia.
    + rewrite lookup_cons in Hk. by eapply Hsegs.
Qed.

Lemma length_find_note fuel type note :
  (length (find_note fuel type note) <= length note)%nat.
Proof.
  revert note. induction fuel as [|fuel IH]; intros note; cbn [find_note]; [done|].
  destruct (IsValid note && negb (GetType note =? type)) eqn:E; [|done].
  apply andb_true_iff in E as [Hv _].
  pose proof (GetNextNote_shorter note Hv). specialize (IH (GetNextNote note)). lia.
Qed.

(** A buffer in which [GetFileMappings] finds its note is not empty. *)
Lemma GetFileMappings_buffer note_buf fm0 fm :
  GetFileMappings kClass note_buf fm0 = Some fm ->
  12 <= Z.of_nat (length note_buf).
Proof.
  unfold GetFileMappings.
  destruct (IsValid (FindNote NT_FILE note_buf)) eqn:E; [|done]. intros _.
  apply IsValid_length in E.
  pose proof (length_find_note (length note_buf) NT_FILE note_buf).
  unfold FindNote in E. lia.
Qed.

Lemma lookup_combine {A B} (l : list A) (k : list B) (i : nat) x y :
  l !! i = Some x -> k !! i = Some y -> combine l k !! i = Some (x, y).
Proof.
  revert k i. induction l as [|a l IH]; intros [|b k] [|i] Hl Hk; try done.
  - cbn in *. congruence.
  - rewrite lookup_cons in Hl. rewrite lookup_cons in Hk. cbn [combine].
    rewrite lookup_cons. by apply IH.
Qed.

(** A write of a block that is not empty, wherever the descriptor is. *)
Lemma WriteFully_at w fd data w' fd' content :
  files w !! out_path fd = Some content -> (0 < length data)%nat ->
  WriteFully w fd data = Some (w', fd') ->
  files w' = <[out_path fd := write_at content (out_pos fd) data]> (files w)
  /\ out_path fd' = out_path fd.
Proof.
  intros Hc Hlen. unfold WriteFully.
  destruct data as [|b data]; [cbn in Hlen; lia|]. rewrite Hc.
  destruct (may_write _ _ _ _); [|done]. by intros [= <- <-].
Qed.

(** The destination at the end of a successful run on a fresh file, for an
    input shorter than the range of [size_t] and a layout that does not
    wrap: the file starts with the ELF header, the filtered program headers,
    zero bytes up to the offset of the NOTE segment and the NOTE segment, and
    holds every segment that is kept at the offset of its filtered entry. *)
Lemma WriteCoredumpToFD_content cw w fd_dest size w' elf_header first rest
    note_buf reader fm :
  files w !! out_path fd_dest = Some [] -> out_pos fd_dest = 0 ->
  input_fits kClass cw ->
  ReadUntilNote kClass (env w) (mkFdReader (fd_src_ cw) 0)
  = Returns (Some (elf_header, first :: rest, note_buf), reader) ->
  GetFileMappings kClass note_buf ∅ = Some fm ->
  layout_fits kClass fm first rest ->
  WriteCoredumpToFD kClass cw w fd_dest = (Written size, w') ->
  let filtered := first :: filter_from kClass fm first rest in
  let table_end := sizeof_Ehdr kClass + Z.of_nat (length filtered) * sizeof_Phdr kClass in
  exists content tail,
    files w' !! out_path fd_dest = Some content
    /\ content
       = (elf_header ++ concat (map (encode_Phdr kClass) filtered)
          ++ replicate (Z.to_nat (p_offset first - table_end)) x00 ++ note_buf)
         ++ tail
    /\ table_end <= p_offset first
    /\ forall (k : nat) ph original,
         filter_from kClass fm first rest !! k = Some ph ->
         rest !! k = Some original -> 0 < p_filesz ph ->
         p_offset original + p_filesz ph
         <= Z.of_nat (length (pending (fd_src_ cw)))
         /\ take (Z.to_nat (p_filesz ph)) (drop (Z.to_nat (p_offset ph)) content)
            = take (Z.to_nat (p_filesz ph))
                   (drop (Z.to_nat (p_offset original)) (pending (fd_src_ cw))).
Proof.
  intros Hempty Hpos0 Hinput Hread0 Hfm0 [Hoffsets Hend] Hrun filtered table_end.
  pose proof (sizeof_Ehdr_small kClass) as HE. pose proof (sizeof_Phdr_pos kClass) as HP.
  pose proof (wmod_half kClass) as HW.
  apply WriteCoredumpToFD_Written in Hrun
    as (eh & phs & nb & rd & fm' & filtered' & w1 & w2 & w3 & fd3 & w4 & fd4 & fd5
        & w6 & fd6 & rd' & fd7 & Hread & Hfm & Hfilt & Hsize & Hfree & Hlimit
        & Hauxv & Hmaps & Hwe & Hwp & Hseek & Hwn & Hseg).
  rewrite Hread0 in Hread. injection Hread as <- <- <- <-.
  rewrite Hfm0 in Hfm. injection Hfm as <-.
  cbn [FilterSegments] in Hfilt. injection Hfilt as <-. fold filtered in Hsize, Hwp, Hseek, Hseg.
  rename Hread0 into Hread.
  pose proof Hread as Hread'.
  apply ReadUntilNote_ok in Hread'
    as (first' & rest' & [= <- <-] & Hok & _ & Hnb & Heh & Hphent & Hfits).
  destruct (Hfits Hinput) as [Htable Hnote_end]. clear Hfits.
  fold filtered in Htable.
  assert (Hlenf : length filtered = length (first :: rest))
    by (subst filtered; cbn [length]; by rewrite length_filter_from).
  rewrite <- Hlenf in Htable. fold table_end in Htable.
  (* where the reader is *)
  destruct cw as [[input brk] dest dir]. unfold input_fits in Hinput.
  cbn [fd_src_ pending coredump_filename_ proc_files_dir_] in *.
  pose proof (ReadUntilNote_blocks kClass _ _ _ _ _ _ _ Hinput Hread)
    as (first' & rest' & [= <- <-] & _ & _ & _ & _ & _ & Hnote_in & ->).
  (* the size and the layout *)
  assert (Hsmall : 0 <= size <= kMaxCoredumpSize).
  { split.
    - rewrite Hsize. unfold expected_coredump_size.
      destruct (last filtered); [apply to_size_t_range | lia].
    - unfold coredump_size_limit in Hlimit. lia. }
  pose proof Hok as Hok'.
  apply Forall_cons in Hok' as [Hfirst Hrest].
  destruct Hfirst as (_ & _ & Hfo & _ & _ & Hff & _).
  pose proof (filter_from_laid_out kClass fm first rest (proj1 Hfo) (proj1 Hff) Hrest Hoffsets)
    as Hlaid.
  destruct (laid_out_last first _ (proj1 Hff) Hlaid) as [Hmono Hlastfs].
  set (back := List.last (filter_from kClass fm first rest) first) in *.
  assert (Hexp : size = segment_end back).
  { rewrite Hsize. unfold expected_coredump_size. subst filtered.
    rewrite last_List_last. fold back. apply to_size_t_small.
    unfold segment_end in *. lia. }
  unfold segment_end in Hmono, Hexp, Hnote_end.
  (* the proc files leave the destination empty *)
  pose proof (WriteAuxv_other _ _ _ _ _ _ Hempty Hauxv) as Hc1.
  pose proof (WriteMaps_other _ _ _ _ _ _ _ _ Hc1 Hmaps) as Hc2.
  (* the ELF header *)
  apply (WriteFully_append _ _ _ []) in Hwe as (Hf3 & _ & _ & Hp3 & Hpos3);
    [| done | done | lia].
  cbn [app] in Hf3, Hpos3.
  (* the program headers *)
  rewrite Hphent in Hwp.
  apply (write_program_headers_content _ _ _ _ _ _ elf_header) in Hwp as [Hp4 Hc4];
    [| by rewrite Hp3, Hf3, lookup_insert_eq | lia | fold table_end; lia].
  rewrite Hp3 in Hp4, Hc4.
  set (table := concat (map (encode_Phdr kClass) filtered)) in *.
  assert (Hlen4 : Z.of_nat (length (elf_header ++ table)) = table_end).
  { rewrite length_app, Nat2Z.inj_add. subst table. rewrite length_encode_Phdrs.
    subst table_end. lia. }
  (* the NOTE segment *)
  subst filtered. cbn [head default from_option id] in Hseek.
  apply Seek_ok in Hseek as ->; [|lia].
  pose proof (GetFileMappings_buffer _ _ _ Hfm0) as Hnb12.
  apply (WriteFully_at _ _ _ _ _ (elf_header ++ table)) in Hwn as [Hf6 Hp6];
    [| cbn [out_path]; by rewrite Hp4 | lia].
  cbn [out_path out_pos] in Hf6, Hp6. rewrite Hp4 in Hf6, Hp6.
  rewrite write_at_beyond in Hf6 by lia.
  replace (Z.to_nat (p_offset first) - length (elf_header ++ table))%nat
    with (Z.to_nat (p_offset first - table_end)) in Hf6 by lia.
  set (head_ := (elf_header ++ table)
                ++ replicate (Z.to_nat (p_offset first - table_end)) x00 ++ note_buf)
    in *.
  assert (Hlen6 : Z.of_nat (length head_) = p_offset first + p_filesz first).
  { subst head_. rewrite length_app, (length_app (replicate _ _)), length_replicate.
    lia. }
  (* the other segments *)
  cbn [tail] in Hseg.
  assert (Hfst : map fst (combine (filter_from kClass fm first rest) rest)
                 = filter_from kClass fm first rest)
    by (apply map_fst_combine, length_filter_from).
  eapply (write_segments_content input _ first _ _ _ _ _ _ _ head_) in Hseg;
    cbn [fd_ pending bytes_read_];
    rewrite ?Hfst; unfold segment_end;
    [| by rewrite Hp6, Hf6, lookup_insert_eq | lia | lia | lia | done
     | fold back; lia | | done | done | lia].
  2:{ clear -Hrest. revert Hrest. generalize (filter_from kClass fm first rest).
      induction rest as [|o rest IH]; intros l Hrest; destruct l; cbn [combine];
        try constructor.
      - by apply Forall_inv in Hrest.
      - apply IH. by apply Forall_inv_tail in Hrest. }
  rewrite Hp6 in Hseg. destruct Hseg as (content & Hc & [tl ->] & Hsegs).
  exists (head_ ++ tl), tl. split; [done|]. split.
  { subst head_. by rewrite <- !app_assoc. }
  split; [lia|].
  intros k ph original Hk Ho Hfs. apply (Hsegs k); [|done].
  by apply lookup_combine.
Qed.

(** [ReadUntilNote] on a file that is laid out as a header whose program
    headers follow it at once, zero bytes up to the offset of the first
    entry, which is a NOTE, and the block of that entry: the three parts are
    read back. *)
Lemma ReadUntilNote_of_layout e elf_header first rest note_buf tail brk :
  let phs := first :: rest in
  let table_end := sizeof_Ehdr kClass + Z.of_nat (length phs) * sizeof_Phdr kClass in
  negb (bytes_eqb (take (Z.to_nat SELFMAG) (e_ident elf_header)) ELFMAG)
  || negb (field (e_ident elf_header) EI_CLASS 1 =? class_code kClass)
  || negb (e_version elf_header =? EV_CURRENT)
  || negb (e_type elf_header =? ET_CORE)
  || negb (e_ehsize kClass elf_header =? sizeof_Ehdr kClass)
  || negb (e_phentsize kClass elf_header =? sizeof_Phdr kClass) = false ->
  Z.of_nat (length elf_header) = sizeof_Ehdr kClass ->
  e_phoff kClass elf_header = sizeof_Ehdr kClass ->
  e_phnum kClass elf_header = Z.of_nat (length phs) ->
  Forall (Phdr_ok kClass) phs ->
  (p_type first =? PT_NOTE) = true ->
  table_end <= p_offset first ->
  Z.of_nat (length note_buf) = p_filesz first ->
  p_offset first + p_filesz first < wmod kClass ->
  resize kClass e (sizeof_Phdr kClass * Z.of_nat (length phs)) = true ->
  resize kClass e (p_filesz first) = true ->
  ReadUntilNote kClass e
    (mkFdReader
       (mkSource ((elf_header ++ concat (map (encode_Phdr kClass) phs)
                   ++ replicate (Z.to_nat (p_offset first - table_end)) x00
                   ++ note_buf) ++ tail) brk) 0)
  = Returns (Some (elf_header, phs, note_buf),
             mkFdReader (mkSource tail brk) (p_offset first + p_filesz first)).
Proof.
  intros phs table_end Hcheck Heh Hphoff Hphnum Hok Hnote Htable Hnb Hend Ha1 Ha2.
  pose proof (sizeof_Ehdr_small kClass) as HE. pose proof (sizeof_Phdr_pos kClass) as HP.
  subst phs.
  set (table := concat (map (encode_Phdr kClass) (first :: rest))).
  set (gap := replicate (Z.to_nat (p_offset first - table_end)) x00).
  set (n := length (first :: rest)) in *.
  assert (Htl : Z.of_nat (length table) = Z.of_nat n * sizeof_Phdr kClass)
    by (subst table; apply length_encode_Phdrs).
  assert (Hgap : Z.of_nat (length gap) = p_offset first - table_end)
    by (subst gap; rewrite length_replicate; lia).
  assert (Hdec : decode_Phdrs kClass n table = first :: rest).
  { subst table n. rewrite <- (app_nil_r (concat _)). by apply decode_encode_Phdrs. }
  assert (Hlen : 0 <= Z.of_nat n) by lia.
  pose proof (Forall_inv Hok) as (_ & _ & Hfo & _ & _ & Hff & _).
  replace ((elf_header ++ table ++ gap ++ note_buf) ++ tail)
    with (elf_header ++ table ++ gap ++ note_buf ++ tail)
    by (by rewrite <- !app_assoc).
  unfold ReadUntilNote.
  (* the header *)
  rewrite FdReader_Read_forward
    by (cbn [fd_ pending]; rewrite length_app; lia).
  cbn [fd_ pending broken bytes_read_].
  rewrite take_app_length', drop_app_length' by lia.
  rewrite Hcheck, Z.add_0_l, (to_size_t_small kClass (sizeof_Ehdr kClass)) by lia.
  (* the program headers *)
  rewrite Hphnum. fold n in Ha1. rewrite Ha1. cbn [negb].
  rewrite Hphoff.
  rewrite FdReader_Seek_forward by (cbn [fd_ pending bytes_read_]; lia).
  cbn [fd_ pending broken bytes_read_].
  rewrite Z.sub_diag. change (Z.to_nat 0) with 0%nat. rewrite drop_0.
  rewrite (to_size_t_small kClass (sizeof_Phdr kClass * Z.of_nat n))
    by (subst table_end; nia).
  rewrite FdReader_Read_forward
    by (cbn [fd_ pending]; rewrite length_app; nia).
  cbn [fd_ pending broken bytes_read_].
  rewrite take_app_length', drop_app_length' by lia.
  rewrite Nat2Z.id, Hdec. cbn [negb]. rewrite Hnote. cbn [negb].
  rewrite Ha2. cbn [negb].
  (* the NOTE segment *)
  rewrite (to_size_t_small kClass (sizeof_Ehdr kClass + sizeof_Phdr kClass * Z.of_nat n))
    by (subst table_end; nia).
  rewrite FdReader_Seek_forward
    by (cbn [fd_ pending bytes_read_]; rewrite ?length_app; subst table_end; nia).
  cbn [fd_ pending broken bytes_read_].
  rewrite drop_app_length' by (subst table_end; lia).
  rewrite FdReader_Read_forward
    by (cbn [fd_ pending]; rewrite length_app; lia).
  cbn [fd_ pending broken bytes_read_].
  rewrite take_app_length', drop_app_length' by lia.
  rewrite (to_size_t_small kClass (p_offset first + p_filesz first)) by lia.
  reflexivity.
Qed.

(** A successful run of [WriteCoredump] is a successful run of
    [WriteCoredumpToFD] on the destination, created empty where nothing
    was. *)
Lemma WriteCoredump_Written cw w size w' :
  WriteCoredump kClass cw w = (Written size, w') ->
  files w !! coredump_filename_ cw = None
  /\ WriteCoredumpToFD kClass cw
       (mkWorld (env w) (<[coredump_filename_ cw := []]> (files w))
                (events w ++ [Created (coredump_filename_ cw)]))
       (mkOutFd (coredump_filename_ cw) 0)
     = (Written size, w').
Proof.
  unfold WriteCoredump.
  destruct (open_excl w (coredump_filename_ cw)) as [[w0 fd0]|] eqn:Eo; [|done].
  apply open_excl_Some in Eo as (Hnone & -> & ->).
  destruct (WriteCoredumpToFD kClass cw _ _) as [st w1] eqn:Erun.
  intros Hres.
  assert (Hst : st = Written size)
    by (destruct (ssize_of kClass st) as [rv|]; [destruct (rv =? -1)|]; congruence).
  subst st.
  pose proof (Written_size_small _ _ _ _ _ _ Erun) as [Hs Hss].
  pose proof kMaxCoredumpSize_value.
  rewrite Hss in Hres. replace (size =? -1) with false in Hres by blia.
  by injection Hres as <-.
Qed.

(** X18. The output can be read back.  For an input shorter than the range
    of [size_t] whose program headers follow the ELF header at once, and a
    recomputed layout that does not wrap, the file that a successful run
    leaves at the destination is itself accepted by [ReadUntilNote], which
    finds in it the ELF header of the input, unchanged, the filtered program
    headers that the run computed, and the NOTE segment of the input; the
    two allocations are those of the run, which the environment of the run
    has granted. *)
Theorem WriteCoredump_output_reads_back cw w size w' elf_header first rest
    note_buf reader fm :
  input_fits kClass cw ->
  ReadUntilNote kClass (env w) (mkFdReader (fd_src_ cw) 0)
  = Returns (Some (elf_header, first :: rest, note_buf), reader) ->
  GetFileMappings kClass note_buf ∅ = Some fm ->
  layout_fits kClass fm first rest ->
  e_phoff kClass elf_header = sizeof_Ehdr kClass ->
  WriteCoredump kClass cw w = (Written size, w') ->
  exists content,
    files w' !! coredump_filename_ cw = Some content
    /\ forall brk, exists r,
         ReadUntilNote kClass (env w) (mkFdReader (mkSource content brk) 0)
         = Returns (Some (elf_header, first :: filter_from kClass fm first rest,
                          note_buf), r).
Proof.
  intros Hinput Hread Hfm Hlayout Hphoff Hrun.
  apply WriteCoredump_Written in Hrun as [_ Hrun].
  eapply WriteCoredumpToFD_content in Hrun;
    [| apply lookup_insert_eq | reflexivity | exact Hinput | exact Hread
     | exact Hfm | exact Hlayout].
  destruct Hrun as (content & tail & Hc & -> & Htable & _).
  cbn [out_path] in Hc. eexists. split; [exact Hc|]. intros brk.
  pose proof (ReadUntilNote_checks kClass _ _ _ _ _ _ Hread)
    as (Hcheck & Hnum & Ha1 & first' & rest' & [= <- <-] & Hnote & Ha2).
  pose proof Hread as Hread'.
  apply ReadUntilNote_ok in Hread'
    as (first' & rest' & [= <- <-] & Hok & _ & Hnb & Heh & _ & Hfits).
  destruct (Hfits Hinput) as [_ Hend].
  eexists.
  apply (ReadUntilNote_of_layout (env w) elf_header first
           (filter_from kClass fm first rest) note_buf tail brk);
    [done | done | done | | | done | done | done | done | | done].
  - cbn [length] in Hnum |- *. by rewrite length_filter_from.
  - apply Forall_cons in Hok as [Hfirst Hrest]. constructor; [done|].
    by apply filter_from_ok.
  - cbn [length] in Hnum |- *. rewrite length_filter_from. by rewrite Hnum.
Qed.

(** X19. What a successful run leaves at the destination, for an input
    shorter than the range of [size_t] and a recomputed layout that does not
    wrap: the file starts with the ELF header of the input, unchanged; the
    filtered program headers follow it at once, wherever the header says
    that the program headers are; the file holds the NOTE segment at the
    offset of the first entry; and for every entry that
    is kept, the two entries share the file size, the segment lies within
    the input, and the file holds, at the offset of the filtered entry, the
    bytes that the input holds at the offset of the original entry.  So a
    run on an input that ends before the end of a segment that is kept does
    not succeed. *)
Theorem WriteCoredump_copies_segments cw w size w' elf_header first rest
    note_buf reader fm :
  input_fits kClass cw ->
  ReadUntilNote kClass (env w) (mkFdReader (fd_src_ cw) 0)
  = Returns (Some (elf_header, first :: rest, note_buf), reader) ->
  GetFileMappings kClass note_buf ∅ = Some fm ->
  layout_fits kClass fm first rest ->
  WriteCoredump kClass cw w = (Written size, w') ->
  exists content,
    files w' !! coredump_filename_ cw = Some content
    /\ take (Z.to_nat (sizeof_Ehdr kClass)) content = elf_header
    /\ take (length (first :: rest) * Z.to_nat (sizeof_Phdr kClass))
            (drop (Z.to_nat (sizeof_Ehdr kClass)) content)
       = concat (map (encode_Phdr kClass) (first :: filter_from kClass fm first rest))
    /\ take (Z.to_nat (p_filesz first)) (drop (Z.to_nat (p_offset first)) content)
       = note_buf
    /\ forall (i : nat) ph original,
         filter_from kClass fm first rest !! i = Some ph ->
         rest !! i = Some original -> 0 < p_filesz ph ->
         p_filesz ph = p_filesz original
         /\ p_offset original + p_filesz original
            <= Z.of_nat (length (pending (fd_src_ cw)))
         /\ take (Z.to_nat (p_filesz ph)) (drop (Z.to_nat (p_offset ph)) content)
            = take (Z.to_nat (p_filesz ph))
                   (drop (Z.to_nat (p_offset original)) (pending (fd_src_ cw))).
Proof.
  intros Hinput Hread Hfm Hlayout Hrun.
  apply WriteCoredump_Written in Hrun as [_ Hrun].
  eapply WriteCoredumpToFD_content in Hrun;
    [| apply lookup_insert_eq | reflexivity | exact Hinput | exact Hread
     | exact Hfm | exact Hlayout].
  destruct Hrun as (content & tail & Hc & Hcontent & Htable & Hsegs).
  cbn [out_path] in Hc. exists content. split; [exact Hc|].
  pose proof Hread as Hread'.
  apply ReadUntilNote_ok in Hread'
    as (first' & rest' & [= <- <-] & Hok & _ & Hnb & Heh & _ & _).
  pose proof (sizeof_Ehdr_small kClass) as HE.
  set (table := concat (map (encode_Phdr kClass) (first :: filter_from kClass fm first rest)))
    in *.
  set (table_end := sizeof_Ehdr kClass
                    + Z.of_nat (length (first :: filter_from kClass fm first rest))
                      * sizeof_Phdr kClass) in *.
  assert (Htl : Z.of_nat (length table) + sizeof_Ehdr kClass = table_end)
    by (subst table table_end; rewrite length_encode_Phdrs; lia).
  split; [|split; [|split]].
  - rewrite Hcontent, <- !app_assoc. apply take_app_length'. lia.
  - rewrite Hcontent, <- !app_assoc.
    rewrite drop_app_length' by lia. apply take_app_length'.
    subst table. pose proof (length_encode_Phdrs kClass (first :: filter_from kClass fm first rest)) as Hl.
    cbn [length] in Hl |- *. rewrite length_filter_from in Hl.
    pose proof (sizeof_Phdr_pos kClass). nia.
  - rewrite Hcontent.
    replace ((elf_header ++ table
              ++ replicate (Z.to_nat (p_offset first - table_end)) x00 ++ note_buf)
             ++ tail)
      with ((elf_header ++ table
             ++ replicate (Z.to_nat (p_offset first - table_end)) x00)
            ++ note_buf ++ tail)
      by (by rewrite <- !app_assoc).
    rewrite drop_app_length'
      by (rewrite !length_app, length_replicate; lia).
    apply take_app_length'. lia.
  - intros i ph original Hph Horig Hfs.
    destruct (Hsegs i ph original Hph Horig Hfs) as [Hin Hbytes].
    assert (Heq : p_filesz ph = p_filesz original).
    { destruct (filter_from_lookup kClass fm first rest i original Horig) as [prev' Hi].
      rewrite Hph in Hi. injection Hi as ->.
      rewrite filter_entry_filesz in Hfs |- *.
      by destruct (_ && _). }
    split; [exact Heq|]. split; [|exact Hbytes]. by rewrite <- Heq.
Qed.

End OutputFacts.

(** ** GetFileMappings on a note in the format of the kernel *)

Section DecodeFacts.

Variable kClass : ElfClass.
Implicit Types (fm : gmap (Z * Z) FileInfo.t) (note desc : list byte)
  (e : FileEntry) (entries : list FileEntry).

Lemma wmod_256 : 256 ^ Z.of_nat (Z.to_nat (wordbytes kClass)) = wmod kClass.
Proof. unfold wmod, wordbytes. by destruct kClass. Qed.

Lemma length_encode_long z :
  Z.of_nat (length (encode_long kClass z)) = wordbytes kClass.
Proof.
  unfold encode_long. rewrite length_le_encode.
  pose proof (wordbytes_small kClass). lia.
Qed.

Lemma length_encode_entry e :
  Z.of_nat (length (encode_entry kClass e)) = 3 * wordbytes kClass.
Proof.
  unfold encode_entry. rewrite !length_app, !Nat2Z.inj_add, !length_encode_long. lia.
Qed.

Lemma length_encode_entries entries :
  Z.of_nat (length (concat (map (encode_entry kClass) entries)))
  = 3 * wordbytes kClass * Z.of_nat (length entries).
Proof.
  induction entries as [|e entries IH]; [cbn; lia|].
  cbn [map concat length]. rewrite length_app, Nat2Z.inj_add, length_encode_entry. lia.
Qed.

(** A [long] is what is read from its bytes. *)
Lemma to_long_mod z :
  is_long kClass z -> to_long kClass (z mod wmod kClass) = z.
Proof.
  intros Hz. pose proof (wmod_half kClass) as [_ HW]. pose proof (wmod_pos kClass).
  unfold is_long in Hz. unfold to_long.
  rewrite Z.add_mod_idemp_l by lia. rewrite Z.mod_small by lia. lia.
Qed.

(** The read of a [long] that the description holds. *)
Lemma GetValueFromNote_long note a z b offset default_value :
  GetDescription note = a ++ encode_long kClass z ++ b ->
  offset = Z.of_nat (length a) ->
  is_long kClass z ->
  GetValueFromNote (long_t kClass) note offset default_value = z.
Proof.
  intros Hd -> Hz. pose proof (wordbytes_small kClass) as Hw.
  pose proof (length_encode_long z) as Hlen.
  unfold GetValueFromNote, GetData, Covers. cbn [sizeof long_t load].
  rewrite Hd, !length_app, !Nat2Z.inj_add, Hlen.
  replace (0 <=? Z.of_nat (length a)) with true by blia.
  replace (Z.of_nat (length a) <? _) with true by blia.
  replace (Z.of_nat (length a) + wordbytes kClass <=? _) with true by blia.
  cbn [andb]. rewrite Nat2Z.id, drop_app_length.
  rewrite take_app_length' by lia.
  unfold encode_long. rewrite le_decode_le_encode, wmod_256. by apply to_long_mod.
Qed.

(** The loop over the entries on a description that holds, from the place of
    the next entry on, the words of the entries left and, from the place of
    the next name on, their names. *)
Lemma read_files_decodes note page_size entries pre mid post i fm :
  GetDescription note
  = pre ++ concat (map (encode_entry kClass) entries) ++ mid
    ++ concat (map encode_name entries) ++ post ->
  Z.of_nat (length pre) = wordbytes kClass * (2 + 3 * i) -> 0 <= i ->
  Z.of_nat (length (GetDescription note)) < wmod kClass ->
  Forall (FileEntry_ok kClass) entries ->
  read_files kClass (length entries) note page_size i
    (Z.of_nat (length pre + length (concat (map (encode_entry kClass) entries))
               + length mid))
    fm
  = Some (foldl (add_entry kClass page_size) fm entries).
Proof.
  intros Hd Hpre Hi Hfit Hok. revert pre mid i fm Hd Hpre Hi.
  induction Hok as [|e entries He Hok IH]; intros pre mid i fm Hd Hpre Hi;
    [done|].
  pose proof (wordbytes_small kClass) as Hw.
  destruct He as ((Hs & Hs1) & (Hen & Hen1) & (Ho & Ho1) & Hname).
  cbn [map concat] in Hd. unfold encode_entry in Hd at 1.
  assert (Hd' : GetDescription note
                = pre ++ encode_long kClass (fe_start e) ++ encode_long kClass (fe_end e)
                  ++ encode_long kClass (fe_pgoff e)
                  ++ concat (map (encode_entry kClass) entries) ++ mid
                  ++ fe_name e ++ x00 :: concat (map encode_name entries) ++ post).
  { rewrite Hd. unfold encode_name at 1. by rewrite <- !app_assoc. }
  clear Hd.
  assert (Hlen : Z.of_nat (length (GetDescription note))
                 = Z.of_nat (length pre) + 3 * wordbytes kClass
                   + Z.of_nat (length (concat (map (encode_entry kClass) entries)))
                   + Z.of_nat (length mid) + Z.of_nat (length (fe_name e)) + 1
                   + Z.of_nat (length (concat (map encode_name entries) ++ post))).
  { rewrite Hd'. rewrite !length_app. cbn [length]. rewrite !length_app.
    pose proof (length_encode_long (fe_start e)).
    pose proof (length_encode_long (fe_end e)).
    pose proof (length_encode_long (fe_pgoff e)). lia. }
  cbn [length read_files].
  (* the three words *)
  assert (Hat : forall k, 0 <= k <= 2 ->
            long_at kClass (2 + 3 * i + k)
            = Z.of_nat (length pre) + k * wordbytes kClass).
  { intros k Hk. unfold long_at. rewrite to_size_t_small; nia. }
  assert (Hv0 : GetValueFromNote (long_t kClass) note (long_at kClass (2 + 3 * i))
                                 kInvalidValue = fe_start e).
  { apply (GetValueFromNote_long note pre (fe_start e) _ _ _ Hd'); [|done].
    replace (2 + 3 * i) with (2 + 3 * i + 0) by lia. rewrite Hat; lia. }
  assert (Hv1 : GetValueFromNote (long_t kClass) note (long_at kClass (2 + 3 * i + 1))
                                 kInvalidValue = fe_end e).
  { eapply (GetValueFromNote_long note (pre ++ encode_long kClass (fe_start e))
              (fe_end e)); [by rewrite Hd', <- !app_assoc | | done].
    rewrite Hat, length_app, Nat2Z.inj_add, length_encode_long; lia. }
  assert (Hv2 : GetValueFromNote (long_t kClass) note (long_at kClass (2 + 3 * i + 2))
                                 kInvalidValue = fe_pgoff e).
  { eapply (GetValueFromNote_long note
              (pre ++ encode_long kClass (fe_start e) ++ encode_long kClass (fe_end e))
              (fe_pgoff e)); [by rewrite Hd', <- !app_assoc | | done].
    rewrite Hat, !length_app, !Nat2Z.inj_add, !length_encode_long; lia. }
  rewrite !Hv0, !Hv1, !Hv2.
  unfold kInvalidValue.
  replace (fe_start e =? -1) with false by blia.
  replace (fe_end e =? -1) with false by blia.
  replace (fe_pgoff e =? -1) with false by blia.
  cbn [orb].
  (* the name *)
  fold (fe_range e).
  set (pre' := pre ++ encode_long kClass (fe_start e) ++ encode_long kClass (fe_end e)
               ++ encode_long kClass (fe_pgoff e)
               ++ concat (map (encode_entry kClass) entries) ++ mid).
  assert (Hpos : (length pre + length (concat (map (encode_entry kClass) (e :: entries)))
                  + length mid)%nat
                 = length pre').
  { subst pre'. cbn [map concat]. unfold encode_entry at 1. rewrite !length_app. lia. }
  rewrite Hpos.
  rewrite (read_name_terminated_fuel kClass note (fe_name e) _ pre'
             (concat (map encode_name entries) ++ post)
             (FileInfo.path (default FileInfo.empty (fm !! fe_range e))));
    [| subst pre'; by rewrite Hd', <- !app_assoc | done | done
     | rewrite Hd', !length_app; cbn [length]; rewrite !length_app; lia].
  cbn [foldl].
  (* the entries left *)
  fold (add_entry kClass page_size fm e).
  rewrite <- (IH (pre ++ encode_entry kClass e) (mid ++ encode_name e) (i + 1));
    [| | | lia].
  - f_equal. subst pre'. unfold encode_name, encode_entry.
    rewrite !length_app. cbn [length]. lia.
  - rewrite Hd'. unfold encode_entry, encode_name. rewrite <- !app_assoc. done.
  - rewrite length_app, Nat2Z.inj_add, length_encode_entry. lia.
Qed.

(** The map that the rounds give for entries with distinct ranges, none of
    which is a key before. *)
Lemma foldl_add_entry_distinct page_size entries fm :
  NoDup (map fe_range entries) ->
  Forall (fun e => fm !! fe_range e = None) entries ->
  let fm' := foldl (add_entry kClass page_size) fm entries in
  (forall range, range ∉ map fe_range entries -> fm' !! range = fm !! range)
  /\ (forall e, e ∈ entries -> fm' !! fe_range e = Some (fe_info kClass page_size e)).
Proof.
  revert fm. induction entries as [|e entries IH]; intros fm Hdup Hnone; cbn [foldl map].
  { split; [done|]. intros e He. by apply elem_of_nil in He. }
  cbn [map] in Hdup. apply NoDup_cons in Hdup as [Hnotin Hdup].
  apply Forall_cons in Hnone as [Hnone1 Hnone].
  assert (Hstep : add_entry kClass page_size fm e
                  = <[fe_range e := fe_info kClass page_size e]> fm).
  { unfold add_entry. by rewrite Hnone1. }
  rewrite Hstep.
  destruct (IH (<[fe_range e := fe_info kClass page_size e]> fm) Hdup) as [Hkeep Hin].
  { apply Forall_forall. intros e' He'.
    rewrite lookup_insert_ne.
    - by apply (proj1 (Forall_forall _ _) Hnone).
    - intros Heq. apply Hnotin. rewrite Heq.
      change (fe_range e' ∈ fe_range <$> entries). by apply list_elem_of_fmap_2. }
  split.
  - intros range Hr. apply not_elem_of_cons in Hr as [Hne Hr].
    rewrite Hkeep by done. by rewrite lookup_insert_ne.
  - intros e' He'. apply elem_of_cons in He' as [->|He']; [|by apply Hin].
    rewrite Hkeep by done. apply lookup_insert_eq.
Qed.

(** The paths that the rounds give, for any entries: the names of the
    entries that list the range are appended to the path that was there. *)
Lemma foldl_add_entry_paths page_size entries fm range :
  let fm' := foldl (add_entry kClass page_size) fm entries in
  FileInfo.path (default FileInfo.empty (fm' !! range))
  = FileInfo.path (default FileInfo.empty (fm !! range)) ++ names_of range entries.
Proof.
  revert fm. induction entries as [|e entries IH]; intros fm; cbn [foldl].
  { unfold names_of. cbn. by rewrite app_nil_r. }
  cbn zeta in IH. rewrite IH. unfold names_of, add_entry.
  destruct (decide (fe_range e = range)) as [Heq|Hne].
  - rewrite filter_cons_True by done. cbn [map concat].
    rewrite Heq, lookup_insert_eq. cbn [default from_option FileInfo.path id].
    by rewrite <- app_assoc.
  - rewrite filter_cons_False by done. by rewrite lookup_insert_ne.
Qed.

(** [GetFileMappings] on a buffer whose NT_FILE note has a description in
    the format of the kernel runs the rounds of its loop on the entries. *)
Lemma GetFileMappings_of_desc note_buf page_size entries :
  let note := FindNote NT_FILE note_buf in
  IsValid note = true ->
  GetDescription note = NT_FILE_desc kClass page_size entries ->
  Z.of_nat (length (GetDescription note)) < wmod kClass / 2 ->
  is_long kClass page_size -> page_size <> -1 ->
  Forall (FileEntry_ok kClass) entries ->
  GetFileMappings kClass note_buf ∅
  = Some (foldl (add_entry kClass page_size) ∅ entries).
Proof.
  intros note Hvalid Hd Hfit Hps Hps1 Hok.
  pose proof (wordbytes_small kClass) as Hw. pose proof (wmod_half kClass) as [_ HW].
  unfold NT_FILE_desc in Hd.
  assert (Hlen : Z.of_nat (length (GetDescription note))
                 = 2 * wordbytes kClass
                   + 3 * wordbytes kClass * Z.of_nat (length entries)
                   + Z.of_nat (length (concat (map encode_name entries)))).
  { rewrite Hd, !length_app, !Nat2Z.inj_add, !length_encode_long,
      length_encode_entries. lia. }
  assert (Hcount : is_long kClass (Z.of_nat (length entries)))
    by (unfold is_long; nia).
  unfold GetFileMappings. fold note. rewrite Hvalid. cbn [negb].
  unfold read_file_note.
  rewrite (GetValueFromNote_long note [] (Z.of_nat (length entries)) _ _ _ Hd)
    by done.
  rewrite (GetValueFromNote_long note (encode_long kClass (Z.of_nat (length entries)))
             page_size _ _ _)
    by (done || (by rewrite Hd, <- !app_assoc) || (by rewrite length_encode_long)).
  unfold kInvalidValue.
  replace (Z.of_nat (length entries) =? -1) with false by blia.
  replace (page_size =? -1) with false by blia.
  cbn [orb]. rewrite Nat2Z.id.
  set (pre := encode_long kClass (Z.of_nat (length entries))
              ++ encode_long kClass page_size).
  assert (Hpre : Z.of_nat (length pre) = wordbytes kClass * (2 + 3 * 0))
    by (subst pre; rewrite length_app, Nat2Z.inj_add, !length_encode_long; lia).
  replace (long_at kClass (2 + 3 * Z.of_nat (length entries)))
    with (Z.of_nat (length pre + length (concat (map (encode_entry kClass) entries))
                    + length (@nil byte))).
  2:{ unfold long_at. rewrite to_size_t_small by nia.
      cbn [length]. rewrite !Nat2Z.inj_add, Hpre, length_encode_entries. cbn. lia. }
  apply (read_files_decodes note page_size entries pre [] [] 0 ∅);
    [| done | done | lia | done].
  subst pre. rewrite Hd, <- !app_assoc. cbn [app]. by rewrite app_nil_r.
Qed.

(** X20. [GetFileMappings] decodes the format of the kernel.  When the
    NT_FILE note of the buffer has a description in that format, made of a
    page size that is a [long] other than -1 and of entries whose words are
    [long]s other than -1, whose names hold no zero byte and whose ranges
    differ from one another, and the description is shorter than half the
    range of [size_t], then [GetFileMappings] succeeds on the empty map, and
    the map it builds has exactly the ranges of the entries as its keys and
    holds for each the offset in bytes, offset in pages times page size, and
    the name. *)
Theorem GetFileMappings_decodes note_buf page_size entries :
  let note := FindNote NT_FILE note_buf in
  IsValid note = true ->
  GetDescription note = NT_FILE_desc kClass page_size entries ->
  Z.of_nat (length (GetDescription note)) < wmod kClass / 2 ->
  is_long kClass page_size -> page_size <> -1 ->
  Forall (FileEntry_ok kClass) entries ->
  NoDup (map fe_range entries) ->
  exists fm,
    GetFileMappings kClass note_buf ∅ = Some fm
    /\ (forall e, e ∈ entries -> fm !! fe_range e = Some (fe_info kClass page_size e))
    /\ (forall range, is_Some (fm !! range) ->
                      exists e, e ∈ entries /\ fe_range e = range).
Proof.
  intros note Hvalid Hd Hfit Hps Hps1 Hok Hdup.
  eexists. split; [by apply GetFileMappings_of_desc|].
  destruct (foldl_add_entry_distinct page_size entries ∅ Hdup) as [Hkeep Hin].
  { apply Forall_forall. intros e _. apply lookup_empty. }
  split; [exact Hin|].
  intros range Hsome.
  destruct (decide (range ∈ map fe_range entries)) as [Hr|Hr].
  - change (range ∈ fe_range <$> entries) in Hr.
    apply list_elem_of_fmap in Hr as (e & -> & He). by exists e.
  - rewrite Hkeep, lookup_empty in Hsome by done. by destruct Hsome.
Qed.

(** X21. The paths that [GetFileMappings] builds when ranges repeat.  For a
    description in the format of the kernel as before, but with any ranges,
    the path that the map holds for a range is made of the names of all the
    entries that list the range, one after the other in the order of the
    entries: a name is appended to the path of its range, never put in its
    place. *)
Theorem GetFileMappings_appends_names note_buf page_size entries :
  let note := FindNote NT_FILE note_buf in
  IsValid note = true ->
  GetDescription note = NT_FILE_desc kClass page_size entries ->
  Z.of_nat (length (GetDescription note)) < wmod kClass / 2 ->
  is_long kClass page_size -> page_size <> -1 ->
  Forall (FileEntry_ok kClass) entries ->
  exists fm,
    GetFileMappings kClass note_buf ∅ = Some fm
    /\ forall range info,
         fm !! range = Some info ->
         FileInfo.path info = names_of range entries.
Proof.
  intros note Hvalid Hd Hfit Hps Hps1 Hok.
  eexists. split; [by apply GetFileMappings_of_desc|].
  intros range info Hinfo.
  pose proof (foldl_add_entry_paths page_size entries ∅ range) as Hpath.
  cbn zeta in Hpath. rewrite Hinfo, lookup_empty in Hpath. exact Hpath.
Qed.

End DecodeFacts.

(** ** The size limit and the runs that fail early *)

Section LimitFacts.

Variable kClass : ElfClass.
Implicit Types (w : World) (fd : OutFd) (cw : CoredumpWriter).

(** X22. The size limit and the conversion to [size_t].  When a twentieth of
    the free space is a [size_t], as it always is for an [int64_t] on the
    64-bit class, the limit is the minimum of that twentieth and 256 MiB.  In
    general the conversion makes the limit periodic in the free space: the
    range of [size_t] times 20 more bytes of free space leave the limit as it
    is, so that on the 32-bit class more free space can mean a smaller
    limit. *)
Theorem coredump_size_limit_truncates free_disk_space :
  0 <= free_disk_space ->
  (free_disk_space / 20 < wmod kClass ->
   coredump_size_limit kClass free_disk_space
   = Z.min (free_disk_space / 20) kMaxCoredumpSize)
  /\ (forall k, 0 <= k ->
        coredump_size_limit kClass (free_disk_space + 20 * wmod kClass * k)
        = coredump_size_limit kClass free_disk_space).
Proof.
  intros Hfree. pose proof (wmod_pos kClass) as HW. unfold coredump_size_limit. split.
  - intros Hfit. rewrite to_size_t_small; [done|].
    split; [apply Z.div_pos; lia | done].
  - intros k Hk. f_equal.
    replace (free_disk_space + 20 * wmod kClass * k)
      with (free_disk_space + (wmod kClass * k) * 20) by lia.
    rewrite Z.div_add by lia. unfold to_size_t.
    replace (free_disk_space / 20 + wmod kClass * k)
      with (free_disk_space / 20 + k * wmod kClass) by lia.
    apply Z_mod_plus_full.
Qed.



(** X24. A file left at one of the three places makes the run fail.  Each
    file is created exclusively, so when the destination, the file [auxv] or
    the file [maps] exists before the run, the run does not succeed, whatever
    the input.  Since a failed run leaves the proc files that it has created,
    a run that fails after it has created them stands in the way of the
    next. *)
Theorem WriteCoredump_stale_file cw w size :
  is_Some (files w !! coredump_filename_ cw)
  \/ is_Some (files w !! (proc_files_dir_ cw +:+ "/auxv"))
  \/ is_Some (files w !! (proc_files_dir_ cw +:+ "/maps")) ->
  (WriteCoredump kClass cw w).1 <> Written size.
Proof.
  intros Hstale Hst.
  destruct (WriteCoredump kClass cw w) as [st w'] eqn:Hrun. cbn [fst] in Hst. subst st.
  apply WriteCoredump_Written in Hrun as [Hnone Hrun].
  apply WriteCoredumpToFD_Written in Hrun
    as (eh & phs & nb & rd & fm & filtered & w1 & w2 & w3 & fd3 & w4 & fd4 & fd5
        & w6 & fd6 & rd' & fd7 & _ & _ & _ & _ & _ & _ & Hauxv & Hmaps & _).
  set (dest := coredump_filename_ cw) in *.
  set (auxv := proc_files_dir_ cw +:+ "/auxv") in *.
  set (maps := proc_files_dir_ cw +:+ "/maps") in *.
  apply WriteAuxv_world in Hauxv as [[? _] | [(Hnone1 & _ & _ & Ho1 & Hs1) _]]; [done|].
  apply WriteMaps_world in Hmaps as [[? _] | (Hnone2 & _)]; [done|].
  cbn [files] in Hnone1.
  destruct Hstale as [[c Hc] | [[c Hc] | [c Hc]]].
  - congruence.
  - destruct (decide (auxv = dest)) as [Heq|Hne].
    + rewrite Heq, lookup_insert_eq in Hnone1. done.
    + rewrite lookup_insert_ne in Hnone1 by done. congruence.
  - destruct (decide (maps = auxv)) as [Heq|Hne].
    + rewrite Heq in Hnone2. destruct Hs1 as [? ?]. congruence.
    + rewrite Ho1 in Hnone2 by done. cbn [files] in Hnone2.
      destruct (decide (maps = dest)) as [Heq'|Hne'].
      * rewrite Heq', lookup_insert_eq in Hnone2. done.
      * rewrite lookup_insert_ne in Hnone2 by done. congruence.
Qed.

End LimitFacts.

(** ** The further properties on the sample inputs *)


(** A file that is there before a failing run is there afterwards. *)
Lemma WriteCoredump_keeps_existing_files_witness :
  files (WriteCoredump ELFCLASS64 (Sample.writer Sample.input)
           (mkWorld (Sample.env_free 1) {["/data/old"%string := [x01; x02]]} [])).2
    !! "/data/old"%string
  = Some [x01; x02].
Proof.
  exact (WriteCoredump_keeps_existing_files ELFCLASS64 (Sample.writer Sample.input)
           (mkWorld (Sample.env_free 1) {["/data/old"%string := [x01; x02]]} [])
           "/data/old" [x01; x02] eq_refl).
Defined.

(** The run on the sample input returns 368, with 1000000 free blocks of
    4096 bytes. *)
Lemma WriteCoredump_within_budget_witness :
  exists f_bavail f_frsize,
    statvfs_of (env (Sample.world 1000000)) "/data/core" = Some (f_bavail, f_frsize)
    /\ 0 <= to_int64 (f_bavail * f_frsize)
    /\ 0 <= 368 <= Z.min (to_int64 (f_bavail * f_frsize) / 20) kMaxCoredumpSize
    /\ ssize_of ELFCLASS64 (Written 368) = Some 368.
Proof.
  assert (Hrun : WriteCoredump ELFCLASS64 (Sample.writer Sample.input)
                               (Sample.world 1000000)
                 = (Written 368,
                    (WriteCoredump ELFCLASS64 (Sample.writer Sample.input)
                                   (Sample.world 1000000)).2))
    by (vm_compute; reflexivity).
  exact (WriteCoredump_within_budget ELFCLASS64 (Sample.writer Sample.input)
           (Sample.world 1000000) 368 _ Hrun).
Defined.


(** The auxv file of the sample notes. *)
Lemma WriteAuxv_copies_description_witness :
  files (WriteAuxv (Sample.world 1) Sample.notes "/data/proc/auxv").2
    !! "/data/proc/auxv"%string
  = Some (GetDescription (FindNote NT_AUXV Sample.notes))
  /\ GetType (FindNote NT_AUXV Sample.notes) = NT_AUXV.
Proof.
  assert (Hrun : WriteAuxv (Sample.world 1) Sample.notes "/data/proc/auxv"
                 = (true, (WriteAuxv (Sample.world 1) Sample.notes "/data/proc/auxv").2))
    by (vm_compute; reflexivity).
  pose proof (WriteAuxv_copies_description (Sample.world 1) Sample.notes
                "/data/proc/auxv" _ Hrun) as (_ & Htype & _ & Hfile & _).
  split; [exact Hfile | exact Htype].
Defined.

(** The maps file of the sample headers. *)
Lemma WriteMaps_written_lines_witness :
  files (WriteMaps ELFCLASS64 (Sample.world 1) Sample.headers Sample.mappings
                   "/data/proc/maps").2
    !! "/data/proc/maps"%string
  = Some (maps_written ELFCLASS64 Sample.mappings Sample.headers).
Proof.
  assert (Hrun : WriteMaps ELFCLASS64 (Sample.world 1) Sample.headers Sample.mappings
                           "/data/proc/maps"
                 = (true, (WriteMaps ELFCLASS64 (Sample.world 1) Sample.headers
                                     Sample.mappings "/data/proc/maps").2))
    by (vm_compute; reflexivity).
  exact (proj1 (WriteMaps_written_lines ELFCLASS64 (Sample.world 1) Sample.headers
                  Sample.mappings "/data/proc/maps" _ Hrun)).
Defined.

(** The proc files at the end of the run on the sample input. *)
Lemma WriteCoredump_proc_files_witness :
  let w' := (WriteCoredump ELFCLASS64 (Sample.writer Sample.input)
                           (Sample.world 1000000)).2 in
  files w' !! ("/data/proc" +:+ "/auxv")
  = Some (GetDescription (FindNote NT_AUXV Sample.notes))
  /\ files w' !! ("/data/proc" +:+ "/maps")
     = Some (maps_written ELFCLASS64 Sample.mappings
               (mkPhdr PT_NOTE 0 232 0 0 104 0 0 :: tail Sample.headers)).
Proof.
  assert (Hread : ReadUntilNote ELFCLASS64 (Sample.env_free 1000000)
                    (mkFdReader (fd_src_ (Sample.writer Sample.input)) 0)
                  = Returns (Some (take 64 Sample.input,
                           mkPhdr PT_NOTE 0 232 0 0 104 0 0 :: tail Sample.headers,
                           Sample.notes),
                     mkFdReader (mkSource (replicate 16 x02 ++ replicate 32 x03) false) 336))
    by (vm_compute; reflexivity).
  assert (Hfm : GetFileMappings ELFCLASS64 Sample.notes ∅ = Some Sample.mappings)
    by (vm_compute; reflexivity).
  assert (Hrun : WriteCoredump ELFCLASS64 (Sample.writer Sample.input)
                               (Sample.world 1000000)
                 = (Written 368,
                    (WriteCoredump ELFCLASS64 (Sample.writer Sample.input)
                                   (Sample.world 1000000)).2))
    by (vm_compute; reflexivity).
  exact (WriteCoredump_proc_files ELFCLASS64 (Sample.writer Sample.input)
           (Sample.world 1000000) 368 _ _ _ _ _ _ Hread Hfm Hrun).
Defined.

(** The header of the sample input passes the tests. *)
Lemma ReadUntilNote_validates_witness :
  take (Z.to_nat SELFMAG) (e_ident (take 64 Sample.input)) = ELFMAG
  /\ e_type (take 64 Sample.input) = ET_CORE
  /\ e_phnum ELFCLASS64 (take 64 Sample.input) = 3.
Proof.
  assert (Hread : ReadUntilNote ELFCLASS64 (Sample.env_free 1000000) (mkFdReader (mkSource Sample.input false) 0)
                  = Returns (Some (take 64 Sample.input,
                           mkPhdr PT_NOTE 0 232 0 0 104 0 0 :: tail Sample.headers,
                           Sample.notes),
                     mkFdReader (mkSource (replicate 16 x02 ++ replicate 32 x03) false) 336))
    by (vm_compute; reflexivity).
  pose proof (ReadUntilNote_validates ELFCLASS64 _ _ _ _ _ _ Hread)
    as (Hmag & _ & _ & Htype & _ & _ & _ & Hnum & _).
  split; [exact Hmag|]. split; [exact Htype|]. symmetry. exact Hnum.
Defined.

(** The blocks of the sample input: the header in the first 64 bytes, three
    program headers from byte 64 on, the NOTE segment in bytes 232 to 335. *)
Lemma ReadUntilNote_reads_declared_blocks_witness :
  exists first rest,
    mkPhdr PT_NOTE 0 232 0 0 104 0 0 :: tail Sample.headers = first :: rest
    /\ take 64 Sample.input = take (Z.to_nat (sizeof_Ehdr ELFCLASS64)) Sample.input
    /\ mkPhdr PT_NOTE 0 232 0 0 104 0 0 :: tail Sample.headers
       = decode_Phdrs ELFCLASS64 (Z.to_nat (e_phnum ELFCLASS64 (take 64 Sample.input)))
           (take (Z.to_nat (sizeof_Phdr ELFCLASS64
                            * e_phnum ELFCLASS64 (take 64 Sample.input)))
                 (drop (Z.to_nat (e_phoff ELFCLASS64 (take 64 Sample.input)))
                       Sample.input))
    /\ Sample.notes = take (Z.to_nat (p_filesz first))
                           (drop (Z.to_nat (p_offset first)) Sample.input)
    /\ sizeof_Ehdr ELFCLASS64 <= e_phoff ELFCLASS64 (take 64 Sample.input)
    /\ e_phoff ELFCLASS64 (take 64 Sample.input)
       + sizeof_Phdr ELFCLASS64 * e_phnum ELFCLASS64 (take 64 Sample.input)
       <= p_offset first
    /\ p_offset first + p_filesz first <= Z.of_nat (length Sample.input)
    /\ mkFdReader (mkSource (replicate 16 x02 ++ replicate 32 x03) false) 336
       = mkFdReader
           (mkSource (drop (Z.to_nat (p_offset first + p_filesz first)) Sample.input)
                     false)
           (p_offset first + p_filesz first).
Proof.
  assert (Hfit : Z.of_nat (length Sample.input) < wmod ELFCLASS64) by by_compute.
  assert (Hread : ReadUntilNote ELFCLASS64 (Sample.env_free 1000000) (mkFdReader (mkSource Sample.input false) 0)
                  = Returns (Some (take 64 Sample.input,
                           mkPhdr PT_NOTE 0 232 0 0 104 0 0 :: tail Sample.headers,
                           Sample.notes),
                     mkFdReader (mkSource (replicate 16 x02 ++ replicate 32 x03) false) 336))
    by (vm_compute; reflexivity).
  exact (ReadUntilNote_reads_declared_blocks ELFCLASS64 (Sample.env_free 1000000)
           Sample.input false _ _ _ _ Hfit Hread).
Defined.

(** Three of five pending bytes are copied to position 1 of a file of two
    bytes; a request for seven bytes fails after all five are written. *)
Lemma FdReader_CopyTo_file_witness :
  let r := mkFdReader (mkSource [x01; x02; x03; x04; x05] false) 0 in
  let w := mkWorld (Sample.env_free 1) {["/f"%string := [x0a; x0b]]} [] in
  FdReader_CopyTo ELFCLASS64 r (Some (w, mkOutFd "/f" 1)) 3
  = (true, mkFdReader (mkSource [x04; x05] false) 3,
     Some (mkWorld (Sample.env_free 1) {["/f"%string := [x0a; x01; x02; x03]]} [],
           mkOutFd "/f" 4))
  /\ FdReader_CopyTo ELFCLASS64 r (Some (w, mkOutFd "/f" 1)) 7
     = (false, mkFdReader (mkSource [] false) 5,
        Some (mkWorld (Sample.env_free 1)
                {["/f"%string := [x0a; x01; x02; x03; x04; x05]]} [],
              mkOutFd "/f" 6)).
Proof.
  intros r w.
  assert (Hc : files w !! out_path (mkOutFd "/f" 1) = Some [x0a; x0b])
    by reflexivity.
  assert (Hmay : forall pos data,
             may_write (env w) (out_path (mkOutFd "/f" 1)) pos data = true)
    by (intros; reflexivity).
  split.
  - rewrite (FdReader_CopyTo_file ELFCLASS64 r w (mkOutFd "/f" 1) 3 [x0a; x0b]
               ltac:(by_compute) ltac:(by_compute) Hc Hmay).
    vm_compute. reflexivity.
  - rewrite (FdReader_CopyTo_file ELFCLASS64 r w (mkOutFd "/f" 1) 7 [x0a; x0b]
               ltac:(by_compute) ltac:(by_compute) Hc Hmay).
    vm_compute. reflexivity.
Defined.

(** On a file system whose files end before 2^44 bytes: offset 4096 moves
    the descriptor; offset 2^62 is refused; the largest offset is reported as
    a success and leaves the descriptor where it is; the one below is
    refused. *)
Lemma Seek_off_t_witness :
  let e := Sample.env_max_offset (2 ^ 44) in
  Seek ELFCLASS64 e (mkOutFd "/f" 7) 4096 = (true, mkOutFd "/f" 4096)
  /\ Seek ELFCLASS64 e (mkOutFd "/f" 7) (2 ^ 62) = (false, mkOutFd "/f" 7)
  /\ Seek ELFCLASS64 e (mkOutFd "/f" 7) (2 ^ 64 - 1) = (true, mkOutFd "/f" 7)
  /\ Seek ELFCLASS64 e (mkOutFd "/f" 7) (2 ^ 64 - 2) = (false, mkOutFd "/f" 7).
Proof.
  intros e. split; [|split; [|split]].
  - rewrite (Seek_off_t ELFCLASS64 e (mkOutFd "/f" 7) 4096 ltac:(by_compute)).
    vm_compute. reflexivity.
  - rewrite (Seek_off_t ELFCLASS64 e (mkOutFd "/f" 7) (2 ^ 62) ltac:(by_compute)).
    vm_compute. reflexivity.
  - rewrite (Seek_off_t ELFCLASS64 e (mkOutFd "/f" 7) (2 ^ 64 - 1) ltac:(by_compute)).
    vm_compute. reflexivity.
  - rewrite (Seek_off_t ELFCLASS64 e (mkOutFd "/f" 7) (2 ^ 64 - 2) ltac:(by_compute)).
    vm_compute. reflexivity.
Defined.

(** The name of the file of the sample note is read from position 40 of the
    description. *)
Lemma read_name_terminated_witness :
  let note := FindNote NT_FILE Sample.notes in
  read_name ELFCLASS64 (S (length (GetDescription note))) note 40 []
  = (47, list_byte_of_string "/bin/x").
Proof.
  intros note.
  assert (Hd : GetDescription note
               = take 40 (GetDescription note) ++ list_byte_of_string "/bin/x"
                 ++ x00 :: [])
    by (vm_compute; reflexivity).
  assert (Hname : Forall (fun c => c <> x00) (list_byte_of_string "/bin/x"))
    by (repeat constructor; discriminate).
  assert (Hfit : Z.of_nat (length (GetDescription note)) < wmod ELFCLASS64)
    by by_compute.
  exact (read_name_terminated ELFCLASS64 note _ _ _ [] Hd Hname Hfit).
Defined.

(** The one key of the mappings of the sample notes is the range of entry
    0. *)
Lemma GetFileMappings_keys_witness :
  is_Some (Sample.mappings !! (0x400000, 0x401000))
  <-> exists i, 0 <= i < note_file_count ELFCLASS64 (FindNote NT_FILE Sample.notes)
                /\ note_range ELFCLASS64 (FindNote NT_FILE Sample.notes) i
                   = (0x400000, 0x401000).
Proof.
  assert (Hfm : GetFileMappings ELFCLASS64 Sample.notes ∅ = Some Sample.mappings)
    by (vm_compute; reflexivity).
  exact (GetFileMappings_keys ELFCLASS64 Sample.notes Sample.mappings
           (0x400000, 0x401000) Hfm).
Defined.

(** On the note that lists one range twice, the offset recorded is that of
    the second entry, two pages. *)
Lemma GetFileMappings_offset_of_last_entry_witness :
  exists fm info,
    GetFileMappings ELFCLASS64 Sample.duplicate_notes ∅ = Some fm
    /\ fm !! (0x1000, 0x2000) = Some info
    /\ FileInfo.offset info = 8192.
Proof.
  destruct (GetFileMappings ELFCLASS64 Sample.duplicate_notes ∅) as [fm|] eqn:Hfm;
    [|vm_compute in Hfm; discriminate Hfm].
  assert (Hcount : note_file_count ELFCLASS64 (FindNote NT_FILE Sample.duplicate_notes) = 2)
    by (vm_compute; reflexivity).
  assert (Hi : 0 <= 1 < note_file_count ELFCLASS64 (FindNote NT_FILE Sample.duplicate_notes))
    by (rewrite Hcount; lia).
  assert (Hlast : forall j,
             1 < j < note_file_count ELFCLASS64 (FindNote NT_FILE Sample.duplicate_notes) ->
             note_range ELFCLASS64 (FindNote NT_FILE Sample.duplicate_notes) j
             <> note_range ELFCLASS64 (FindNote NT_FILE Sample.duplicate_notes) 1)
    by (intros j Hj; rewrite Hcount in Hj; lia).
  destruct (GetFileMappings_offset_of_last_entry ELFCLASS64 Sample.duplicate_notes fm 1
              Hfm Hi Hlast) as (info & Hinfo & Hoff).
  exists fm, info. split; [reflexivity|]. split; [exact Hinfo | exact Hoff].
Defined.

(** Filtering the filtered sample headers again changes nothing. *)
Lemma FilterSegments_idempotent_witness :
  FilterSegments ELFCLASS64
    (mkPhdr PT_NOTE 0 232 0 0 104 0 0
     :: filter_from ELFCLASS64 Sample.mappings (mkPhdr PT_NOTE 0 232 0 0 104 0 0)
          (tail Sample.headers))
    Sample.mappings
  = Some (mkPhdr PT_NOTE 0 232 0 0 104 0 0
          :: filter_from ELFCLASS64 Sample.mappings (mkPhdr PT_NOTE 0 232 0 0 104 0 0)
               (tail Sample.headers)).
Proof.
  exact (FilterSegments_idempotent ELFCLASS64 Sample.headers Sample.mappings _ eq_refl).
Defined.

(** The second and third entries of the filtered sample headers: the third
    starts where the second, which is dropped, ends. *)
Lemma FilterSegments_packed_witness :
  let a := mkPhdr PT_LOAD 5 336 0x400000 0 0 0x1000 16 in
  let b := mkPhdr PT_LOAD 6 336 0x7000000 0 32 0x1000 16 in
  p_offset b = align_up (segment_end a) (p_align b)
  /\ segment_end a <= p_offset b
  /\ p_offset b - segment_end a < Z.max 1 (p_align b).
Proof.
  intros a b.
  assert (Hok : Forall (Phdr_ok ELFCLASS64)
                  (mkPhdr PT_NOTE 0 232 0 0 104 0 0 :: tail Sample.headers))
    by (repeat constructor; by_compute).
  assert (Hfit : offsets_fit ELFCLASS64 Sample.mappings
                   (mkPhdr PT_NOTE 0 232 0 0 104 0 0) (tail Sample.headers) = true)
    by (vm_compute; reflexivity).
  exact (FilterSegments_packed ELFCLASS64 Sample.mappings
           (mkPhdr PT_NOTE 0 232 0 0 104 0 0) (tail Sample.headers) _ 1 a b
           Hok Hfit eq_refl eq_refl eq_refl).
Defined.

(** The file that the run on the sample input leaves is read back: the
    header, the filtered headers and the notes. *)
Lemma WriteCoredump_output_reads_back_witness :
  exists content,
    files (WriteCoredump ELFCLASS64 (Sample.writer Sample.input)
                         (Sample.world 1000000)).2
      !! "/data/core"%string = Some content
    /\ forall brk, exists r,
         ReadUntilNote ELFCLASS64 (env (Sample.world 1000000))
                       (mkFdReader (mkSource content brk) 0)
         = Returns (Some (take 64 Sample.input,
                          mkPhdr PT_NOTE 0 232 0 0 104 0 0
                          :: filter_from ELFCLASS64 Sample.mappings
                               (mkPhdr PT_NOTE 0 232 0 0 104 0 0)
                               (tail Sample.headers),
                          Sample.notes), r).
Proof.
  assert (Hinput : input_fits ELFCLASS64 (Sample.writer Sample.input)) by by_compute.
  assert (Hread : ReadUntilNote ELFCLASS64 (Sample.env_free 1000000)
                    (mkFdReader (fd_src_ (Sample.writer Sample.input)) 0)
                  = Returns (Some (take 64 Sample.input,
                           mkPhdr PT_NOTE 0 232 0 0 104 0 0 :: tail Sample.headers,
                           Sample.notes),
                     mkFdReader (mkSource (replicate 16 x02 ++ replicate 32 x03) false) 336))
    by (vm_compute; reflexivity).
  assert (Hfm : GetFileMappings ELFCLASS64 Sample.notes ∅ = Some Sample.mappings)
    by (vm_compute; reflexivity).
  assert (Hlayout : layout_fits ELFCLASS64 Sample.mappings
                      (mkPhdr PT_NOTE 0 232 0 0 104 0 0) (tail Sample.headers))
    by by_compute.
  assert (Hphoff : e_phoff ELFCLASS64 (take 64 Sample.input) = sizeof_Ehdr ELFCLASS64)
    by (vm_compute; reflexivity).
  assert (Hrun : WriteCoredump ELFCLASS64 (Sample.writer Sample.input)
                               (Sample.world 1000000)
                 = (Written 368,
                    (WriteCoredump ELFCLASS64 (Sample.writer Sample.input)
                                   (Sample.world 1000000)).2))
    by (vm_compute; reflexivity).
  exact (WriteCoredump_output_reads_back ELFCLASS64 (Sample.writer Sample.input)
           (Sample.world 1000000) 368 _ _ _ _ _ _ _
           Hinput Hread Hfm Hlayout Hphoff Hrun).
Defined.

(** The anonymous LOAD of the sample input, 32 bytes at offset 352, is found
    at offset 336 of the file that the run leaves. *)
Lemma WriteCoredump_copies_segments_witness :
  exists content,
    files (WriteCoredump ELFCLASS64 (Sample.writer Sample.input)
                         (Sample.world 1000000)).2
      !! "/data/core"%string = Some content
    /\ take 64 content = take 64 Sample.input
    /\ take 104 (drop 232 content) = Sample.notes
    /\ take 32 (drop 336 content) = take 32 (drop 352 Sample.input).
Proof.
  assert (Hinput : input_fits ELFCLASS64 (Sample.writer Sample.input)) by by_compute.
  assert (Hread : ReadUntilNote ELFCLASS64 (Sample.env_free 1000000)
                    (mkFdReader (fd_src_ (Sample.writer Sample.input)) 0)
                  = Returns (Some (take 64 Sample.input,
                           mkPhdr PT_NOTE 0 232 0 0 104 0 0 :: tail Sample.headers,
                           Sample.notes),
                     mkFdReader (mkSource (replicate 16 x02 ++ replicate 32 x03) false) 336))
    by (vm_compute; reflexivity).
  assert (Hfm : GetFileMappings ELFCLASS64 Sample.notes ∅ = Some Sample.mappings)
    by (vm_compute; reflexivity).
  assert (Hlayout : layout_fits ELFCLASS64 Sample.mappings
                      (mkPhdr PT_NOTE 0 232 0 0 104 0 0) (tail Sample.headers))
    by by_compute.
  assert (Hrun : WriteCoredump ELFCLASS64 (Sample.writer Sample.input)
                               (Sample.world 1000000)
                 = (Written 368,
                    (WriteCoredump ELFCLASS64 (Sample.writer Sample.input)
                                   (Sample.world 1000000)).2))
    by (vm_compute; reflexivity).
  destruct (WriteCoredump_copies_segments ELFCLASS64 (Sample.writer Sample.input)
              (Sample.world 1000000) 368 _ _ _ _ _ _ _
              Hinput Hread Hfm Hlayout Hrun)
    as (content & Hc & Hhead & _ & Hnote & Hsegs).
  exists content. split; [exact Hc|]. split; [exact Hhead|]. split; [exact Hnote|].
  exact (proj2 (proj2 (Hsegs 1%nat (mkPhdr PT_LOAD 6 336 0x7000000 0 32 0x1000 16)
                  (mkPhdr PT_LOAD 6 352 0x7000000 0 32 0x1000 16)
                  eq_refl eq_refl ltac:(by_compute)))).
Defined.

(** The note with two mapped files is decoded: each range maps to its offset
    in bytes and to its name. *)
Lemma GetFileMappings_decodes_witness :
  exists fm,
    GetFileMappings ELFCLASS64 SampleFiles.notes ∅ = Some fm
    /\ fm !! (0x400000, 0x401000)
       = Some (FileInfo.mk 0 (list_byte_of_string "/bin/x"))
    /\ fm !! (0x7000, 0x9000)
       = Some (FileInfo.mk 12288 (list_byte_of_string "/lib/y")).
Proof.
  assert (Hvalid : IsValid (FindNote NT_FILE SampleFiles.notes) = true)
    by (vm_compute; reflexivity).
  assert (Hd : GetDescription (FindNote NT_FILE SampleFiles.notes)
               = NT_FILE_desc ELFCLASS64 4096 SampleFiles.entries)
    by (vm_compute; reflexivity).
  assert (Hfit : Z.of_nat (length (GetDescription (FindNote NT_FILE SampleFiles.notes)))
                 < wmod ELFCLASS64 / 2) by by_compute.
  assert (Hps : is_long ELFCLASS64 4096) by by_compute.
  assert (Hps1 : 4096 <> -1) by discriminate.
  assert (Hok : Forall (FileEntry_ok ELFCLASS64) SampleFiles.entries).
  { repeat constructor; try discriminate; by_compute. }
  assert (Hdup : NoDup (map fe_range SampleFiles.entries)).
  { apply (bool_decide_unpack _). vm_compute. reflexivity. }
  destruct (GetFileMappings_decodes ELFCLASS64 SampleFiles.notes 4096
              SampleFiles.entries Hvalid Hd Hfit Hps Hps1 Hok Hdup)
    as (fm & Hfm & Hin & _).
  exists fm. split; [exact Hfm|]. split.
  - apply (Hin (mkFileEntry 0x400000 0x401000 0 (list_byte_of_string "/bin/x"))).
    apply elem_of_cons. by left.
  - apply (Hin (mkFileEntry 0x7000 0x9000 3 (list_byte_of_string "/lib/y"))).
    apply elem_of_cons. right. apply elem_of_cons. by left.
Defined.

(** On the note that lists one range twice, under the names [a] and [b],
    the path of the range is [ab]. *)
Lemma GetFileMappings_appends_names_witness :
  exists fm info,
    GetFileMappings ELFCLASS64 Sample.duplicate_notes ∅ = Some fm
    /\ fm !! (0x1000, 0x2000) = Some info
    /\ FileInfo.path info = list_byte_of_string "ab".
Proof.
  assert (Hvalid : IsValid (FindNote NT_FILE Sample.duplicate_notes) = true)
    by (vm_compute; reflexivity).
  assert (Hd : GetDescription (FindNote NT_FILE Sample.duplicate_notes)
               = NT_FILE_desc ELFCLASS64 4096
                   [mkFileEntry 0x1000 0x2000 1 (list_byte_of_string "a");
                    mkFileEntry 0x1000 0x2000 2 (list_byte_of_string "b")])
    by (vm_compute; reflexivity).
  assert (Hfit : Z.of_nat (length (GetDescription (FindNote NT_FILE Sample.duplicate_notes)))
                 < wmod ELFCLASS64 / 2) by by_compute.
  assert (Hps : is_long ELFCLASS64 4096) by by_compute.
  assert (Hps1 : 4096 <> -1) by discriminate.
  assert (Hok : Forall (FileEntry_ok ELFCLASS64)
                  [mkFileEntry 0x1000 0x2000 1 (list_byte_of_string "a");
                   mkFileEntry 0x1000 0x2000 2 (list_byte_of_string "b")]).
  { repeat constructor; try discriminate; by_compute. }
  destruct (GetFileMappings_appends_names ELFCLASS64 Sample.duplicate_notes 4096 _
              Hvalid Hd Hfit Hps Hps1 Hok)
    as (fm & Hfm & Hpaths).
  assert (Hkey : fm !! (0x1000, 0x2000)
                 = Some (FileInfo.mk 8192 (list_byte_of_string "ab"))).
  { assert (Hval : GetFileMappings ELFCLASS64 Sample.duplicate_notes ∅
                   = Some {[ (0x1000, 0x2000)
                             := FileInfo.mk 8192 (list_byte_of_string "ab") ]})
      by (vm_compute; reflexivity).
    rewrite Hval in Hfm. injection Hfm as <-. reflexivity. }
  exists fm, (FileInfo.mk 8192 (list_byte_of_string "ab")).
  split; [exact Hfm|]. split; [exact Hkey|].
  exact (Hpaths _ _ Hkey).
Defined.

(** With 80 GiB of free space the limit of the 32-bit class is that for no
    free space, 0, while that of the 64-bit class is 256 MiB. *)
Lemma coredump_size_limit_truncates_witness :
  coredump_size_limit ELFCLASS32 (0 + 20 * wmod ELFCLASS32 * 1)
  = coredump_size_limit ELFCLASS32 0
  /\ coredump_size_limit ELFCLASS64 (20 * wmod ELFCLASS32)
     = Z.min (20 * wmod ELFCLASS32 / 20) kMaxCoredumpSize.
Proof.
  split.
  - exact (proj2 (coredump_size_limit_truncates ELFCLASS32 0 ltac:(by_compute))
                 1 ltac:(by_compute)).
  - exact (proj1 (coredump_size_limit_truncates ELFCLASS64 (20 * wmod ELFCLASS32)
                    ltac:(by_compute))
                 ltac:(by_compute)).
Defined.


(** With a file [maps] left by an earlier run, the run on the sample input
    does not succeed. *)
Lemma WriteCoredump_stale_file_witness :
  (WriteCoredump ELFCLASS64 (Sample.writer Sample.input)
     (mkWorld (Sample.env_free 1000000) {["/data/proc/maps"%string := [x0a]]} [])).1
  <> Written 368.
Proof.
  apply (WriteCoredump_stale_file ELFCLASS64 (Sample.writer Sample.input)
           (mkWorld (Sample.env_free 1000000) {["/data/proc/maps"%string := [x0a]]} [])
           368).
  right. right. exists [x0a]. reflexivity.
Defined.
